(** * NGameRunner: the character controller, the contact filter, the level
    scenes and the leaderboard, embedded from [src/samples].

    Python [float]s are embedded as exact rationals ([Q]): every comparison,
    sum and difference of the source is kept, binary rounding is not
    modelled.  Dictionaries are [gmap]s, lists are lists, objects are records,
    and calls into raylib / Box2D / the engine that only produce an effect are
    recorded, in program order, in a list of [Effect]s. *)

From Stdlib Require Import QArith Qround Qabs Qminmax Lqa.
From Stdlib Require Import String Ascii DecimalString Sorted.
From stdpp Require Import gmap strings list.

Local Open Scope Q_scope.

(** ** Float comparisons *)

Module Num.

Definition ltb (x y : Q) : bool :=
  match x ?= y with Lt => true | _ => false end.

Definition leb (x y : Q) : bool :=
  match x ?= y with Gt => false | _ => true end.

Definition eqb (x y : Q) : bool :=
  match x ?= y with Eq => true | _ => false end.

(** Python's two-argument [max(a, b)]: [b] when [b > a], else [a]. *)
Definition max (a b : Q) : Q := if ltb a b then b else a.

End Num.

(** ** Vectors, bodies and engine components *)

Record Vec2 := v2 { vx : Q; vy : Q }.

Definition BodyHandle := nat.

(** Modelled from the spec: the engine's [BodyComponent] (section 4.1,
    Physics Adapter), which is not part of [src/].  It owns one physics body
    handle; position and velocity are read and written in pixels, and
    [disable] removes the body from the simulation. *)
Record BodyComponent := mkBody {
  body : BodyHandle;
  position_pixels : Vec2;
  velocity_pixels : Vec2;
  enabled : bool
}.

Definition get_position_pixels (b : BodyComponent) : Vec2 := position_pixels b.
Definition get_velocity_pixels (b : BodyComponent) : Vec2 := velocity_pixels b.

Definition set_position (pos : Vec2) (b : BodyComponent) : BodyComponent :=
  mkBody (body b) pos (velocity_pixels b) (enabled b).

Definition set_velocity (v : Vec2) (b : BodyComponent) : BodyComponent :=
  mkBody (body b) (position_pixels b) v (enabled b).

Definition disable (b : BodyComponent) : BodyComponent :=
  mkBody (body b) (position_pixels b) (velocity_pixels b) false.

(** A Box2D body as seen by gameplay code: its handle and the game object
    stored in [userData] (here: that object's tags), if any. *)
Record b2Body := mkB2 {
  handle : BodyHandle;
  userData : option (list string)
}.

(** [other and other.has_tag(tag)] *)
Definition tagged (tag : string) (contact_body : b2Body) : bool :=
  match userData contact_body with
  | Some tags => existsb (String.eqb tag) tags
  | None => false
  end.

(** Modelled from the spec: the engine's [StaticBox] prefab; only the physics
    body of the platform is used by the sources. *)
Record StaticBox := mkStaticBox { box_body : BodyHandle }.

Record b2Contact := mkContact {
  fixtureA_body : BodyHandle;
  fixtureB_body : BodyHandle;
  normal : Vec2;
  contact_enabled : bool
}.

Record CharacterParams := mkParams {
  position : Vec2;
  p_width : Q;
  p_height : Q
}.

(** Modelled from the spec: [PlatformerMovementComponent] (section 4.2); the
    character only stores its input there and reads [grounded] and
    [move_x] back. *)
Record Movement := mkMovement {
  move_x : Q;
  jump_pressed : bool;
  jump_held : bool;
  grounded : bool
}.

Definition set_input (mx : Q) (jp jh : bool) (m : Movement) : Movement :=
  mkMovement mx jp jh (grounded m).

Record Animation := mkAnimation {
  current : string;
  flip_x : bool
}.

Definition play (name : string) (a : Animation) : Animation :=
  mkAnimation name (flip_x a).

Definition set_flip_x (f : bool) (a : Animation) : Animation :=
  mkAnimation (current a) f.

(** Calls that leave the modelled state, in program order. *)
Inductive Effect :=
| PlaySound (name : string)
| StopSound (name : string)
| SetVolume (name : string) (volume : Q)
| ApplyLinearImpulse (target : BodyHandle) (impulse : Vec2)
| CircleOverlap (center : Vec2) (radius : Q)
| StoreTime (player : nat) (time : Q)
| GoToSceneNext.

(** ** NCharacter *)

Record NCharacter := mkCharacter {
  p : CharacterParams;
  player_number : nat;
  cbody : BodyComponent;
  movement : Movement;
  animation : Animation;
  fall_through : bool;
  fall_through_timer : Q;
  fall_through_duration : Q;
  attack_display_timer : Q;
  attack_display_duration : Q;
  attack : bool;
  has_won : bool;
  is_active : bool
}.

Definition width (c : NCharacter) : Q := p_width (p c).
Definition height (c : NCharacter) : Q := p_height (p c).

(** [NCharacter.__init__]; the body is the one [init] builds at the spawn
    position, with the handle the physics world hands out. *)
Definition new_character (params : CharacterParams) (number : nat)
    (h : BodyHandle) : NCharacter :=
  {| p := params; player_number := number;
     cbody := mkBody h (position params) (v2 0 0) true;
     movement := mkMovement 0 false false false;
     animation := mkAnimation EmptyString false;
     fall_through := false; fall_through_timer := 0.0;
     fall_through_duration := 0.2;
     attack_display_timer := 0.0; attack_display_duration := 0.1;
     attack := false; has_won := false; is_active := true |}.

Definition with_body (b : BodyComponent) (c : NCharacter) : NCharacter :=
  {| p := p c; player_number := player_number c; cbody := b;
     movement := movement c; animation := animation c;
     fall_through := fall_through c; fall_through_timer := fall_through_timer c;
     fall_through_duration := fall_through_duration c;
     attack_display_timer := attack_display_timer c;
     attack_display_duration := attack_display_duration c;
     attack := attack c; has_won := has_won c; is_active := is_active c |}.

Definition with_movement (m : Movement) (c : NCharacter) : NCharacter :=
  {| p := p c; player_number := player_number c; cbody := cbody c;
     movement := m; animation := animation c;
     fall_through := fall_through c; fall_through_timer := fall_through_timer c;
     fall_through_duration := fall_through_duration c;
     attack_display_timer := attack_display_timer c;
     attack_display_duration := attack_display_duration c;
     attack := attack c; has_won := has_won c; is_active := is_active c |}.

Definition with_animation (a : Animation) (c : NCharacter) : NCharacter :=
  {| p := p c; player_number := player_number c; cbody := cbody c;
     movement := movement c; animation := a;
     fall_through := fall_through c; fall_through_timer := fall_through_timer c;
     fall_through_duration := fall_through_duration c;
     attack_display_timer := attack_display_timer c;
     attack_display_duration := attack_display_duration c;
     attack := attack c; has_won := has_won c; is_active := is_active c |}.

Definition with_fall_through (f : bool) (t : Q) (c : NCharacter) : NCharacter :=
  {| p := p c; player_number := player_number c; cbody := cbody c;
     movement := movement c; animation := animation c;
     fall_through := f; fall_through_timer := t;
     fall_through_duration := fall_through_duration c;
     attack_display_timer := attack_display_timer c;
     attack_display_duration := attack_display_duration c;
     attack := attack c; has_won := has_won c; is_active := is_active c |}.

Definition with_attack (a : bool) (t : Q) (c : NCharacter) : NCharacter :=
  {| p := p c; player_number := player_number c; cbody := cbody c;
     movement := movement c; animation := animation c;
     fall_through := fall_through c; fall_through_timer := fall_through_timer c;
     fall_through_duration := fall_through_duration c;
     attack_display_timer := t;
     attack_display_duration := attack_display_duration c;
     attack := a; has_won := has_won c; is_active := is_active c |}.

Definition with_won (w act : bool) (c : NCharacter) : NCharacter :=
  {| p := p c; player_number := player_number c; cbody := cbody c;
     movement := movement c; animation := animation c;
     fall_through := fall_through c; fall_through_timer := fall_through_timer c;
     fall_through_duration := fall_through_duration c;
     attack_display_timer := attack_display_timer c;
     attack_display_duration := attack_display_duration c;
     attack := attack c; has_won := w; is_active := act |}.

(** The loop over [enumerate(player_entities[:4])] of [NScene.init] and
    [NScene3.init], started at index [i]: [starts] are the pixel positions of
    the level's "Start" entities, [handles k] is the body the physics world
    creates for the character of index [k]. *)
Fixpoint spawn_from (i : nat) (handles : nat -> BodyHandle) (starts : list Vec2)
    : list NCharacter :=
  match starts with
  | [] => []
  | start :: rest =>
      new_character (mkParams start 16 24) (i + 1) (handles i)
        :: spawn_from (S i) handles rest
  end.

Definition spawn_characters (handles : nat -> BodyHandle) (starts : list Vec2)
    : list NCharacter :=
  spawn_from 0 handles (take 4 starts).

(** *** [NCharacter.pre_solve] (identical in n_game.py and n_game3.py) *)

Fixpoint scan_platforms (other : option BodyHandle) (platforms : list StaticBox) : bool :=
  match platforms with
  | [] => true
  | platform :: rest =>
      if bool_decide (other = Some (box_body platform)) then false
      else scan_platforms other rest
  end.

Definition pre_solve (self : NCharacter) (body_a body_b : BodyHandle)
    (contact : b2Contact) (platforms : list StaticBox) : bool :=
  let n := normal contact in
  let '(sign, other) :=
    if bool_decide (body_a = body (cbody self)) then (1.0, Some body_b)
    else if bool_decide (body_b = body (cbody self)) then (-1.0, Some body_a)
    else (0.0, None) in
  if Num.ltb (sign * vy n) 0.5 then false
  else if fall_through self then scan_platforms other platforms
  else true.

(** *** The frame's input, as polled by [NCharacter.update] *)

Record Input := mkInput {
  key_w_pressed : bool;       (* rl.is_key_pressed(rl.KEY_W) *)
  pad_jump_pressed : bool;    (* GAMEPAD_BUTTON_RIGHT_FACE_DOWN pressed *)
  key_w_down : bool;
  pad_jump_down : bool;
  axis_left_x : Q;            (* GAMEPAD_AXIS_LEFT_X *)
  key_d_down : bool;
  pad_right_down : bool;      (* GAMEPAD_BUTTON_LEFT_FACE_RIGHT down *)
  key_a_down : bool;
  pad_left_down : bool;       (* GAMEPAD_BUTTON_LEFT_FACE_LEFT down *)
  axis_left_y : Q;            (* GAMEPAD_AXIS_LEFT_Y *)
  key_s_pressed : bool;
  pad_down_pressed : bool;    (* GAMEPAD_BUTTON_LEFT_FACE_DOWN pressed *)
  key_space_pressed : bool;
  pad_attack_pressed : bool;  (* GAMEPAD_BUTTON_RIGHT_FACE_RIGHT pressed *)
  overlapping : list BodyHandle;  (* what physics.circle_overlap returns *)
  contacts : list b2Body;         (* self.body.get_contacts(), goal scan *)
  contacts_again : list b2Body    (* the second get_contacts() of n_game3 *)
}.

Definition deadzone : Q := 0.1.

Definition read_move_x (i : Input) : Q :=
  let mx := axis_left_x i in
  let mx := if Num.ltb (Qabs mx) deadzone then 0.0 else mx in
  if key_d_down i || pad_right_down i then 1.0
  else if key_a_down i || pad_left_down i then -1.0
  else mx.

Definition read_jump_pressed (i : Input) : bool :=
  key_w_pressed i || pad_jump_pressed i.

Definition read_jump_held (i : Input) : bool :=
  key_w_down i || pad_jump_down i.

(** [self.movement.set_input(...)], the jump sound and the choice of
    animation.  The sign of the vertical velocity is the same in metres and
    in pixels. *)
Definition steer (i : Input) (c : NCharacter) : NCharacter * list Effect :=
  let c := with_movement
             (set_input (read_move_x i) (read_jump_pressed i) (read_jump_held i)
                        (movement c)) c in
  let fx := if grounded (movement c) && read_jump_pressed i
            then [PlaySound "jump"] else [] in
  let a := animation c in
  let a := if Num.ltb 0.1 (Qabs (move_x (movement c)))
           then set_flip_x (Num.ltb (move_x (movement c)) 0.0) (play "run" a)
           else play "idle" a in
  let a := if negb (grounded (movement c)) then
             if negb (player_number c =? 3)%nat then
               if Num.ltb (vy (get_velocity_pixels (cbody c))) 0.0
               then play "jump" a else play "fall" a
             else play "jump" a
           else a in
  (with_animation a c, fx).

(** *** Fall-through window *)

Definition down_event (i : Input) : bool :=
  key_s_pressed i || pad_down_pressed i || Num.ltb 0.5 (axis_left_y i).

Definition start_fall_through (c : NCharacter) : NCharacter :=
  with_fall_through true (fall_through_duration c) c.

Definition tick_fall_through (delta_time : Q) (c : NCharacter) : NCharacter :=
  if Num.ltb 0.0 (fall_through_timer c) then
    let t := Num.max 0.0 (fall_through_timer c - delta_time) in
    if Num.eqb t 0.0 then with_fall_through false t c
    else with_fall_through (fall_through c) t c
  else c.

Definition fall_through_step (i : Input) (delta_time : Q) (c : NCharacter)
    : NCharacter :=
  tick_fall_through delta_time
    (if down_event i then start_fall_through c else c).

(** *** Attack window *)

Definition attack_event (i : Input) : bool :=
  key_space_pressed i || pad_attack_pressed i.

Definition facing (c : NCharacter) : Q :=
  if flip_x (animation c) then -1.0 else 1.0.

Definition attack_center (c : NCharacter) : Vec2 :=
  let pos := get_position_pixels (cbody c) in
  v2 (vx pos + (width c / 2.0 + 8.0) * facing c) (vy pos).

Definition knockback_impulse (c : NCharacter) : Vec2 :=
  v2 (if flip_x (animation c) then -10.0 else 10.0) (-10.0).

Definition tick_attack (delta_time : Q) (c : NCharacter) : NCharacter :=
  if Num.ltb 0.0 (attack_display_timer c) then
    let t := Num.max 0.0 (attack_display_timer c - delta_time) in
    if Num.eqb t 0.0 then with_attack false t c
    else with_attack (attack c) t c
  else c.

(** *** Respawn at the spawn point *)

Definition to_spawn (c : NCharacter) : NCharacter :=
  with_body (set_velocity (v2 0.0 0.0) (set_position (position (p c)) (cbody c))) c.

(** The body of a character that reached the goal. *)
Definition vanish (c : NCharacter) : NCharacter :=
  with_body (disable (set_velocity (v2 0.0 0.0)
                        (set_position (v2 (-1000.0) (-1000.0)) (cbody c)))) c.

(** ** n_game.py *)

Module NGame.

Record NScene := mkScene {
  platforms : list StaticBox;
  winners : list nat;
  winner_times : gmap nat Q;
  winner_display_duration : Q
}.

(** [NScene.__init__] *)
Definition new_scene : NScene :=
  {| platforms := []; winners := []; winner_times := ∅;
     winner_display_duration := 3.0 |}.

(** [NScene.add_winner] *)
Definition add_winner (player : nat) (s : NScene) : NScene :=
  if bool_decide (player ∈ winners s) then s
  else {| platforms := platforms s;
          winners := winners s ++ [player];
          winner_times := <[player := 0.0]> (winner_times s);
          winner_display_duration := winner_display_duration s |}.

(** One turn of the loop over [list(self.winner_times.keys())]. *)
Definition age_winner (delta_time duration : Q) (times : gmap nat Q)
    (player_num : nat) : gmap nat Q :=
  let times := alter (fun t => t + delta_time) player_num times in
  match times !! player_num with
  | Some t => if Num.ltb duration t then delete player_num times else times
  | None => times
  end.

Definition enter_pressed (key_enter pad_start : bool) : bool :=
  key_enter || pad_start.

(** [NScene.update] *)
Definition scene_update (delta_time : Q) (key_enter pad_start : bool)
    (s : NScene) : NScene * list Effect :=
  let times := foldl (age_winner delta_time (winner_display_duration s))
                     (winner_times s) (map fst (map_to_list (winner_times s))) in
  ({| platforms := platforms s; winners := winners s; winner_times := times;
      winner_display_duration := winner_display_duration s |},
   if enter_pressed key_enter pad_start then [GoToSceneNext] else []).

(** The attack loop over the overlapping bodies. *)
Fixpoint knockback (self : NCharacter) (bodies : list BodyHandle) : list Effect :=
  match bodies with
  | [] => []
  | other_body :: rest =>
      if bool_decide (other_body = body (cbody self)) then knockback self rest
      else ApplyLinearImpulse other_body (knockback_impulse self)
             :: PlaySound "hit" :: knockback self rest
  end.

Definition attack_step (i : Input) (delta_time : Q) (c : NCharacter)
    : NCharacter * list Effect :=
  let '(c, fx) :=
    if attack_event i then
      (with_attack true (attack_display_duration c) c,
       CircleOverlap (attack_center c) 8.0 :: knockback c (overlapping i))
    else (c, []) in
  (tick_attack delta_time c, fx).

(** The body of the goal loop once a goal-tagged contact is found. *)
Definition win (c : NCharacter) (s : NScene) : NCharacter * NScene :=
  let c := with_won true (is_active c) c in
  let s := add_winner (player_number c) s in
  let c := with_won (has_won c) false c in
  (vanish c, s).

Fixpoint scan_goal (bodies : list b2Body) (c : NCharacter) (s : NScene)
    : NCharacter * NScene :=
  match bodies with
  | [] => (c, s)
  | contact_body :: rest =>
      if tagged "goal" contact_body then win c s else scan_goal rest c s
  end.

Definition goal_step (i : Input) (c : NCharacter) (s : NScene)
    : NCharacter * NScene :=
  if negb (has_won c) then scan_goal (contacts i) c s else (c, s).

Definition respawn_step (level_size : Vec2) (c : NCharacter)
    : NCharacter * list Effect :=
  if Num.ltb (vy level_size + 200.0) (vy (get_position_pixels (cbody c)))
  then (to_spawn c, [PlaySound "die"])
  else (c, []).

(** [NCharacter.update] *)
Definition update (level_size : Vec2) (i : Input) (delta_time : Q)
    (c : NCharacter) (s : NScene) : NCharacter * NScene * list Effect :=
  let '(c, fx1) := steer i c in
  let c := fall_through_step i delta_time c in
  let '(c, fx2) := attack_step i delta_time c in
  let '(c, s) := goal_step i c s in
  let '(c, fx3) := respawn_step level_size c in
  (c, s, fx1 ++ fx2 ++ fx3).

Definition enable (contact : b2Contact) : b2Contact :=
  mkContact (fixtureA_body contact) (fixtureB_body contact) (normal contact) true.

(** [NContactListener.PreSolve]: the call to [pre_solve] is commented out in
    the source, a character's contact is simply enabled. *)
Fixpoint PreSolve (characters : list NCharacter) (contact : b2Contact) : b2Contact :=
  match characters with
  | [] => contact
  | character :: rest =>
      if bool_decide (fixtureA_body contact = body (cbody character))
         || bool_decide (fixtureB_body contact = body (cbody character))
      then enable contact
      else PreSolve rest contact
  end.

End NGame.

(** ** The game object shared by the scenes: the cross-scene results store

    The level scenes and the leaderboard keep the completion times in
    attributes they put on the game object; an absent attribute is [None]. *)

Record Game := mkGame {
  player_times_level1 : option (gmap nat Q);
  player_times_level2 : option (gmap nat Q);
  player_times_level3 : option (gmap nat Q)
}.

Definition write_level3 (player : nat) (time : Q) (g : Game) : Game :=
  mkGame (player_times_level1 g) (player_times_level2 g)
         (Some (<[player := time]> (default ∅ (player_times_level3 g)))).

(** [if not hasattr(self.game, 'player_times_level3'): ... = {}] *)
Definition ensure_level3 (g : Game) : Game :=
  mkGame (player_times_level1 g) (player_times_level2 g)
         (Some (default ∅ (player_times_level3 g))).

(** ** n_game3.py *)

Module NGame3.

Record BloodParticle := mkParticle {
  bp_position : Vec2;
  bp_velocity : Vec2;
  lifetime : Q;
  max_lifetime : Q;
  bp_size : Q
}.

(** One random draw of [BloodParticle.__init__]: the velocity
    [(cos angle * speed, sin angle * speed)], the lifetime and the size. *)
Record Draw := mkDraw { d_velocity : Vec2; d_lifetime : Q; d_size : Q }.

Definition new_particle (pos : Vec2) (d : Draw) : BloodParticle :=
  mkParticle (v2 (vx pos) (vy pos)) (d_velocity d) (d_lifetime d) (d_lifetime d) (d_size d).

(** [BloodParticle.update]: the moved particle and whether it is still alive. *)
Definition particle_update (delta_time : Q) (b : BloodParticle) : BloodParticle * bool :=
  let pos := v2 (vx (bp_position b) + vx (bp_velocity b) * delta_time)
                (vy (bp_position b) + vy (bp_velocity b) * delta_time) in
  let vel := v2 (vx (bp_velocity b)) (vy (bp_velocity b) + 300 * delta_time) in
  let life := lifetime b - delta_time in
  (mkParticle pos vel life (max_lifetime b) (bp_size b), Num.ltb 0 life).

Record NScene3 := mkScene {
  platforms : list StaticBox;
  bombs : list BodyHandle;
  winners : list nat;
  winner_times : gmap nat Q;
  winner_display_duration : Q;
  time_limit : Q;
  elapsed_time : Q;
  player_completion_times : gmap nat Q;
  clock_playing : bool;
  music_playing : bool;
  blood_particles : list BloodParticle
}.

(** The scene after [NScene3.init] has reset it and started the music;
    platforms and bombs come from the level. *)
Definition new_scene (level_platforms : list StaticBox) (level_bombs : list BodyHandle)
    : NScene3 :=
  {| platforms := level_platforms; bombs := level_bombs;
     winners := []; winner_times := ∅; winner_display_duration := 3.0;
     time_limit := 120.0; elapsed_time := 0.0; player_completion_times := ∅;
     clock_playing := false; music_playing := true; blood_particles := [] |}.

Definition with_winner (player : nat) (s : NScene3) : NScene3 :=
  {| platforms := platforms s; bombs := bombs s;
     winners := winners s ++ [player];
     winner_times := <[player := 0.0]> (winner_times s);
     winner_display_duration := winner_display_duration s;
     time_limit := time_limit s; elapsed_time := elapsed_time s;
     player_completion_times := <[player := elapsed_time s]> (player_completion_times s);
     clock_playing := clock_playing s; music_playing := music_playing s;
     blood_particles := blood_particles s |}.

(** [NScene3.add_winner] *)
Definition add_winner (player : nat) (s : NScene3) (g : Game)
    : NScene3 * Game * list Effect :=
  if bool_decide (player ∈ winners s) then (s, g, [])
  else (with_winner player s,
        write_level3 player (elapsed_time s) (ensure_level3 g),
        [StoreTime player (elapsed_time s)]).

Definition with_particles (ps : list BloodParticle) (s : NScene3) : NScene3 :=
  {| platforms := platforms s; bombs := bombs s; winners := winners s;
     winner_times := winner_times s;
     winner_display_duration := winner_display_duration s;
     time_limit := time_limit s; elapsed_time := elapsed_time s;
     player_completion_times := player_completion_times s;
     clock_playing := clock_playing s; music_playing := music_playing s;
     blood_particles := ps |}.

(** [NScene3.spawn_blood_particles]; [draws k] is the k-th random draw. *)
Definition spawn_blood_particles (draws : nat -> Draw) (pos : Vec2) (s : NScene3)
    : NScene3 :=
  with_particles
    (blood_particles s ++ map (fun k => new_particle pos (draws k)) (seq 0 15)) s.

(** *** [NCharacter.update] of n_game3.py *)

Fixpoint knockback (self : NCharacter) (bodies : list BodyHandle) : list Effect :=
  match bodies with
  | [] => []
  | other_body :: rest =>
      if bool_decide (other_body = body (cbody self)) then knockback self rest
      else ApplyLinearImpulse other_body (knockback_impulse self) :: knockback self rest
  end.

Definition attack_step (i : Input) (delta_time : Q) (c : NCharacter)
    : NCharacter * list Effect :=
  let '(c, fx) :=
    if attack_event i then
      (with_attack true (attack_display_duration c) c,
       PlaySound "hit" :: SetVolume "hit" 2.0
         :: CircleOverlap (attack_center c) 8.0 :: knockback c (overlapping i))
    else (c, []) in
  (tick_attack delta_time c, fx).

Definition win (c : NCharacter) (s : NScene3) (g : Game)
    : NCharacter * NScene3 * Game * list Effect :=
  let c := with_won true (is_active c) c in
  let '(s, g, fx) := add_winner (player_number c) s g in
  let c := with_won (has_won c) false c in
  (vanish c, s, g, PlaySound "win" :: fx).

Fixpoint scan_goal (bodies : list b2Body) (c : NCharacter) (s : NScene3) (g : Game)
    : NCharacter * NScene3 * Game * list Effect :=
  match bodies with
  | [] => (c, s, g, [])
  | contact_body :: rest =>
      if tagged "goal" contact_body then win c s g else scan_goal rest c s g
  end.

Definition goal_step (i : Input) (c : NCharacter) (s : NScene3) (g : Game)
    : NCharacter * NScene3 * Game * list Effect :=
  if negb (has_won c) then scan_goal (contacts i) c s g else (c, s, g, []).

Definition explode (draws : nat -> Draw) (c : NCharacter) (s : NScene3)
    : NCharacter * NScene3 * list Effect :=
  (to_spawn c,
   spawn_blood_particles draws (get_position_pixels (cbody c)) s,
   [PlaySound "boom"]).

Fixpoint scan_bomb (draws : nat -> Draw) (bodies : list b2Body)
    (c : NCharacter) (s : NScene3) : NCharacter * NScene3 * list Effect :=
  match bodies with
  | [] => (c, s, [])
  | contact_body :: rest =>
      if tagged "bomb" contact_body then explode draws c s
      else scan_bomb draws rest c s
  end.

(** World-wrap and out-of-bounds respawn; both test the [position] read
    once, before either of them moves the body. *)
Definition wrap_and_respawn (level_size : Vec2) (c : NCharacter)
    : NCharacter * list Effect :=
  let pos := get_position_pixels (cbody c) in
  let level_width := vx level_size in
  let c :=
    if Num.leb (vx pos) 0.0 then
      let velocity := get_velocity_pixels (cbody c) in
      with_body (set_velocity velocity
                   (set_position (v2 level_width (vy pos)) (cbody c))) c
    else if Num.leb level_width (vx pos) then
      let velocity := get_velocity_pixels (cbody c) in
      with_body (set_velocity velocity
                   (set_position (v2 0.0 (vy pos)) (cbody c))) c
    else c in
  if Num.ltb (vy level_size + 200.0) (vy pos)
  then (to_spawn c, [PlaySound "die"])
  else (c, []).

Definition update (level_size : Vec2) (draws : nat -> Draw) (i : Input)
    (delta_time : Q) (c : NCharacter) (s : NScene3) (g : Game)
    : NCharacter * NScene3 * Game * list Effect :=
  let '(c, fx1) := steer i c in
  let c := fall_through_step i delta_time c in
  let '(c, fx2) := attack_step i delta_time c in
  let '(c, s, g, fx3) := goal_step i c s g in
  let '(c, s, fx4) := scan_bomb draws (contacts_again i) c s in
  let '(c, fx5) := wrap_and_respawn level_size c in
  (c, s, g, SetVolume "jump" 0.4 :: fx1 ++ fx2 ++ fx3 ++ fx4 ++ fx5).

(** [NContactListener.PreSolve] of n_game3.py *)
Fixpoint PreSolve (characters : list NCharacter) (contact : b2Contact) : b2Contact :=
  match characters with
  | [] => contact
  | character :: rest =>
      if bool_decide (fixtureA_body contact = body (cbody character))
         || bool_decide (fixtureB_body contact = body (cbody character))
      then mkContact (fixtureA_body contact) (fixtureB_body contact)
                     (normal contact) true
      else PreSolve rest contact
  end.

(** *** [NScene3.update] *)

Record SceneInput := mkSceneInput {
  clock_sound_playing : bool;   (* rl.is_sound_playing(self.clock_sound) *)
  music_sound_playing : bool;   (* rl.is_sound_playing(self.background_music) *)
  key_enter_pressed : bool;
  pad_start_pressed : bool      (* GAMEPAD_BUTTON_MIDDLE_RIGHT pressed *)
}.

Definition with_clock (elapsed : Q) (clock music : bool) (s : NScene3) : NScene3 :=
  {| platforms := platforms s; bombs := bombs s; winners := winners s;
     winner_times := winner_times s;
     winner_display_duration := winner_display_duration s;
     time_limit := time_limit s; elapsed_time := elapsed;
     player_completion_times := player_completion_times s;
     clock_playing := clock; music_playing := music;
     blood_particles := blood_particles s |}.

Definition with_winner_times (times : gmap nat Q) (s : NScene3) : NScene3 :=
  {| platforms := platforms s; bombs := bombs s; winners := winners s;
     winner_times := times;
     winner_display_duration := winner_display_duration s;
     time_limit := time_limit s; elapsed_time := elapsed_time s;
     player_completion_times := player_completion_times s;
     clock_playing := clock_playing s; music_playing := music_playing s;
     blood_particles := blood_particles s |}.

(** [[p for p in self.blood_particles if p.update(delta_time)]] *)
Fixpoint update_particles (delta_time : Q) (ps : list BloodParticle)
    : list BloodParticle :=
  match ps with
  | [] => []
  | b :: rest =>
      let '(b, alive) := particle_update delta_time b in
      if alive then b :: update_particles delta_time rest
      else update_particles delta_time rest
  end.

(** The music / ticking-clock switch on the remaining time. *)
Definition sound_step (i : SceneInput) (s : NScene3) : NScene3 * list Effect :=
  let remaining_time := time_limit s - elapsed_time s in
  if Num.leb remaining_time 20.0 && Num.ltb 0.0 remaining_time then
    let '(music, fx1) :=
      if music_playing s then (false, [StopSound "level3"])
      else (music_playing s, []) in
    let '(clock, fx2) :=
      if negb (clock_playing s) then (true, [PlaySound "tick"])
      else if negb (clock_sound_playing i) then (clock_playing s, [PlaySound "tick"])
      else (clock_playing s, []) in
    (with_clock (elapsed_time s) clock music s, fx1 ++ fx2)
  else
    let fx1 :=
      if music_playing s && negb (music_sound_playing i)
      then [PlaySound "level3"] else [] in
    let '(clock, fx2) :=
      if clock_playing s then (false, [StopSound "tick"])
      else (clock_playing s, []) in
    (with_clock (elapsed_time s) clock (music_playing s) s, fx1 ++ fx2).

(** The four lines that silence both sounds before a scene change. *)
Definition silence (s : NScene3) : NScene3 * list Effect :=
  let '(clock, fx1) :=
    if clock_playing s then (false, [StopSound "tick"])
    else (clock_playing s, []) in
  let '(music, fx2) :=
    if music_playing s then (false, [StopSound "level3"])
    else (music_playing s, []) in
  (with_clock (elapsed_time s) clock music s, fx1 ++ fx2).

Definition age_winner (delta_time duration : Q) (times : gmap nat Q)
    (player_num : nat) : gmap nat Q :=
  let times := alter (fun t => t + delta_time) player_num times in
  match times !! player_num with
  | Some t => if Num.ltb duration t then delete player_num times else times
  | None => times
  end.

Definition age_winners (delta_time : Q) (s : NScene3) : NScene3 :=
  with_winner_times
    (foldl (age_winner delta_time (winner_display_duration s))
           (winner_times s) (map fst (map_to_list (winner_times s)))) s.

(** [all(time > duration for time in winner_times.values()) or not winner_times] *)
Definition displays_over (s : NScene3) : bool :=
  forallb (fun kv : nat * Q => Num.ltb (winner_display_duration s) kv.2)
          (map_to_list (winner_times s))
  || bool_decide (winner_times s = ∅).

(** The loop [for i, char in enumerate(self.characters)] of the time-out
    branch, started at index [i]. *)
Fixpoint assign_dnf (i : nat) (characters : list NCharacter)
    (completion : gmap nat Q) (g : Game) : Game * list Effect :=
  match characters with
  | [] => (g, [])
  | char :: rest =>
      let player_num := (i + 1)%nat in
      if bool_decide (player_num ∈ dom completion) then
        assign_dnf (S i) rest completion g
      else
        let '(g', fx) := assign_dnf (S i) rest completion
                           (write_level3 player_num (-1.0) g) in
        (g', StoreTime player_num (-1.0) :: fx)
  end.

Definition time_out (characters : list NCharacter) (s : NScene3) (g : Game)
    : NScene3 * Game * list Effect :=
  let '(s, fx1) := silence s in
  let g := ensure_level3 g in
  let '(g, fx2) := assign_dnf 0 characters (player_completion_times s) g in
  (s, g, fx1 ++ fx2 ++ [GoToSceneNext]).

Definition enter_step (i : SceneInput) (s : NScene3) : NScene3 * list Effect :=
  if key_enter_pressed i || pad_start_pressed i then
    let '(s, fx) := silence s in (s, fx ++ [GoToSceneNext])
  else (s, []).

Definition scene_update (characters : list NCharacter) (i : SceneInput)
    (delta_time : Q) (s : NScene3) (g : Game) : NScene3 * Game * list Effect :=
  let s := with_clock (elapsed_time s + delta_time) (clock_playing s) (music_playing s) s in
  let s := with_particles (update_particles delta_time (blood_particles s)) s in
  let '(s, fx1) := sound_step i s in
  let s := age_winners delta_time s in
  let all_finished :=
    (size (player_completion_times s) =? length characters)%nat in
  if all_finished && (0 <? length characters)%nat && displays_over s then
    let '(s, fx2) := silence s in
    (s, g, fx1 ++ fx2 ++ [GoToSceneNext])
  else
    let '(s, g, fx3) :=
      if Num.leb (time_limit s) (elapsed_time s) then time_out characters s g
      else (s, g, []) in
    let '(s, fx4) := enter_step i s in
    (s, g, fx1 ++ fx3 ++ fx4).

End NGame3.

(** ** leaderboard_screen.py *)

Module Leaderboard.

Definition digits (z : Z) : string := NilZero.string_of_int (Z.to_int z).

(** Left padding with zeros up to [n] characters. *)
Definition zero_pad (n : nat) (s : string) : string :=
  string_of_list_ascii (repeat "0"%char (n - String.length s))%nat ++ s.

(** Rounding to the nearest integer, ties to even, as the [f] presentation
    type rounds the digits it drops. *)
Definition round_half_even (x : Q) : Z :=
  let f := Qfloor x in
  let d := x - inject_Z f in
  if Num.ltb d (1 # 2) then f
  else if Num.ltb (1 # 2) d then (f + 1)%Z
  else if Z.even f then f else (f + 1)%Z.

(** The format specification [05.2f], for the non-negative values
    [format_time] passes to it: two decimals, at least five characters,
    zero-filled. *)
Definition format_05_2f (x : Q) : string :=
  let h := round_half_even (x * 100) in
  zero_pad 5 (digits (h / 100) ++ "." ++ zero_pad 2 (digits (h mod 100))).

(** [LeaderboardScreen.format_time] *)
Definition format_time (time_seconds : Q) : string :=
  if Num.ltb time_seconds 0 then "DNF"
  else
    let minutes := Qfloor (time_seconds / 60) in
    let seconds := time_seconds - 60 * inject_Z minutes in
    digits minutes ++ ":" ++ format_05_2f seconds.

Record Result := mkResult {
  player : nat;
  total_time : Q;
  status : string;
  level1 : string;
  level2 : string;
  level3 : string
}.

(** [level_times.get(player_num, -1.0)] *)
Definition get_time (level_times : gmap nat Q) (player_num : nat) : Q :=
  default (-1.0) (level_times !! player_num).

Definition level_text (t : Q) : string :=
  if Num.leb 0 t then format_time t else "DNF".

(** The body of the loop over [all_players]. *)
Definition result_of (level1_times level2_times level3_times : gmap nat Q)
    (player_num : nat) : Result :=
  let time1 := get_time level1_times player_num in
  let time2 := get_time level2_times player_num in
  let time3 := get_time level3_times player_num in
  let '(total, st) :=
    if Num.ltb time1 0 || Num.ltb time2 0 || Num.ltb time3 0
    then (-1.0, "DNF")
    else (time1 + time2 + time3, format_time (time1 + time2 + time3)) in
  mkResult player_num total st (level_text time1) (level_text time2) (level_text time3).

(** The second component of the sort key is a float that may be
    [float('inf')]. *)
Inductive Extended := Finite (q : Q) | Infinity.

Definition ext_eqb (a b : Extended) : bool :=
  match a, b with
  | Finite x, Finite y => Num.eqb x y
  | Infinity, Infinity => true
  | _, _ => false
  end.

Definition ext_ltb (a b : Extended) : bool :=
  match a, b with
  | Finite x, Finite y => Num.ltb x y
  | Finite _, Infinity => true
  | Infinity, _ => false
  end.

Definition sort_key (x : Result) : bool * Extended :=
  (Num.ltb (total_time x) 0,
   if Num.leb 0 (total_time x) then Finite (total_time x) else Infinity).

(** [<] on the key tuples: the first components that differ decide. *)
Definition key_ltb (k1 k2 : bool * Extended) : bool :=
  if negb (Bool.eqb k1.1 k2.1) then negb k1.1 && k2.1
  else if negb (ext_eqb k1.2 k2.2) then ext_ltb k1.2 k2.2
  else false.

(** [list.sort] is stable: an element goes behind every element whose key
    is not greater than its own. *)
Fixpoint insert_sorted (x : Result) (sorted : list Result) : list Result :=
  match sorted with
  | [] => [x]
  | y :: rest =>
      if key_ltb (sort_key x) (sort_key y) then x :: sorted
      else y :: insert_sorted x rest
  end.

Definition sort (results : list Result) : list Result :=
  foldl (fun sorted x => insert_sorted x sorted) [] results.

Definition all_players (g : Game) : gset nat :=
  dom (default ∅ (player_times_level1 g))
  ∪ dom (default ∅ (player_times_level2 g))
  ∪ dom (default ∅ (player_times_level3 g)).

(** [LeaderboardScreen.init], the part that fills [player_results];
    [iteration] is the order in which the set [all_players] is walked. *)
Definition init_with (iteration : list nat) (g : Game) : list Result :=
  let level1_times := default ∅ (player_times_level1 g) in
  let level2_times := default ∅ (player_times_level2 g) in
  let level3_times := default ∅ (player_times_level3 g) in
  sort (map (result_of level1_times level2_times level3_times) iteration).

Definition init (g : Game) : list Result :=
  init_with (elements (all_players g)) g.

(** What [draw] prints for each rank. *)
Definition ranking (results : list Result) : list (nat * string) :=
  map (fun r => (player r, status r)) results.

End Leaderboard.

(** ** Histories of a character

    What can happen to a character between its creation and any later frame:
    its own [update] (of either level), and changes made from outside, by the
    physics step, by the movement component or by another character's
    attack, which reach only its body and its movement component. *)

Inductive step : NCharacter -> NCharacter -> Prop :=
| step_update level_size i delta_time c s :
    step c (NGame.update level_size i delta_time c s).1.1
| step_update3 level_size draws i delta_time c s g :
    step c (NGame3.update level_size draws i delta_time c s g).1.1.1
| step_outside b m c :
    step c (with_movement m (with_body b c)).

Inductive evolves (c : NCharacter) : NCharacter -> Prop :=
| evolves_refl : evolves c c
| evolves_step c1 c2 : evolves c c1 -> step c1 c2 -> evolves c c2.

(** The two timed windows of a character, as (flag, remaining, duration). *)
Definition fall_window (c : NCharacter) : bool * Q * Q :=
  (fall_through c, fall_through_timer c, fall_through_duration c).

Definition attack_window (c : NCharacter) : bool * Q * Q :=
  (attack c, attack_display_timer c, attack_display_duration c).

(** Effects that only start or stop a sound. *)
Definition is_sound (e : Effect) : bool :=
  match e with
  | PlaySound _ | StopSound _ => true
  | _ => false
  end.

(** The flag of a window is set exactly while time remains. *)
Definition paired (w : bool * Q * Q) : Prop := w.1.1 = true <-> 0 < w.1.2.

(** What every history keeps true of the two windows. *)
Definition windows_ok (c : NCharacter) : Prop :=
  fall_through_duration c = 0.2
  /\ attack_display_duration c = 0.1
  /\ paired (fall_window c)
  /\ paired (attack_window c).

(** Both levels open and age the attack window in the same way. *)
Definition attack_opened (i : Input) (delta_time : Q) (c : NCharacter) : NCharacter :=
  tick_attack delta_time
    (if attack_event i then with_attack true (attack_display_duration c) c else c).

(** Whether this update registers the character as a new winner. *)
Definition wins_now (i : Input) (c : NCharacter) : bool :=
  negb (has_won c) && existsb (tagged "goal") (contacts i).

(** Whether the bomb loop of n_game3 finds a bomb among the contacts. *)
Definition bombed (i : Input) : bool := existsb (tagged "bomb") (contacts_again i).

(** ** Reading the effects of an update *)

(** The impulses applied, as (target, impulse), in program order. *)
Definition impulses (fx : list Effect) : list (BodyHandle * Vec2) :=
  omap (fun e => match e with
                 | ApplyLinearImpulse target impulse => Some (target, impulse)
                 | _ => None
                 end) fx.

(** The overlap queries issued, as (centre, radius). *)
Definition overlap_queries (fx : list Effect) : list (Vec2 * Q) :=
  omap (fun e => match e with
                 | CircleOverlap center radius => Some (center, radius)
                 | _ => None
                 end) fx.

Definition is_play (name : string) (e : Effect) : bool :=
  match e with
  | PlaySound n => String.eqb n name
  | _ => false
  end.

(** How often the sound [name] is started. *)
Definition plays (name : string) (fx : list Effect) : nat :=
  length (filter (fun e => is_play name e = true) fx).

Definition is_transition (e : Effect) : bool :=
  match e with
  | GoToSceneNext => true
  | _ => false
  end.

Definition is_store (e : Effect) : bool :=
  match e with
  | StoreTime _ _ => true
  | _ => false
  end.

(** Effects without impulse, overlap query or hit sound. *)
Definition harmless (fx : list Effect) : Prop :=
  impulses fx = [] /\ overlap_queries fx = [] /\ plays "hit" fx = 0%nat.

(** What one frame does to a remaining display time: it grows by the frame
    time, and the entry is dropped once it exceeds the display duration. *)
Definition aged (delta_time duration : Q) (t : Q) : option Q :=
  if Num.ltb duration (t + delta_time) then None else Some (t + delta_time).


(** The level-3 scene at the point where [NScene3.update] reaches its three
    exits: time advanced, particles moved, sounds switched, displays aged. *)
Definition at_exits (i : NGame3.SceneInput) (delta_time : Q) (s : NGame3.NScene3)
    : NGame3.NScene3 :=
  NGame3.age_winners delta_time
    (NGame3.sound_step i
       (NGame3.with_particles
          (NGame3.update_particles delta_time (NGame3.blood_particles s))
          (NGame3.with_clock (NGame3.elapsed_time s + delta_time)
                             (NGame3.clock_playing s) (NGame3.music_playing s) s))).1.

(** Two level-3 scenes that differ at most in the two sound flags. *)
Definition same_but_sounds (s s' : NGame3.NScene3) : Prop :=
  NGame3.platforms s' = NGame3.platforms s
  /\ NGame3.bombs s' = NGame3.bombs s
  /\ NGame3.winners s' = NGame3.winners s
  /\ NGame3.winner_times s' = NGame3.winner_times s
  /\ NGame3.winner_display_duration s' = NGame3.winner_display_duration s
  /\ NGame3.time_limit s' = NGame3.time_limit s
  /\ NGame3.elapsed_time s' = NGame3.elapsed_time s
  /\ NGame3.player_completion_times s' = NGame3.player_completion_times s
  /\ NGame3.blood_particles s' = NGame3.blood_particles s.

(** Who ranks before whom on the leaderboard: [b] did not finish, or both
    finished and [a] was at least as fast. *)
Definition ranks_before (a b : Leaderboard.Result) : Prop :=
  Leaderboard.total_time b < 0
  \/ (0 <= Leaderboard.total_time a
      /\ Leaderboard.total_time a <= Leaderboard.total_time b).

(** Every recorded completion time belongs to a listed winner. *)
Definition completions_listed (s : NGame3.NScene3) : Prop :=
  forall q, q ∈ dom (NGame3.player_completion_times s) -> q ∈ NGame3.winners s.

(** ** Several frames in a row *)



Definition total (deltas : list Q) : Q := foldr Qplus 0 deltas.

(** ** Histories of the level-3 scene

    What happens to the scene and the results store while level 3 runs: the
    scene's own update, a character reporting a win, a bomb spawning
    particles. *)

Inductive scene3_step (characters : list NCharacter)
    : NGame3.NScene3 * Game -> NGame3.NScene3 * Game -> Prop :=
| scene3_update i delta_time s g :
    scene3_step characters (s, g)
      (NGame3.scene_update characters i delta_time s g).1
| scene3_winner player s g :
    scene3_step characters (s, g) (NGame3.add_winner player s g).1
| scene3_blood draws pos s g :
    scene3_step characters (s, g) (NGame3.spawn_blood_particles draws pos s, g).

Inductive scene3_history (characters : list NCharacter) (x : NGame3.NScene3 * Game)
    : NGame3.NScene3 * Game -> Prop :=
| scene3_start : scene3_history characters x x
| scene3_then y z :
    scene3_history characters x y -> scene3_step characters y z ->
    scene3_history characters x z.

(** ** Drawing in n_game3.py *)

Module NGame3Draw.

(** Python's [int(x)] on a float: truncation towards zero. *)
Definition int (x : Q) : Z := if Num.ltb x 0 then Qceiling x else Qfloor x.

(** [remaining_time] of [NScene3.draw_scene] *)
Definition remaining_time (s : NGame3.NScene3) : Q :=
  Num.max 0.0 (NGame3.time_limit s - NGame3.elapsed_time s).

(** [int(remaining_time // 60)] *)
Definition minutes (s : NGame3.NScene3) : Z :=
  int (inject_Z (Qfloor (remaining_time s / 60))).

(** [int(remaining_time % 60)] *)
Definition seconds (s : NGame3.NScene3) : Z :=
  int (remaining_time s - 60 * inject_Z (Qfloor (remaining_time s / 60))).

(** [f"Time: {minutes}:{seconds:02d}"] *)
Definition timer_text (s : NGame3.NScene3) : string :=
  "Time: " ++ Leaderboard.digits (minutes s) ++ ":"
           ++ Leaderboard.zero_pad 2 (Leaderboard.digits (seconds s)).

(** [timer_color] is red rather than white. *)
Definition timer_red (s : NGame3.NScene3) : bool :=
  Num.ltb (remaining_time s) 20.0.


End NGame3Draw.

(** ** title_screen.py *)

Module TitleScreen.

Record State := mkState { music_playing : bool }.

(** The scene after [TitleScreen.init]. *)
Definition init : State * list Effect := (mkState true, [PlaySound "title"]).

(** [TitleScreen.update] *)
Definition update (sound_playing key_enter pad_start : bool) (s : State)
    : State * list Effect :=
  let fx1 := if music_playing s && negb sound_playing
             then [PlaySound "title"] else [] in
  if key_enter || pad_start then
    let '(s, fx2) :=
      if music_playing s then (mkState false, [StopSound "title"]) else (s, []) in
    (s, fx1 ++ fx2 ++ [GoToSceneNext])
  else (s, fx1).

Fixpoint run (frames : list (bool * bool * bool)) (s : State) : State * list Effect :=
  match frames with
  | [] => (s, [])
  | (sound_playing, key_enter, pad_start) :: rest =>
      let '(s, fx) := update sound_playing key_enter pad_start s in
      let '(s, fx') := run rest s in
      (s, fx ++ fx')
  end.

End TitleScreen.

(** ** leaderboard_screen.py: leaving the screen *)

Module LeaderboardScreen.

Inductive Call :=
| Raylib (e : Effect)
| GoToScene (index : nat).

(** The three [if hasattr(...): delattr(...)] *)
Definition clear_times (g : Game) : Game :=
  mkGame (match player_times_level1 g with Some _ => None | None => None end)
         (match player_times_level2 g with Some _ => None | None => None end)
         (match player_times_level3 g with Some _ => None | None => None end).

(** [LeaderboardScreen.update] *)
Definition update (sound_playing key_enter pad_start : bool)
    (music_playing : bool) (g : Game) : bool * Game * list Call :=
  let fx1 := if music_playing && negb sound_playing
             then [Raylib (PlaySound "end")] else [] in
  if key_enter || pad_start then
    let '(music, fx2) :=
      if music_playing then (false, [Raylib (StopSound "end")])
      else (music_playing, []) in
    (music, clear_times g, fx1 ++ fx2 ++ [GoToScene 0])
  else (music_playing, g, fx1).

End LeaderboardScreen.

(** ** Reading contacts *)

(** Whether one of the two bodies of the contact belongs to a character of
    the list. *)
Definition involves (characters : list NCharacter) (contact : b2Contact) : bool :=
  existsb (fun ch => bool_decide (fixtureA_body contact = body (cbody ch))
                     || bool_decide (fixtureB_body contact = body (cbody ch)))
          characters.

(** The same contact reported with its two bodies exchanged: the normal,
    which points from the first body to the second, is reversed. *)
Definition reversed (contact : b2Contact) : b2Contact :=
  mkContact (fixtureB_body contact) (fixtureA_body contact)
            (v2 (- vx (normal contact)) (- vy (normal contact)))
            (contact_enabled contact).

(** * Sample data *)

Definition fox_params : CharacterParams := mkParams (v2 100 300) 16 24.

(** Player 1, body handle 7, standing at its spawn point. *)
Definition fox : NCharacter := new_character fox_params 1%nat 7%nat.

(** The same character during a fall-through window. *)
Definition falling_fox : NCharacter := with_fall_through true 0.2 fox.

Definition ledge : StaticBox := mkStaticBox 9%nat.

(** The fox (body A) resting on the ledge (body B). *)
Definition landing : b2Contact := mkContact 7%nat 9%nat (v2 0 1) true.

Definition level : Vec2 := v2 640 480.

Definition no_draws (k : nat) : NGame3.Draw := NGame3.mkDraw (v2 0 0) 0.5 4.

(** Nothing pressed, sticks centred, nothing touched. *)
Definition idle : Input :=
  mkInput false false false false 0 false false false false 0
          false false false false [] [] [].

(** The S key has just been pressed. *)
Definition press_down : Input :=
  mkInput false false false false 0 false false false false 0
          true false false false [] [] [].

Definition empty_game : Game := mkGame None None None.

Definition fresh_scene3 : NGame3.NScene3 := NGame3.new_scene [ledge] [].

Definition goal_body : b2Body := mkB2 20%nat (Some ["goal"; "door"]).

(** Nothing pressed, the character overlaps the goal. *)
Definition touch_goal : Input :=
  mkInput false false false false 0 false false false false 0
          false false false false [] [goal_body] [goal_body].

(** The fox after the frame in which it reached the goal. *)
Definition fox_at_goal : NCharacter :=
  (NGame.update level touch_goal (1 # 60) fox NGame.new_scene).1.1.

(** Two crates resting on each other; neither is a character. *)
Definition crates : b2Contact := mkContact 30%nat 31%nat (v2 0 1) true.


(** The fox on the left edge of the level and below its bottom. *)
Definition corner_fox : NCharacter :=
  with_body (mkBody 7%nat (v2 0 1000) (v2 (-40) 30) true) fox.

(** The fox running out of the level through its left edge. *)
Definition leaving_fox : NCharacter :=
  with_body (mkBody 7%nat (v2 (-2) 200) (v2 (-40) 0) true) fox.

(** Level 3 with three players, 119.99 seconds in: player 1 finished after
    65.2 seconds, players 2 and 3 are still running. *)
Definition three_foxes : list NCharacter :=
  [new_character fox_params 1%nat 7%nat;
   new_character fox_params 2%nat 8%nat;
   new_character fox_params 3%nat 9%nat].

Definition late_scene3 : NGame3.NScene3 :=
  NGame3.mkScene [ledge] [] [1%nat] ∅ 3.0 120.0 119.99 {[1%nat := 65.2]}
                 true false [].

Definition late_game : Game := mkGame None None (Some {[1%nat := 65.2]}).

Definition quiet : NGame3.SceneInput := NGame3.mkSceneInput true false false false.

(** A results store after three levels: player 1 needed 65.2 seconds in
    total, player 3 needed 40.0, player 2 never finished level 2 and ran out
    of time in level 3. *)
Definition final_game : Game :=
  mkGame (Some (<[1%nat := 20.0]> (<[2%nat := 31.5]> (<[3%nat := 12.5]> ∅))))
         (Some (<[1%nat := 25.2]> (<[3%nat := 14.0]> ∅)))
         (Some (<[1%nat := 20.0]> (<[2%nat := -1.0]> (<[3%nat := 13.5]> ∅)))).

Definition board_p1 : Leaderboard.Result :=
  Leaderboard.mkResult 1 65.2 (Leaderboard.format_time 65.2) "-" "-" "-".
Definition board_p2 : Leaderboard.Result :=
  Leaderboard.mkResult 2 (-1) "DNF" "-" "-" "-".
Definition board_p3 : Leaderboard.Result :=
  Leaderboard.mkResult 3 40.0 (Leaderboard.format_time 40.0) "-" "-" "-".

(** Player 3, in the air at its spawn point. *)
Definition squirrel : NCharacter := new_character fox_params 3%nat 9%nat.

(** The attack button has just been pressed; the query finds the attacker's
    own body and two others. *)
Definition strike : Input :=
  mkInput false false false false 0 false false false false 0
          false false true false [7%nat; 8%nat; 12%nat] [] [].


(** * Properties *)

(** ** Runs of the model *)

Example goal_frame :
  let r := NGame.update level touch_goal (1 # 60) fox NGame.new_scene in
  has_won r.1.1 = true /\ is_active r.1.1 = false
  /\ cbody r.1.1 = mkBody 7%nat (v2 (-1000.0) (-1000.0)) (v2 0.0 0.0) false
  /\ NGame.winners r.1.2 = [1%nat]
  /\ NGame.winner_times r.1.2 !! 1%nat = Some 0.0.
Proof. vm_compute. repeat split. Qed.

Example fall_through_frames :
  let c1 := (NGame.update level press_down (1 # 10) fox NGame.new_scene).1.1 in
  let c2 := (NGame.update level idle (1 # 10) c1 NGame.new_scene).1.1 in
  fall_through c1 = true /\ fall_through_timer c1 == 0.1
  /\ fall_through c2 = false /\ fall_through_timer c2 == 0.
Proof. vm_compute. repeat split. Qed.

Example attack_frame :
  let hit := mkInput false false false false 0 false false false false 0
                     false false true false [7%nat; 8%nat] [] [] in
  (NGame.update level hit (1 # 60) fox NGame.new_scene).2
  = [CircleOverlap (v2 (100 + (16 / 2.0 + 8.0) * 1.0) 300) 8.0;
     ApplyLinearImpulse 8%nat (v2 10.0 (-10.0)); PlaySound "hit"]
  /\ (NGame3.update level no_draws hit (1 # 60) fox fresh_scene3 empty_game).2
     = [SetVolume "jump" 0.4; PlaySound "hit"; SetVolume "hit" 2.0;
        CircleOverlap (v2 (100 + (16 / 2.0 + 8.0) * 1.0) 300) 8.0;
        ApplyLinearImpulse 8%nat (v2 10.0 (-10.0))].
Proof. vm_compute. split; reflexivity. Qed.

Example pre_solve_runs :
  pre_solve fox 7%nat 9%nat landing [ledge] = true
  /\ pre_solve falling_fox 7%nat 9%nat landing [ledge] = false
  /\ pre_solve falling_fox 7%nat 9%nat landing [] = true
  /\ pre_solve fox 9%nat 7%nat landing [ledge] = false
  /\ pre_solve fox 9%nat 7%nat (mkContact 9%nat 7%nat (v2 0 (-1)) true) [ledge] = true.
Proof. vm_compute. repeat split. Qed.

Example format_time_runs :
  Leaderboard.format_time 0 = "0:00.00"
  /\ Leaderboard.format_time 9.5 = "0:09.50"
  /\ Leaderboard.format_time 59.999 = "0:60.00"
  /\ Leaderboard.format_time 600 = "10:00.00"
  /\ Leaderboard.format_time (-0.5) = "DNF".
Proof. vm_compute. repeat split. Qed.

Example final_board :
  Leaderboard.init final_game
  = [Leaderboard.mkResult 3 (12.5 + 14.0 + 13.5) "0:40.00" "0:12.50" "0:14.00" "0:13.50";
     Leaderboard.mkResult 1 (20.0 + 25.2 + 20.0) "1:05.20" "0:20.00" "0:25.20" "0:20.00";
     Leaderboard.mkResult 2 (-1.0) "DNF" "0:31.50" "DNF" "DNF"].
Proof. vm_compute. reflexivity. Qed.

(** ** Comparisons *)

Module NumFacts.
Import Num.

Lemma ltb_lt x y : ltb x y = true <-> x < y.
Proof. unfold ltb. rewrite Qlt_alt. destruct (x ?= y); split; congruence. Qed.

Lemma ltb_ge x y : ltb x y = false <-> y <= x.
Proof.
  split.
  - intros H. destruct (Qlt_le_dec x y) as [L|L]; [|exact L].
    apply ltb_lt in L. congruence.
  - intros H. destruct (ltb x y) eqn:E; [|reflexivity].
    apply ltb_lt in E. lra.
Qed.

Lemma leb_le x y : leb x y = true <-> x <= y.
Proof. unfold leb. rewrite Qle_alt. destruct (x ?= y); split; congruence. Qed.

Lemma leb_gt x y : leb x y = false <-> y < x.
Proof. unfold leb. rewrite Qgt_alt. destruct (x ?= y); split; congruence. Qed.

Lemma eqb_eq x y : eqb x y = true <-> x == y.
Proof. unfold eqb. rewrite Qeq_alt. destruct (x ?= y); split; congruence. Qed.

Lemma eqb_neq x y : eqb x y = false <-> ~ x == y.
Proof. rewrite <- eqb_eq. destruct (eqb x y); split; congruence. Qed.

Lemma max_nonneg a b : 0 <= a -> 0 <= max a b.
Proof.
  intros Ha. unfold max. destruct (ltb a b) eqn:E; [|exact Ha].
  apply ltb_lt in E. lra.
Qed.

Lemma max_zero_eq b : max 0.0 b == 0.0 <-> b <= 0.
Proof.
  unfold max. destruct (ltb 0.0 b) eqn:E.
  - apply ltb_lt in E. split; lra.
  - apply ltb_ge in E. split; [intros _; lra | reflexivity].
Qed.

Lemma max_zero_pos b : 0 < max 0.0 b <-> 0 < b.
Proof.
  unfold max. destruct (ltb 0.0 b) eqn:E.
  - reflexivity.
  - apply ltb_ge in E. split; lra.
Qed.

End NumFacts.

(** ** The contact rule *)

Lemma scan_platforms_false other platforms :
  scan_platforms (Some other) platforms = false
  <-> exists platform, platform ∈ platforms /\ box_body platform = other.
Proof.
  induction platforms as [|pf rest IH]; simpl.
  - split; [discriminate|]. intros (pf & Hin & _). inversion Hin.
  - case_bool_decide as E.
    + split; [|reflexivity]. intros _. exists pf. split; [left|congruence].
    + rewrite IH. split.
      * intros (pf' & Hin & Hb). exists pf'. split; [now right|exact Hb].
      * intros (pf' & Hin & Hb). apply elem_of_cons in Hin as [->|Hin].
        -- congruence.
        -- now exists pf'.
Qed.

Lemma scan_platforms_none platforms : scan_platforms None platforms = true.
Proof. induction platforms as [|pf rest IH]; simpl; [reflexivity|exact IH]. Qed.

(** C1: for a contact pair in which exactly one body is the character's
    body, with sign +1 when the character is body A and -1 when it is body B,
    [pre_solve] returns [false] (contact disabled) if and only if
    sign * normal.y < 0.5, or the character's fall-through flag is set and the
    other body is the body of a platform of the list; in every other such
    case it returns [true]. *)
Theorem pre_solve_disabled_iff (self : NCharacter) (body_a body_b : BodyHandle)
    (contact : b2Contact) (platforms : list StaticBox) :
  let me := body (cbody self) in
  let sign : Q := if bool_decide (body_a = me) then 1 else -1 in
  let other := if bool_decide (body_a = me) then body_b else body_a in
  let rule :=
    sign * vy (normal contact) < 0.5
    \/ (fall_through self = true
        /\ exists platform, platform ∈ platforms /\ box_body platform = other) in
  (body_a = me /\ body_b <> me) \/ (body_a <> me /\ body_b = me) ->
  (pre_solve self body_a body_b contact platforms = false <-> rule)
  /\ (pre_solve self body_a body_b contact platforms = true <-> ~ rule).
Proof.
  intros me sign other rule Hone.
  assert (Hiff : pre_solve self body_a body_b contact platforms = false <-> rule).
  { unfold rule, sign, other, pre_solve. fold me.
    destruct Hone as [[Ha Hb]|[Ha Hb]].
    - rewrite !(bool_decide_eq_true_2 _ Ha).
      destruct (Num.ltb _ _) eqn:E.
      + apply NumFacts.ltb_lt in E. split; [intros _; left; lra|reflexivity].
      + apply NumFacts.ltb_ge in E. destruct (fall_through self).
        * rewrite scan_platforms_false. split; [intros H; right; now split|].
          intros [H|[_ H]]; [lra|exact H].
        * split; [discriminate|]. intros [H|[H _]]; [lra|discriminate].
    - rewrite !(bool_decide_eq_false_2 _ Ha), (bool_decide_eq_true_2 _ Hb).
      destruct (Num.ltb _ _) eqn:E.
      + apply NumFacts.ltb_lt in E. split; [intros _; left; lra|reflexivity].
      + apply NumFacts.ltb_ge in E. destruct (fall_through self).
        * rewrite scan_platforms_false. split; [intros H; right; now split|].
          intros [H|[_ H]]; [lra|exact H].
        * split; [discriminate|]. intros [H|[H _]]; [lra|discriminate]. }
  split; [exact Hiff|].
  rewrite <- Hiff. destruct (pre_solve _ _ _ _ _); split; congruence.
Qed.

Lemma pre_solve_disabled_iff_witness :
  ((7%nat = body (cbody falling_fox) /\ 9%nat <> body (cbody falling_fox))
   \/ (7%nat <> body (cbody falling_fox) /\ 9%nat = body (cbody falling_fox)))
  /\ pre_solve falling_fox 7%nat 9%nat landing [ledge] = false
  /\ pre_solve fox 7%nat 9%nat landing [ledge] = true.
Proof.
  assert (H : (7%nat = body (cbody falling_fox) /\ 9%nat <> body (cbody falling_fox))
              \/ (7%nat <> body (cbody falling_fox) /\ 9%nat = body (cbody falling_fox))).
  { left. split; [reflexivity|discriminate]. }
  split; [exact H|]. split.
  - apply (proj1 (pre_solve_disabled_iff falling_fox 7%nat 9%nat landing [ledge] H)).
    right. split; [reflexivity|]. exists ledge. split; [left|reflexivity].
  - apply (proj2 (pre_solve_disabled_iff fox 7%nat 9%nat landing [ledge] H)).
    intros [Hlt|[Hft _]]; [|discriminate].
    vm_compute in Hlt. discriminate.
Defined.

(** ** What each phase of [update] leaves alone *)

Section Phases.

Variables (level_size : Vec2) (draws : nat -> NGame3.Draw).
Variables (i : Input) (delta_time : Q).

Lemma steer_keeps c :
  fall_window (steer i c).1 = fall_window c
  /\ attack_window (steer i c).1 = attack_window c
  /\ has_won (steer i c).1 = has_won c
  /\ cbody (steer i c).1 = cbody c
  /\ p (steer i c).1 = p c
  /\ player_number (steer i c).1 = player_number c.
Proof. unfold steer. simpl. repeat split. Qed.

Lemma tick_fall_through_keeps c :
  attack_window (tick_fall_through delta_time c) = attack_window c
  /\ has_won (tick_fall_through delta_time c) = has_won c
  /\ cbody (tick_fall_through delta_time c) = cbody c
  /\ p (tick_fall_through delta_time c) = p c
  /\ player_number (tick_fall_through delta_time c) = player_number c
  /\ fall_through_duration (tick_fall_through delta_time c) = fall_through_duration c.
Proof.
  unfold tick_fall_through.
  destruct (Num.ltb _ _); [destruct (Num.eqb _ _)|]; repeat split.
Qed.

Lemma fall_through_step_keeps c :
  attack_window (fall_through_step i delta_time c) = attack_window c
  /\ has_won (fall_through_step i delta_time c) = has_won c
  /\ cbody (fall_through_step i delta_time c) = cbody c
  /\ p (fall_through_step i delta_time c) = p c
  /\ player_number (fall_through_step i delta_time c) = player_number c
  /\ fall_through_duration (fall_through_step i delta_time c) = fall_through_duration c.
Proof.
  unfold fall_through_step.
  destruct (tick_fall_through_keeps (if down_event i then start_fall_through c else c))
    as (-> & -> & -> & -> & -> & ->).
  destruct (down_event i); repeat split.
Qed.

(** The fall-through window after the step is a function of the window
    before it. *)
Lemma fall_through_step_window c1 c2 :
  fall_window c1 = fall_window c2 ->
  fall_window (fall_through_step i delta_time c1)
  = fall_window (fall_through_step i delta_time c2).
Proof.
  unfold fall_window. intros [= Hf Ht Hd].
  unfold fall_through_step, tick_fall_through, start_fall_through.
  destruct (down_event i); simpl; rewrite ?Hf, ?Ht, ?Hd;
    destruct (Num.ltb _ _); simpl; rewrite ?Hf, ?Ht, ?Hd;
    try destruct (Num.eqb _ _); simpl; rewrite ?Hf, ?Ht, ?Hd; reflexivity.
Qed.

Lemma tick_attack_keeps c :
  fall_window (tick_attack delta_time c) = fall_window c
  /\ has_won (tick_attack delta_time c) = has_won c
  /\ cbody (tick_attack delta_time c) = cbody c
  /\ p (tick_attack delta_time c) = p c
  /\ player_number (tick_attack delta_time c) = player_number c
  /\ attack_display_duration (tick_attack delta_time c) = attack_display_duration c.
Proof.
  unfold tick_attack.
  destruct (Num.ltb _ _); [destruct (Num.eqb _ _)|]; repeat split.
Qed.

Lemma attack_step_char c : (NGame.attack_step i delta_time c).1 = attack_opened i delta_time c.
Proof. unfold NGame.attack_step, attack_opened. destruct (attack_event i); reflexivity. Qed.

Lemma attack_step3_char c : (NGame3.attack_step i delta_time c).1 = attack_opened i delta_time c.
Proof. unfold NGame3.attack_step, attack_opened. destruct (attack_event i); reflexivity. Qed.

Lemma attack_opened_keeps c :
  fall_window (attack_opened i delta_time c) = fall_window c
  /\ has_won (attack_opened i delta_time c) = has_won c
  /\ cbody (attack_opened i delta_time c) = cbody c
  /\ p (attack_opened i delta_time c) = p c
  /\ player_number (attack_opened i delta_time c) = player_number c
  /\ attack_display_duration (attack_opened i delta_time c) = attack_display_duration c.
Proof.
  unfold attack_opened.
  destruct (tick_attack_keeps
              (if attack_event i then with_attack true (attack_display_duration c) c else c))
    as (-> & -> & -> & -> & -> & ->).
  destruct (attack_event i); repeat split.
Qed.

Lemma attack_opened_window c1 c2 :
  attack_window c1 = attack_window c2 ->
  attack_window (attack_opened i delta_time c1) = attack_window (attack_opened i delta_time c2).
Proof.
  unfold attack_window. intros [= Hf Ht Hd].
  unfold attack_opened, tick_attack.
  destruct (attack_event i); simpl; rewrite ?Hf, ?Ht, ?Hd;
    destruct (Num.ltb _ _); simpl; rewrite ?Hf, ?Ht, ?Hd;
    try destruct (Num.eqb _ _); simpl; rewrite ?Hf, ?Ht, ?Hd; reflexivity.
Qed.

(** The goal loop applies [win] when, and only when, a contact carries the
    goal tag. *)
Lemma scan_goal_spec bodies c s :
  NGame.scan_goal bodies c s
  = if existsb (tagged "goal") bodies then NGame.win c s else (c, s).
Proof.
  induction bodies as [|b rest IH]; simpl; [reflexivity|].
  destruct (tagged "goal" b); [reflexivity|exact IH].
Qed.

Lemma scan_goal3_spec bodies c s g :
  NGame3.scan_goal bodies c s g
  = if existsb (tagged "goal") bodies then NGame3.win c s g else (c, s, g, []).
Proof.
  induction bodies as [|b rest IH]; simpl; [reflexivity|].
  destruct (tagged "goal" b); [reflexivity|exact IH].
Qed.

Lemma scan_bomb_spec bodies c s :
  NGame3.scan_bomb draws bodies c s
  = if existsb (tagged "bomb") bodies then NGame3.explode draws c s else (c, s, []).
Proof.
  induction bodies as [|b rest IH]; simpl; [reflexivity|].
  destruct (tagged "bomb" b); [reflexivity|exact IH].
Qed.

Lemma goal_step_char c s :
  (NGame.goal_step i c s).1
  = if wins_now i c then vanish (with_won true false c) else c.
Proof.
  unfold NGame.goal_step, wins_now. destruct (has_won c); simpl; [reflexivity|].
  rewrite scan_goal_spec. destruct (existsb _ _); reflexivity.
Qed.

Lemma goal_step_scene c s :
  (NGame.goal_step i c s).2
  = if wins_now i c then NGame.add_winner (player_number c) s else s.
Proof.
  unfold NGame.goal_step, wins_now. destruct (has_won c); simpl; [reflexivity|].
  rewrite scan_goal_spec. destruct (existsb _ _); reflexivity.
Qed.

Lemma goal_step3_char c s g :
  (NGame3.goal_step i c s g).1.1.1
  = if wins_now i c then vanish (with_won true false c) else c.
Proof.
  unfold NGame3.goal_step, wins_now. destruct (has_won c); simpl; [reflexivity|].
  rewrite scan_goal3_spec. destruct (existsb _ _); [|reflexivity].
  unfold NGame3.win. simpl.
  destruct (NGame3.add_winner (player_number c) s g) as [[s' g'] fx]. reflexivity.
Qed.

Lemma scan_bomb_char c s :
  (NGame3.scan_bomb draws (contacts_again i) c s).1.1
  = if bombed i then to_spawn c else c.
Proof. rewrite scan_bomb_spec. unfold bombed. destruct (existsb _ _); reflexivity. Qed.

(** [update], seen from the character alone. *)
Lemma update_char c s :
  (NGame.update level_size i delta_time c s).1.1
  = (NGame.respawn_step level_size
       (NGame.goal_step i (attack_opened i delta_time (fall_through_step i delta_time (steer i c).1)) s).1).1.
Proof.
  unfold NGame.update. destruct (steer i c) as [c1 fx1]. simpl.
  rewrite <- attack_step_char.
  destruct (NGame.attack_step _ _ _) as [c2 fx2]. simpl.
  destruct (NGame.goal_step _ _ _) as [c3 s3]. simpl.
  destruct (NGame.respawn_step _ _) as [c4 fx4]. reflexivity.
Qed.

Lemma update_scene c s :
  (NGame.update level_size i delta_time c s).1.2
  = (NGame.goal_step i (attack_opened i delta_time (fall_through_step i delta_time (steer i c).1)) s).2.
Proof.
  unfold NGame.update. destruct (steer i c) as [c1 fx1]. simpl.
  rewrite <- attack_step_char.
  destruct (NGame.attack_step _ _ _) as [c2 fx2]. simpl.
  destruct (NGame.goal_step _ _ _) as [c3 s3]. simpl.
  destruct (NGame.respawn_step _ _) as [c4 fx4]. reflexivity.
Qed.

Lemma update3_char c s g :
  (NGame3.update level_size draws i delta_time c s g).1.1.1
  = (NGame3.wrap_and_respawn level_size
       ((if bombed i then to_spawn else id)
          (NGame3.goal_step i
             (attack_opened i delta_time (fall_through_step i delta_time (steer i c).1))
             s g).1.1.1)).1.
Proof.
  unfold NGame3.update. destruct (steer i c) as [c1 fx1]. simpl.
  rewrite <- attack_step3_char.
  destruct (NGame3.attack_step _ _ _) as [c2 fx2]. simpl.
  destruct (NGame3.goal_step _ _ _ _) as [[[c3 s3] g3] fx3]. simpl.
  pose proof (scan_bomb_char c3 s3) as Hb.
  destruct (NGame3.scan_bomb _ _ _ _) as [[c4 s4] fx4]. simpl in *. subst c4.
  destruct (bombed i); destruct (NGame3.wrap_and_respawn _ _) as [c5 fx5]; reflexivity.
Qed.

End Phases.

(** ** The two timed windows through a whole update *)

Section Windows.

Variables (level_size : Vec2) (draws : nat -> NGame3.Draw).
Variables (i : Input) (delta_time : Q).

Lemma vanish_windows c :
  fall_window (vanish (with_won true false c)) = fall_window c
  /\ attack_window (vanish (with_won true false c)) = attack_window c.
Proof. split; reflexivity. Qed.

Lemma respawn_step_keeps c :
  fall_window (NGame.respawn_step level_size c).1 = fall_window c
  /\ attack_window (NGame.respawn_step level_size c).1 = attack_window c
  /\ has_won (NGame.respawn_step level_size c).1 = has_won c
  /\ p (NGame.respawn_step level_size c).1 = p c.
Proof. unfold NGame.respawn_step. destruct (Num.ltb _ _); repeat split. Qed.

Lemma wrap_and_respawn_keeps c :
  fall_window (NGame3.wrap_and_respawn level_size c).1 = fall_window c
  /\ attack_window (NGame3.wrap_and_respawn level_size c).1 = attack_window c
  /\ has_won (NGame3.wrap_and_respawn level_size c).1 = has_won c
  /\ p (NGame3.wrap_and_respawn level_size c).1 = p c.
Proof.
  unfold NGame3.wrap_and_respawn.
  destruct (Num.leb _ _); [|destruct (Num.leb _ _)];
    destruct (Num.ltb _ _); repeat split.
Qed.

Lemma goal_step_windows c s :
  fall_window (NGame.goal_step i c s).1 = fall_window c
  /\ attack_window (NGame.goal_step i c s).1 = attack_window c.
Proof. rewrite goal_step_char. destruct (wins_now i c); split; reflexivity. Qed.

Lemma goal_step3_windows c s g :
  fall_window (NGame3.goal_step i c s g).1.1.1 = fall_window c
  /\ attack_window (NGame3.goal_step i c s g).1.1.1 = attack_window c.
Proof. rewrite goal_step3_char. destruct (wins_now i c); split; reflexivity. Qed.

Lemma update_fall_window c s :
  fall_window (NGame.update level_size i delta_time c s).1.1
  = fall_window (fall_through_step i delta_time c).
Proof.
  rewrite update_char.
  destruct (respawn_step_keeps
    (NGame.goal_step i
       (attack_opened i delta_time (fall_through_step i delta_time (steer i c).1)) s).1)
    as (-> & _).
  destruct (goal_step_windows
    (attack_opened i delta_time (fall_through_step i delta_time (steer i c).1)) s)
    as (-> & _).
  destruct (attack_opened_keeps i delta_time
    (fall_through_step i delta_time (steer i c).1)) as (-> & _).
  apply fall_through_step_window. apply steer_keeps.
Qed.

Lemma update_attack_window c s :
  attack_window (NGame.update level_size i delta_time c s).1.1
  = attack_window (attack_opened i delta_time c).
Proof.
  rewrite update_char.
  destruct (respawn_step_keeps
    (NGame.goal_step i
       (attack_opened i delta_time (fall_through_step i delta_time (steer i c).1)) s).1)
    as (_ & -> & _).
  destruct (goal_step_windows
    (attack_opened i delta_time (fall_through_step i delta_time (steer i c).1)) s)
    as (_ & ->).
  apply attack_opened_window.
  destruct (fall_through_step_keeps i delta_time (steer i c).1) as (-> & _).
  apply steer_keeps.
Qed.

Lemma bomb_choice_windows (b : bool) c :
  fall_window ((if b then to_spawn else id) c) = fall_window c
  /\ attack_window ((if b then to_spawn else id) c) = attack_window c.
Proof. destruct b; split; reflexivity. Qed.

Lemma update3_fall_window c s g :
  fall_window (NGame3.update level_size draws i delta_time c s g).1.1.1
  = fall_window (fall_through_step i delta_time c).
Proof.
  rewrite update3_char.
  match goal with |- fall_window (NGame3.wrap_and_respawn _ ?x).1 = _ =>
    destruct (wrap_and_respawn_keeps x) as (-> & _) end.
  match goal with |- fall_window ((if _ then _ else _) ?x) = _ =>
    destruct (bomb_choice_windows (bombed i) x) as (-> & _) end.
  match goal with |- fall_window (NGame3.goal_step _ ?x _ _).1.1.1 = _ =>
    destruct (goal_step3_windows x s g) as (-> & _) end.
  destruct (attack_opened_keeps i delta_time
    (fall_through_step i delta_time (steer i c).1)) as (-> & _).
  apply fall_through_step_window. apply steer_keeps.
Qed.

Lemma update3_attack_window c s g :
  attack_window (NGame3.update level_size draws i delta_time c s g).1.1.1
  = attack_window (attack_opened i delta_time c).
Proof.
  rewrite update3_char.
  match goal with |- attack_window (NGame3.wrap_and_respawn _ ?x).1 = _ =>
    destruct (wrap_and_respawn_keeps x) as (_ & -> & _) end.
  match goal with |- attack_window ((if _ then _ else _) ?x) = _ =>
    destruct (bomb_choice_windows (bombed i) x) as (_ & ->) end.
  match goal with |- attack_window (NGame3.goal_step _ ?x _ _).1.1.1 = _ =>
    destruct (goal_step3_windows x s g) as (_ & ->) end.
  apply attack_opened_window.
  destruct (fall_through_step_keeps i delta_time (steer i c).1) as (-> & _).
  apply steer_keeps.
Qed.

End Windows.

Lemma num_max_floor b : Num.max 0.0 b == Qmax 0 b.
Proof.
  unfold Num.max. destruct (Num.ltb 0.0 b) eqn:E.
  - apply NumFacts.ltb_lt in E. symmetry. apply Q.max_r. lra.
  - apply NumFacts.ltb_ge in E. symmetry. rewrite Q.max_l; lra.
Qed.

(** C2: in every update (of either level) a down-input event first sets the
    fall-through flag and its remaining time to 0.2 seconds; then, while the
    remaining time is positive, the update lowers it by [delta_time], floored
    at zero, and the flag is cleared exactly when the remaining time has
    reached zero.  Without an event and with no time remaining nothing
    changes. *)
Theorem fall_through_window_steps (level_size : Vec2) (draws : nat -> NGame3.Draw)
    (i : Input) (delta_time : Q) (c : NCharacter)
    (s : NGame.NScene) (s3 : NGame3.NScene3) (g : Game) :
  fall_through_duration c = 0.2 ->
  let opened := if down_event i then start_fall_through c else c in
  let c' := (NGame.update level_size i delta_time c s).1.1 in
  let c3 := (NGame3.update level_size draws i delta_time c s3 g).1.1.1 in
  fall_window c' = fall_window (tick_fall_through delta_time opened)
  /\ fall_window c3 = fall_window c'
  /\ (down_event i = true ->
        fall_through opened = true /\ fall_through_timer opened = 0.2)
  /\ (down_event i = false -> opened = c)
  /\ (0 < fall_through_timer opened ->
        fall_through_timer c' == Qmax 0 (fall_through_timer opened - delta_time)
        /\ (fall_through opened = true ->
              (fall_through c' = false <-> fall_through_timer c' == 0)))
  /\ (fall_through_timer opened <= 0 ->
        fall_through c' = fall_through opened
        /\ fall_through_timer c' = fall_through_timer opened).
Proof.
  intros Hd opened c' c3.
  assert (Hw : fall_window c' = fall_window (tick_fall_through delta_time opened)).
  { unfold c'. rewrite update_fall_window. reflexivity. }
  assert (Hw3 : fall_window c3 = fall_window c').
  { unfold c3, c'. now rewrite update3_fall_window, update_fall_window. }
  split; [exact Hw|]. split; [exact Hw3|].
  unfold fall_window in Hw. injection Hw as Hf Ht _.
  split; [|split; [|split]].
  - intros Hdown. unfold opened. rewrite Hdown. simpl. split; [reflexivity|exact Hd].
  - intros Hdown. unfold opened. now rewrite Hdown.
  - intros Hpos. rewrite Hf, Ht. unfold tick_fall_through.
    replace (Num.ltb 0.0 (fall_through_timer opened)) with true
      by (symmetry; apply NumFacts.ltb_lt; lra).
    destruct (Num.eqb _ _) eqn:E; simpl.
    + split; [apply num_max_floor|]. intros _.
      apply NumFacts.eqb_eq in E. split; [intros _; rewrite E; reflexivity|reflexivity].
    + split; [apply num_max_floor|]. intros ->.
      apply NumFacts.eqb_neq in E. split; [discriminate|].
      intros H. destruct E. rewrite H. reflexivity.
  - intros Hle. rewrite Hf, Ht. unfold tick_fall_through.
    replace (Num.ltb 0.0 (fall_through_timer opened)) with false
      by (symmetry; apply NumFacts.ltb_ge; lra).
    split; reflexivity.
Qed.

Lemma fall_through_window_steps_witness :
  fall_through_duration fox = 0.2
  /\ fall_through_timer (NGame.update level press_down (1 # 60) fox NGame.new_scene).1.1
     == Qmax 0 (0.2 - (1 # 60)).
Proof.
  split; [reflexivity|].
  destruct (fall_through_window_steps level no_draws press_down (1 # 60) fox
              NGame.new_scene fresh_scene3 empty_game eq_refl)
    as (_ & _ & _ & _ & H & _).
  apply H. reflexivity.
Defined.

(** ** The flag / timer pairing *)

Lemma tick_fall_through_paired delta_time c :
  paired (fall_window c) -> paired (fall_window (tick_fall_through delta_time c)).
Proof.
  unfold paired, fall_window, tick_fall_through. simpl. intros Hp.
  destruct (Num.ltb 0.0 (fall_through_timer c)) eqn:Epos; [|exact Hp].
  apply NumFacts.ltb_lt in Epos.
  destruct (Num.eqb _ _) eqn:E; simpl.
  - apply NumFacts.eqb_eq in E. split; [discriminate|]. intros H. lra.
  - apply NumFacts.eqb_neq in E.
    assert (0 <= Num.max 0.0 (fall_through_timer c - delta_time))
      by (apply NumFacts.max_nonneg; lra).
    split; [intros _|intros _; apply Hp; lra].
    destruct (Qlt_le_dec 0 (Num.max 0.0 (fall_through_timer c - delta_time)))
      as [L|L]; [exact L|].
    destruct E. lra.
Qed.

Lemma tick_attack_paired delta_time c :
  paired (attack_window c) -> paired (attack_window (tick_attack delta_time c)).
Proof.
  unfold paired, attack_window, tick_attack. simpl. intros Hp.
  destruct (Num.ltb 0.0 (attack_display_timer c)) eqn:Epos; [|exact Hp].
  apply NumFacts.ltb_lt in Epos.
  destruct (Num.eqb _ _) eqn:E; simpl.
  - apply NumFacts.eqb_eq in E. split; [discriminate|]. intros H. lra.
  - apply NumFacts.eqb_neq in E.
    assert (0 <= Num.max 0.0 (attack_display_timer c - delta_time))
      by (apply NumFacts.max_nonneg; lra).
    split; [intros _|intros _; apply Hp; lra].
    destruct (Qlt_le_dec 0 (Num.max 0.0 (attack_display_timer c - delta_time)))
      as [L|L]; [exact L|].
    destruct E. lra.
Qed.

Lemma new_character_windows_ok params number h :
  windows_ok (new_character params number h).
Proof.
  unfold windows_ok, paired. simpl. repeat split; discriminate.
Qed.

Lemma fall_through_step_ok i delta_time c :
  fall_through_duration c = 0.2 -> paired (fall_window c) ->
  fall_through_duration (fall_through_step i delta_time c) = 0.2
  /\ paired (fall_window (fall_through_step i delta_time c)).
Proof.
  intros Hd Hp. split.
  - destruct (fall_through_step_keeps i delta_time c) as (_ & _ & _ & _ & _ & ->).
    exact Hd.
  - unfold fall_through_step. apply tick_fall_through_paired.
    destruct (down_event i); [|exact Hp].
    unfold paired, start_fall_through. simpl. rewrite Hd.
    split; [intros _; reflexivity|reflexivity].
Qed.

Lemma attack_opened_ok i delta_time c :
  attack_display_duration c = 0.1 -> paired (attack_window c) ->
  attack_display_duration (attack_opened i delta_time c) = 0.1
  /\ paired (attack_window (attack_opened i delta_time c)).
Proof.
  intros Hd Hp. split.
  - destruct (attack_opened_keeps i delta_time c) as (_ & _ & _ & _ & _ & ->).
    exact Hd.
  - unfold attack_opened. apply tick_attack_paired.
    destruct (attack_event i); [|exact Hp].
    unfold paired. simpl. rewrite Hd.
    split; [intros _; reflexivity|reflexivity].
Qed.

Lemma windows_ok_of_windows c c' i delta_time :
  windows_ok c ->
  fall_window c' = fall_window (fall_through_step i delta_time c) ->
  attack_window c' = attack_window (attack_opened i delta_time c) ->
  windows_ok c'.
Proof.
  intros (Hd1 & Hd2 & Hp1 & Hp2) Hf Ha.
  destruct (fall_through_step_ok i delta_time c Hd1 Hp1) as [Hd1' Hp1'].
  destruct (attack_opened_ok i delta_time c Hd2 Hp2) as [Hd2' Hp2'].
  unfold windows_ok. rewrite Hf, Ha.
  unfold fall_window in Hf. injection Hf as _ _ ->.
  unfold attack_window in Ha. injection Ha as _ _ ->.
  repeat split; assumption || apply Hp1' || apply Hp2'.
Qed.

Lemma step_windows_ok c c' : step c c' -> windows_ok c -> windows_ok c'.
Proof.
  intros Hs Hok. destruct Hs.
  - eapply windows_ok_of_windows; [exact Hok| |].
    + apply update_fall_window.
    + apply update_attack_window.
  - eapply windows_ok_of_windows; [exact Hok| |].
    + apply update3_fall_window.
    + apply update3_attack_window.
  - exact Hok.
Qed.

Lemma evolves_windows_ok c c' : evolves c c' -> windows_ok c -> windows_ok c'.
Proof.
  induction 1 as [|c1 c2 _ IH Hs]; intros Hok; [exact Hok|].
  eapply step_windows_ok; [exact Hs|]. now apply IH.
Qed.

Lemma tick_fall_through_clears delta_time c :
  paired (fall_window c) -> fall_through_timer c <= delta_time ->
  fall_through (tick_fall_through delta_time c) = false.
Proof.
  unfold paired, fall_window, tick_fall_through. simpl. intros Hp Hle.
  destruct (Num.ltb 0.0 (fall_through_timer c)) eqn:Epos.
  - replace (Num.eqb _ _) with true; [reflexivity|].
    symmetry. apply NumFacts.eqb_eq. apply NumFacts.max_zero_eq. lra.
  - apply NumFacts.ltb_ge in Epos.
    destruct (fall_through c); [|reflexivity].
    assert (0 < fall_through_timer c) by now apply Hp. lra.
Qed.

Lemma tick_attack_clears delta_time c :
  paired (attack_window c) -> attack_display_timer c <= delta_time ->
  attack (tick_attack delta_time c) = false.
Proof.
  unfold paired, attack_window, tick_attack. simpl. intros Hp Hle.
  destruct (Num.ltb 0.0 (attack_display_timer c)) eqn:Epos.
  - replace (Num.eqb _ _) with true; [reflexivity|].
    symmetry. apply NumFacts.eqb_eq. apply NumFacts.max_zero_eq. lra.
  - apply NumFacts.ltb_ge in Epos.
    destruct (attack c); [|reflexivity].
    assert (0 < attack_display_timer c) by now apply Hp. lra.
Qed.

(** C10: after any sequence of updates (of either level, with whatever happens
    to the body in between) from a newly created character, the fall-through
    flag is set if and only if the fall-through timer is strictly positive,
    and the attack flag is set if and only if the attack display timer is
    strictly positive; in particular an update whose [delta_time] is at least
    the time remaining (0.2 or 0.1 when the window is opened in that same
    update) leaves the flag cleared. *)
Theorem timer_flag_pairing (params : CharacterParams) (number : nat) (h : BodyHandle)
    (c : NCharacter) :
  evolves (new_character params number h) c ->
  (fall_through c = true <-> 0 < fall_through_timer c)
  /\ (attack c = true <-> 0 < attack_display_timer c)
  /\ forall level_size draws i delta_time s s3 g,
       let c' := (NGame.update level_size i delta_time c s).1.1 in
       let c3 := (NGame3.update level_size draws i delta_time c s3 g).1.1.1 in
       ((if down_event i then 0.2 else fall_through_timer c) <= delta_time ->
        fall_through c' = false /\ fall_through c3 = false)
       /\ ((if attack_event i then 0.1 else attack_display_timer c) <= delta_time ->
           attack c' = false /\ attack c3 = false).
Proof.
  intros Hev.
  pose proof (evolves_windows_ok _ _ Hev (new_character_windows_ok params number h))
    as (Hd1 & Hd2 & Hp1 & Hp2).
  split; [exact Hp1|]. split; [exact Hp2|].
  intros level_size draws i delta_time s s3 g c' c3. split.
  - intros Hle.
    assert (Hc : fall_through (fall_through_step i delta_time c) = false).
    { unfold fall_through_step. apply tick_fall_through_clears.
      - destruct (down_event i); [|exact Hp1].
        unfold paired, start_fall_through. simpl. rewrite Hd1.
        split; [intros _; reflexivity|reflexivity].
      - destruct (down_event i); [|exact Hle].
        unfold start_fall_through. simpl. rewrite Hd1. exact Hle. }
    pose proof (update_fall_window level_size i delta_time c s) as H1.
    pose proof (update3_fall_window level_size draws i delta_time c s3 g) as H3.
    unfold fall_window in H1, H3. injection H1 as H1 _ _. injection H3 as H3 _ _.
    unfold c', c3. rewrite H1, H3. split; exact Hc.
  - intros Hle.
    assert (Hc : attack (attack_opened i delta_time c) = false).
    { unfold attack_opened. apply tick_attack_clears.
      - destruct (attack_event i); [|exact Hp2].
        unfold paired. simpl. rewrite Hd2.
        split; [intros _; reflexivity|reflexivity].
      - destruct (attack_event i); [|exact Hle].
        simpl. rewrite Hd2. exact Hle. }
    pose proof (update_attack_window level_size i delta_time c s) as H1.
    pose proof (update3_attack_window level_size draws i delta_time c s3 g) as H3.
    unfold attack_window in H1, H3. injection H1 as H1 _ _. injection H3 as H3 _ _.
    unfold c', c3. rewrite H1, H3. split; exact Hc.
Qed.

Lemma timer_flag_pairing_witness :
  evolves fox
          (NGame.update level press_down (1 # 60) fox NGame.new_scene).1.1
  /\ (fall_through (NGame.update level press_down (1 # 60) fox NGame.new_scene).1.1 = true
      <-> 0 < fall_through_timer
                (NGame.update level press_down (1 # 60) fox NGame.new_scene).1.1).
Proof.
  assert (H : evolves fox
                (NGame.update level press_down (1 # 60) fox NGame.new_scene).1.1).
  { eapply evolves_step; [apply evolves_refl|apply step_update]. }
  split; [exact H|].
  exact (proj1 (timer_flag_pairing fox_params 1%nat 7%nat _ H)).
Defined.

(** ** Winning is for good *)

Lemma update_has_won level_size i delta_time c s :
  has_won (NGame.update level_size i delta_time c s).1.1
  = has_won c || existsb (tagged "goal") (contacts i).
Proof.
  rewrite update_char.
  match goal with |- has_won (NGame.respawn_step _ ?x).1 = _ =>
    destruct (respawn_step_keeps level_size x) as (_ & _ & -> & _) end.
  rewrite goal_step_char. unfold wins_now.
  destruct (attack_opened_keeps i delta_time
              (fall_through_step i delta_time (steer i c).1)) as (_ & Hw & _).
  destruct (fall_through_step_keeps i delta_time (steer i c).1) as (_ & Hw' & _).
  destruct (steer_keeps i c) as (_ & _ & Hw'' & _).
  rewrite Hw' in Hw. rewrite Hw'' in Hw.
  rewrite Hw. destruct (has_won c) eqn:E; simpl; [exact Hw|].
  destruct (existsb _ _); simpl; [reflexivity|exact Hw].
Qed.

Lemma update3_has_won level_size draws i delta_time c s g :
  has_won (NGame3.update level_size draws i delta_time c s g).1.1.1
  = has_won c || existsb (tagged "goal") (contacts i).
Proof.
  rewrite update3_char.
  match goal with |- has_won (NGame3.wrap_and_respawn _ ?x).1 = _ =>
    destruct (wrap_and_respawn_keeps level_size x) as (_ & _ & -> & _) end.
  assert (Hb : forall (b : bool) x, has_won ((if b then to_spawn else id) x) = has_won x)
    by (intros [] x; reflexivity).
  rewrite Hb, goal_step3_char. unfold wins_now.
  destruct (attack_opened_keeps i delta_time
              (fall_through_step i delta_time (steer i c).1)) as (_ & Hw & _).
  destruct (fall_through_step_keeps i delta_time (steer i c).1) as (_ & Hw' & _).
  destruct (steer_keeps i c) as (_ & _ & Hw'' & _).
  rewrite Hw' in Hw. rewrite Hw'' in Hw.
  rewrite Hw. destruct (has_won c) eqn:E; simpl; [exact Hw|].
  destruct (existsb _ _); simpl; [reflexivity|exact Hw].
Qed.

Lemma step_has_won c c' : step c c' -> has_won c = true -> has_won c' = true.
Proof.
  intros Hs Hw. destruct Hs.
  - rewrite update_has_won, Hw. reflexivity.
  - rewrite update3_has_won, Hw. reflexivity.
  - exact Hw.
Qed.

(** C5: [has_won] is monotonic within a scene instance: a newly created
    character has not won, and nothing in a character's history, neither its
    own updates (goal contact, bomb contact, respawn, world-wrap, attack) nor
    what the scene, the physics step or another character's attack do to it,
    takes [has_won] from true back to false. *)
Theorem has_won_monotonic (params : CharacterParams) (number : nat) (h : BodyHandle)
    (c c' : NCharacter) :
  has_won (new_character params number h) = false
  /\ (evolves c c' -> has_won c = true -> has_won c' = true).
Proof.
  split; [reflexivity|].
  induction 1 as [|c1 c2 _ IH Hs]; intros Hw; [exact Hw|].
  eapply step_has_won; [exact Hs|]. now apply IH.
Qed.

Lemma has_won_monotonic_witness :
  evolves fox_at_goal
          (NGame3.update level no_draws idle (1 # 60) fox_at_goal
                         fresh_scene3 empty_game).1.1.1
  /\ has_won fox_at_goal = true
  /\ has_won (NGame3.update level no_draws idle (1 # 60) fox_at_goal
                            fresh_scene3 empty_game).1.1.1 = true.
Proof.
  assert (H : evolves fox_at_goal
                (NGame3.update level no_draws idle (1 # 60) fox_at_goal
                               fresh_scene3 empty_game).1.1.1).
  { eapply evolves_step; [apply evolves_refl|apply step_update3]. }
  split; [exact H|]. split; [reflexivity|].
  exact (proj2 (has_won_monotonic fox_params 1%nat 7%nat _ _) H eq_refl).
Defined.

(** ** Registering a winner *)

Lemma add_winner_elem player s : player ∈ NGame.winners (NGame.add_winner player s).
Proof.
  unfold NGame.add_winner. case_bool_decide as E; [exact E|].
  simpl. apply elem_of_app. right. left.
Qed.

Lemma add_winner_again player s :
  NGame.add_winner player (NGame.add_winner player s) = NGame.add_winner player s.
Proof.
  unfold NGame.add_winner at 1.
  rewrite bool_decide_eq_true_2; [reflexivity|apply add_winner_elem].
Qed.

Lemma add_winner_NoDup player s :
  NoDup (NGame.winners s) -> NoDup (NGame.winners (NGame.add_winner player s)).
Proof.
  intros Hnd. unfold NGame.add_winner. case_bool_decide as E; [exact Hnd|].
  simpl. apply NoDup_app. split; [exact Hnd|]. split.
  - intros x Hx Hin. apply list_elem_of_singleton in Hin. subst x. contradiction.
  - apply NoDup_singleton.
Qed.

(** C4: winner registration is idempotent.  Calling [add_winner] twice with
    the same player number, or running the goal-contact handling of a
    character's update a second time, leaves exactly one entry for that player
    in the winners list and (for a player not listed before) one winner-time
    entry; the second trigger changes neither the winners list nor the winner
    times. *)
Theorem winner_registration_idempotent (s : NGame.NScene) (player : nat) :
  NoDup (NGame.winners s) ->
  let once := NGame.add_winner player s in
  let twice := NGame.add_winner player once in
  twice = once
  /\ count_occ Nat.eq_dec (NGame.winners twice) player = 1%nat
  /\ (player ∉ NGame.winners s ->
      NGame.winners twice = NGame.winners s ++ [player]
      /\ NGame.winner_times twice = <[player := 0.0]> (NGame.winner_times s))
  /\ forall level_size i1 dt1 i2 dt2 c,
       player_number c = player -> has_won c = false ->
       existsb (tagged "goal") (contacts i1) = true ->
       let first := NGame.update level_size i1 dt1 c s in
       let second := NGame.update level_size i2 dt2 first.1.1 first.1.2 in
       first.1.2 = once /\ has_won first.1.1 = true
       /\ second.1.2 = first.1.2 /\ has_won second.1.1 = true.
Proof.
  intros Hnd once twice.
  assert (Hagain : twice = once) by apply add_winner_again.
  split; [exact Hagain|]. split; [|split].
  - rewrite Hagain.
    pose proof (add_winner_NoDup player s Hnd) as Hnd'.
    pose proof (add_winner_elem player s) as Hin.
    apply list_elem_of_In in Hin.
    apply (count_occ_In Nat.eq_dec) in Hin.
    apply NoDup_ListNoDup in Hnd'.
    pose proof (proj1 (NoDup_count_occ Nat.eq_dec _) Hnd' player). unfold once. lia.
  - intros Hfresh. rewrite Hagain. unfold once, NGame.add_winner.
    rewrite bool_decide_eq_false_2 by exact Hfresh. split; reflexivity.
  - intros level_size i1 dt1 i2 dt2 c Hn Hw Hgoal first second.
    assert (Hwon : forall i dt c0,
              has_won (attack_opened i dt (fall_through_step i dt (steer i c0).1))
              = has_won c0
              /\ player_number (attack_opened i dt (fall_through_step i dt (steer i c0).1))
                 = player_number c0).
    { intros i dt c0.
      destruct (attack_opened_keeps i dt (fall_through_step i dt (steer i c0).1))
        as (_ & -> & _ & _ & -> & _).
      destruct (fall_through_step_keeps i dt (steer i c0).1)
        as (_ & -> & _ & _ & -> & _).
      destruct (steer_keeps i c0) as (_ & _ & -> & _ & _ & ->). split; reflexivity. }
    assert (H1 : first.1.2 = once).
    { unfold first. rewrite update_scene, goal_step_scene. unfold wins_now.
      destruct (Hwon i1 dt1 c) as [-> ->]. rewrite Hw, Hgoal, Hn. reflexivity. }
    assert (H2 : has_won first.1.1 = true).
    { unfold first. rewrite update_has_won, Hgoal. apply orb_true_r. }
    split; [exact H1|]. split; [exact H2|]. split.
    + unfold second. rewrite update_scene, goal_step_scene. unfold wins_now.
      destruct (Hwon i2 dt2 first.1.1) as [-> _]. rewrite H2. reflexivity.
    + unfold second. rewrite update_has_won, H2. reflexivity.
Qed.

Lemma winner_registration_idempotent_witness :
  NoDup (NGame.winners NGame.new_scene)
  /\ NGame.add_winner 2%nat (NGame.add_winner 2%nat NGame.new_scene)
     = NGame.add_winner 2%nat NGame.new_scene
  /\ count_occ Nat.eq_dec
       (NGame.winners (NGame.add_winner 2%nat (NGame.add_winner 2%nat NGame.new_scene))) 2%nat
     = 1%nat.
Proof.
  assert (H : NoDup (NGame.winners NGame.new_scene)) by apply NoDup_nil_2.
  split; [exact H|].
  destruct (winner_registration_idempotent NGame.new_scene 2%nat H) as (H1 & H2 & _).
  split; [exact H1|exact H2].
Defined.

(** ** Contacts between bodies that are not characters *)

Lemma PreSolve_foreign characters contact :
  (forall ch, ch ∈ characters ->
     fixtureA_body contact <> body (cbody ch)
     /\ fixtureB_body contact <> body (cbody ch)) ->
  NGame.PreSolve characters contact = contact.
Proof.
  induction characters as [|ch rest IH]; intros H; simpl; [reflexivity|].
  destruct (H ch) as [Ha Hb]; [left|].
  rewrite (bool_decide_eq_false_2 _ Ha), (bool_decide_eq_false_2 _ Hb). simpl.
  apply IH. intros ch' Hin. apply H. now right.
Qed.

Lemma PreSolve3_foreign characters contact :
  (forall ch, ch ∈ characters ->
     fixtureA_body contact <> body (cbody ch)
     /\ fixtureB_body contact <> body (cbody ch)) ->
  NGame3.PreSolve characters contact = contact.
Proof.
  induction characters as [|ch rest IH]; intros H; simpl; [reflexivity|].
  destruct (H ch) as [Ha Hb]; [left|].
  rewrite (bool_decide_eq_false_2 _ Ha), (bool_decide_eq_false_2 _ Hb). simpl.
  apply IH. intros ch' Hin. apply H. now right.
Qed.

(** C3, as stated, fails: on a pair in which neither body is the character's,
    the one-way-platform rule itself answers "disabled". *)
Lemma foreign_pair_rule_counterexample :
  fixtureA_body crates <> body (cbody fox)
  /\ fixtureB_body crates <> body (cbody fox)
  /\ pre_solve fox (fixtureA_body crates) (fixtureB_body crates) crates [ledge] <> true.
Proof. repeat split; discriminate. Qed.

(** C3, amended: for a contact pair in which neither body is the body of a
    character of the scene, the contact listener of either level applies no
    filtering: [PreSolve] returns the contact as it received it, so an enabled
    contact stays enabled.  The listener does not evaluate the one-way-platform
    rule on such a pair; evaluated on its own for such a pair, [pre_solve]
    returns [false]. *)
Theorem foreign_pair_unfiltered (characters : list NCharacter) (contact : b2Contact) :
  (forall ch, ch ∈ characters ->
     fixtureA_body contact <> body (cbody ch)
     /\ fixtureB_body contact <> body (cbody ch)) ->
  NGame.PreSolve characters contact = contact
  /\ NGame3.PreSolve characters contact = contact
  /\ (contact_enabled contact = true ->
      contact_enabled (NGame.PreSolve characters contact) = true
      /\ contact_enabled (NGame3.PreSolve characters contact) = true)
  /\ forall ch platforms, ch ∈ characters ->
       pre_solve ch (fixtureA_body contact) (fixtureB_body contact) contact platforms
       = false.
Proof.
  intros H.
  rewrite (PreSolve_foreign characters contact H),
          (PreSolve3_foreign characters contact H).
  split; [reflexivity|]. split; [reflexivity|]. split; [intros He; now split|].
  intros ch platforms Hin. destruct (H ch Hin) as [Ha Hb].
  unfold pre_solve.
  rewrite (bool_decide_eq_false_2 _ Ha), (bool_decide_eq_false_2 _ Hb).
  replace (Num.ltb _ _) with true; [reflexivity|].
  symmetry. apply NumFacts.ltb_lt. lra.
Qed.

Lemma foreign_pair_unfiltered_witness :
  (forall ch, ch ∈ [fox] ->
     fixtureA_body crates <> body (cbody ch)
     /\ fixtureB_body crates <> body (cbody ch))
  /\ NGame.PreSolve [fox] crates = crates
  /\ contact_enabled (NGame3.PreSolve [fox] crates) = true.
Proof.
  assert (H : forall ch, ch ∈ [fox] ->
                fixtureA_body crates <> body (cbody ch)
                /\ fixtureB_body crates <> body (cbody ch)).
  { intros ch Hin. apply list_elem_of_singleton in Hin. subst ch.
    split; discriminate. }
  split; [exact H|].
  destruct (foreign_pair_unfiltered [fox] crates H) as (H1 & _ & H3 & _).
  split; [exact H1|]. apply H3. reflexivity.
Defined.

(** ** Respawn and world-wrap *)

Section Relocation.

Variables (level_size : Vec2) (draws : nat -> NGame3.Draw).
Variables (i : Input) (delta_time : Q).

(** Up to the goal loop an update touches neither the body, nor the
    parameters, nor [has_won]. *)
Lemma before_goal_keeps c :
  let c1 := attack_opened i delta_time (fall_through_step i delta_time (steer i c).1) in
  cbody c1 = cbody c /\ p c1 = p c /\ has_won c1 = has_won c
  /\ wins_now i c1 = wins_now i c.
Proof.
  intros c1.
  destruct (attack_opened_keeps i delta_time
              (fall_through_step i delta_time (steer i c).1))
    as (_ & Hw & Hb & Hp & _).
  destruct (fall_through_step_keeps i delta_time (steer i c).1)
    as (_ & Hw' & Hb' & Hp' & _).
  destruct (steer_keeps i c) as (_ & _ & Hw'' & Hb'' & Hp'' & _).
  assert (H1 : cbody c1 = cbody c) by (unfold c1; congruence).
  assert (H2 : p c1 = p c) by (unfold c1; congruence).
  assert (H3 : has_won c1 = has_won c) by (unfold c1; congruence).
  repeat split; try assumption. unfold wins_now. now rewrite H3.
Qed.

Lemma update_no_win c s :
  wins_now i c = false ->
  let c1 := attack_opened i delta_time (fall_through_step i delta_time (steer i c).1) in
  (NGame.update level_size i delta_time c s).1.1
  = (NGame.respawn_step level_size c1).1.
Proof.
  intros Hw c1. rewrite update_char, goal_step_char.
  destruct (before_goal_keeps c) as (_ & _ & _ & ->). now rewrite Hw.
Qed.

Lemma update3_no_win_no_bomb c s g :
  wins_now i c = false -> bombed i = false ->
  let c1 := attack_opened i delta_time (fall_through_step i delta_time (steer i c).1) in
  (NGame3.update level_size draws i delta_time c s g).1.1.1
  = (NGame3.wrap_and_respawn level_size c1).1.
Proof.
  intros Hw Hb c1. rewrite update3_char, goal_step3_char, Hb.
  destruct (before_goal_keeps c) as (_ & _ & _ & ->). now rewrite Hw.
Qed.

End Relocation.




(** C7, as stated, fails: on the left edge but more than 200 pixels below the
    level, the wrap is followed, in the same update, by the out-of-bounds
    respawn, which puts the body on its spawn point and stops it. *)
Lemma world_wrap_counterexample :
  vx (position_pixels (cbody corner_fox)) <= 0
  /\ ~ vx (position_pixels
            (cbody (NGame3.update level no_draws idle (1 # 60) corner_fox
                                  fresh_scene3 empty_game).1.1.1))
       == vx level
  /\ ~ vx (velocity_pixels
            (cbody (NGame3.update level no_draws idle (1 # 60) corner_fox
                                  fresh_scene3 empty_game).1.1.1))
       == vx (velocity_pixels (cbody corner_fox)).
Proof. split; [discriminate|]. vm_compute. split; discriminate. Qed.

(** C7, amended: in level 3 (whose width is not negative), for a character
    that the update neither registers as a new winner nor respawns (no bomb
    among its contacts, not more than 200 pixels below the level): with
    x <= 0 the update leaves the body at (levelWidth, y) with the velocity it
    had, and with x >= levelWidth it leaves the body at (0, y) with the
    velocity it had. *)
Theorem world_wrap (level_size : Vec2) (draws : nat -> NGame3.Draw)
    (i : Input) (delta_time : Q) (c : NCharacter) (s3 : NGame3.NScene3) (g : Game) :
  0 <= vx level_size ->
  has_won c = true \/ existsb (tagged "goal") (contacts i) = false ->
  bombed i = false ->
  vy (position_pixels (cbody c)) <= vy level_size + 200 ->
  let c3 := (NGame3.update level_size draws i delta_time c s3 g).1.1.1 in
  (vx (position_pixels (cbody c)) <= 0 ->
     vx (position_pixels (cbody c3)) == vx level_size
     /\ vy (position_pixels (cbody c3)) = vy (position_pixels (cbody c))
     /\ velocity_pixels (cbody c3) = velocity_pixels (cbody c))
  /\ (vx level_size <= vx (position_pixels (cbody c)) ->
     vx (position_pixels (cbody c3)) == 0
     /\ vy (position_pixels (cbody c3)) = vy (position_pixels (cbody c))
     /\ velocity_pixels (cbody c3) = velocity_pixels (cbody c)).
Proof.
  intros Hwidth Hgoal Hbomb Hy c3.
  assert (Hw : wins_now i c = false).
  { unfold wins_now. destruct Hgoal as [-> | ->]; [reflexivity|apply andb_false_r]. }
  destruct (before_goal_keeps i delta_time c) as (Hb & Hp & Hwon & _).
  unfold c3.
  rewrite (update3_no_win_no_bomb level_size draws i delta_time c s3 g Hw Hbomb).
  set (c1 := attack_opened i delta_time _) in *. clearbody c1.
  unfold NGame3.wrap_and_respawn, get_position_pixels, get_velocity_pixels.
  rewrite Hb.
  replace (Num.ltb _ _) with false by (symmetry; apply NumFacts.ltb_ge; lra).
  split.
  - intros Hx.
    replace (Num.leb _ _) with true by (symmetry; apply NumFacts.leb_le; lra).
    simpl. repeat split; reflexivity.
  - intros Hx. destruct (Num.leb (vx (position_pixels (cbody c))) 0.0) eqn:E.
    + apply NumFacts.leb_le in E. simpl. split; [lra|]. split; reflexivity.
    + replace (Num.leb _ _) with true by (symmetry; apply NumFacts.leb_le; lra).
      simpl. repeat split; reflexivity.
Qed.

Lemma world_wrap_witness :
  0 <= vx level
  /\ (has_won leaving_fox = true \/ existsb (tagged "goal") (contacts idle) = false)
  /\ bombed idle = false
  /\ vy (position_pixels (cbody leaving_fox)) <= vy level + 200
  /\ vx (position_pixels (cbody leaving_fox)) <= 0
  /\ vx (position_pixels
          (cbody (NGame3.update level no_draws idle (1 # 60) leaving_fox
                                fresh_scene3 empty_game).1.1.1))
     == vx level.
Proof.
  assert (H1 : 0 <= vx level) by discriminate.
  assert (H2 : has_won leaving_fox = true
               \/ existsb (tagged "goal") (contacts idle) = false)
    by (right; reflexivity).
  assert (H3 : bombed idle = false) by reflexivity.
  assert (H4 : vy (position_pixels (cbody leaving_fox)) <= vy level + 200)
    by discriminate.
  assert (H5 : vx (position_pixels (cbody leaving_fox)) <= 0) by discriminate.
  repeat (split; [assumption|]).
  exact (proj1 (proj1 (world_wrap level no_draws idle (1 # 60) leaving_fox
                         fresh_scene3 empty_game H1 H2 H3 H4) H5)).
Defined.

(** ** The time-out of level 3 *)

Section Timeout.

Import NGame3.

Lemma sound_step_keeps i s :
  elapsed_time (sound_step i s).1 = elapsed_time s
  /\ time_limit (sound_step i s).1 = time_limit s
  /\ player_completion_times (sound_step i s).1 = player_completion_times s
  /\ forallb is_sound (sound_step i s).2 = true.
Proof.
  unfold sound_step.
  destruct (_ && _); destruct (music_playing s); destruct (clock_playing s);
    destruct (clock_sound_playing i); destruct (music_sound_playing i);
    repeat split.
Qed.

Lemma silence_keeps s :
  elapsed_time (silence s).1 = elapsed_time s
  /\ time_limit (silence s).1 = time_limit s
  /\ player_completion_times (silence s).1 = player_completion_times s
  /\ forallb is_sound (silence s).2 = true.
Proof.
  unfold silence. destruct (music_playing s); destruct (clock_playing s); repeat split.
Qed.

Lemma sounds_not_transition fx e :
  forallb is_sound fx = true -> e ∈ fx -> is_sound e = true.
Proof.
  intros H Hin. rewrite forallb_forall in H. apply H. now apply list_elem_of_In.
Qed.

(** The store after the DNF loop, and what the loop writes. *)
Lemma assign_dnf_spec characters :
  forall i completion g,
    (forall n,
       default ∅ (player_times_level3 (assign_dnf i characters completion g).1) !! n
       = if bool_decide ((i < n <= i + length characters)%nat /\ n ∉ dom completion)
         then Some (-1.0)
         else default ∅ (player_times_level3 g) !! n)
    /\ (forall e, e ∈ (assign_dnf i characters completion g).2 ->
          exists n, e = StoreTime n (-1.0))
    /\ (forall n, (i < n <= i + length characters)%nat -> n ∉ dom completion ->
          StoreTime n (-1.0) ∈ (assign_dnf i characters completion g).2).
Proof.
  induction characters as [|ch rest IH]; intros i completion g; simpl.
  - split; [|split].
    + intros n. rewrite bool_decide_eq_false_2; [reflexivity|]. intros [? _]. lia.
    + intros e He. inversion He.
    + intros n Hn. lia.
  - case_bool_decide as Hdone.
    + destruct (IH (S i) completion g) as (IH1 & IH2 & IH3).
      split; [|split].
      * intros n. rewrite IH1.
        destruct (decide (n = (i + 1)%nat)) as [->|Hne].
        -- rewrite !bool_decide_eq_false_2; [reflexivity| |].
           ++ intros [_ H]. contradiction.
           ++ intros [H _]. lia.
        -- erewrite bool_decide_ext; [reflexivity|].
           split; intros [H1 H2]; (split; [lia|exact H2]).
      * exact IH2.
      * intros n Hn Hfree. apply IH3; [|exact Hfree].
        destruct (decide (n = (i + 1)%nat)) as [->|Hne]; [contradiction|lia].
    + destruct (IH (S i) completion (write_level3 (i + 1) (-1.0) g)) as (IH1 & IH2 & IH3).
      destruct (assign_dnf (S i) rest completion (write_level3 (i + 1) (-1.0) g))
        as [g' fx] eqn:E. simpl in *.
      split; [|split].
      * intros n. rewrite IH1.
        destruct (decide (n = (i + 1)%nat)) as [->|Hne].
        -- rewrite bool_decide_eq_false_2 by (intros [H _]; lia).
           rewrite bool_decide_eq_true_2 by (split; [lia|exact Hdone]).
           apply lookup_insert_eq.
        -- rewrite lookup_insert_ne by congruence.
           erewrite bool_decide_ext; [reflexivity|].
           split; intros [H1 H2]; (split; [lia|exact H2]).
      * intros e He. apply elem_of_cons in He as [->|He]; [now exists (i + 1)%nat|].
        now apply IH2.
      * intros n Hn Hfree.
        destruct (decide (n = (i + 1)%nat)) as [->|Hne]; [left|].
        right. apply IH3; [lia|exact Hfree].
Qed.

Lemma time_out_spec characters s g :
  let r := time_out characters s g in
  let completion := player_completion_times s in
  player_completion_times r.1.1 = completion
  /\ (forall n,
        default ∅ (player_times_level3 r.1.2) !! n
        = if bool_decide ((0 < n <= length characters)%nat /\ n ∉ dom completion)
          then Some (-1.0)
          else default ∅ (player_times_level3 g) !! n)
  /\ exists pre, (r.2 = pre ++ [GoToSceneNext])
       /\ (GoToSceneNext ∉ pre)
       /\ forall n, (0 < n <= length characters)%nat -> n ∉ dom completion ->
            StoreTime n (-1.0) ∈ pre.
Proof.
  intros r completion. unfold r, time_out.
  destruct (silence_keeps s) as (_ & _ & Hc & Hs).
  destruct (silence s) as [s' fx1]. simpl in Hc, Hs.
  destruct (assign_dnf_spec characters 0 (player_completion_times s') (ensure_level3 g))
    as (H1 & H2 & H3).
  destruct (assign_dnf 0 characters (player_completion_times s') (ensure_level3 g))
    as [g' fx2]. simpl in *. rewrite Hc in *.
  split; [reflexivity|]. split; [exact H1|].
  exists (fx1 ++ fx2). split; [now rewrite app_assoc|]. split.
  - intros Hin. apply elem_of_app in Hin as [Hin|Hin].
    + pose proof (sounds_not_transition _ _ Hs Hin). discriminate.
    + destruct (H2 _ Hin) as [n Hn]. discriminate.
  - intros n Hn Hfree. apply elem_of_app. right. now apply H3.
Qed.

(** When as many completion times are recorded as there are characters, and
    they are recorded under player numbers of the scene, nobody is missing. *)
Lemma all_finished_complete (completion : gmap nat Q) (n : nat) :
  (forall k, k ∈ dom completion -> (0 < k <= n)%nat) ->
  size completion = n ->
  forall k, (0 < k <= n)%nat -> k ∈ dom completion.
Proof.
  intros Hsub Hsize k Hk.
  assert (Heq : dom completion = set_seq 1 n).
  { apply set_subseteq_size_eq.
    - intros x Hx. apply elem_of_set_seq. specialize (Hsub x Hx). lia.
    - rewrite size_set_seq, size_dom. lia. }
  rewrite Heq. apply elem_of_set_seq. lia.
Qed.

(** The characters [init] creates carry their index plus one as player
    number. *)
Lemma spawn_from_numbered handles starts :
  forall i k ch, spawn_from i handles starts !! k = Some ch ->
                 player_number ch = (i + k + 1)%nat.
Proof.
  induction starts as [|start rest IH]; intros i k ch; simpl; [discriminate|].
  destruct k as [|k]; simpl.
  - intros [= <-]. simpl. lia.
  - intros H. rewrite (IH (S i) k ch H). lia.
Qed.

Lemma spawn_characters_numbered handles starts k ch :
  spawn_characters handles starts !! k = Some ch -> player_number ch = (k + 1)%nat.
Proof. intros H. now rewrite (spawn_from_numbered _ _ _ _ _ H). Qed.

(** Completion times are only ever recorded by [add_winner], under the
    number of the player that calls it: a scene that starts empty records them
    under player numbers of its characters. *)
Lemma new_scene_numbered pfs bs (n : nat) k :
  k ∈ dom (player_completion_times (new_scene pfs bs)) -> (0 < k <= n)%nat.
Proof. simpl. rewrite dom_empty_L. intros H. now apply not_elem_of_empty in H. Qed.

Lemma add_winner_numbered (n player : nat) s g :
  (0 < player <= n)%nat ->
  (forall k, k ∈ dom (player_completion_times s) -> (0 < k <= n)%nat) ->
  forall k, k ∈ dom (player_completion_times (add_winner player s g).1.1) ->
            (0 < k <= n)%nat.
Proof.
  intros Hp Hs k. unfold add_winner. case_bool_decide; simpl; [apply Hs|].
  rewrite dom_insert_L, elem_of_union, elem_of_singleton.
  intros [->|Hk]; [exact Hp|now apply Hs].
Qed.

End Timeout.

(** C8: in level 3, in an update at whose end [elapsed_time] has reached the
    time limit, every character whose player number (its index in the scene's
    list plus one) has no recorded completion time gets the DNF sentinel -1.0
    in the level-3 results store, and that write precedes the request for the
    scene transition; players with a recorded completion time keep their
    entry of the store.  The completion times are recorded under player
    numbers of the scene's characters, as [add_winner] does. *)
Theorem timeout_assigns_dnf (characters : list NCharacter) (i : NGame3.SceneInput)
    (delta_time : Q) (s : NGame3.NScene3) (g : Game) :
  (forall n, n ∈ dom (NGame3.player_completion_times s) ->
     (0 < n <= length characters)%nat) ->
  NGame3.time_limit s <= NGame3.elapsed_time s + delta_time ->
  let r := NGame3.scene_update characters i delta_time s g in
  let store := default ∅ (player_times_level3 r.1.2) in
  (forall k ch, characters !! k = Some ch -> player_number ch = (k + 1)%nat ->
     player_number ch ∉ dom (NGame3.player_completion_times s) ->
     store !! player_number ch = Some (-1.0)
     /\ exists pre post, (r.2 = pre ++ GoToSceneNext :: post)
          /\ (GoToSceneNext ∉ pre)
          /\ StoreTime (player_number ch) (-1.0) ∈ pre)
  /\ (forall n, n ∈ dom (NGame3.player_completion_times s) ->
       store !! n = default ∅ (player_times_level3 g) !! n)
  /\ NGame3.player_completion_times r.1.1 = NGame3.player_completion_times s
  /\ GoToSceneNext ∈ r.2.
Proof.
  intros Hnum Hlate r store. unfold store, r, NGame3.scene_update. clear r store.
  set (s0 := NGame3.with_particles _ _).
  assert (H0 : NGame3.elapsed_time s0 = NGame3.elapsed_time s + delta_time
               /\ NGame3.time_limit s0 = NGame3.time_limit s
               /\ NGame3.player_completion_times s0 = NGame3.player_completion_times s)
    by (repeat split).
  clearbody s0. destruct H0 as (He0 & Hl0 & Hc0).
  destruct (sound_step_keeps i s0) as (He1 & Hl1 & Hc1 & Hs1).
  destruct (NGame3.sound_step i s0) as [s1 fx1]. simpl in He1, Hl1, Hc1, Hs1.
  set (s2 := NGame3.age_winners delta_time s1).
  assert (H2 : NGame3.elapsed_time s2 = NGame3.elapsed_time s + delta_time
               /\ NGame3.time_limit s2 = NGame3.time_limit s
               /\ NGame3.player_completion_times s2 = NGame3.player_completion_times s).
  { unfold s2. simpl. repeat split; congruence. }
  clearbody s2. destruct H2 as (He2 & Hl2 & Hc2).
  destruct (_ && _) eqn:Early.
  - (* everybody has finished and the displays are over *)
    apply andb_true_iff in Early as [Early _].
    apply andb_true_iff in Early as [Hall _].
    apply Nat.eqb_eq in Hall. rewrite Hc2 in Hall.
    pose proof (all_finished_complete _ _ Hnum Hall) as Hcomplete.
    destruct (silence_keeps s2) as (_ & _ & Hc3 & Hs3).
    destruct (NGame3.silence s2) as [s3 fx2]. simpl in *.
    split; [|split; [|split]].
    + intros k ch Hk Hpn Hfree. exfalso. apply Hfree. apply Hcomplete.
      apply lookup_lt_Some in Hk. lia.
    + reflexivity.
    + congruence.
    + rewrite !elem_of_app. right. right. left.
  - replace (Num.leb _ _) with true
      by (symmetry; apply NumFacts.leb_le; rewrite He2, Hl2; exact Hlate).
    destruct (time_out_spec characters s2 g) as (Hc3 & Hstore & pre & Hfx & Hpre & Hdnf).
    destruct (NGame3.time_out characters s2 g) as [[s3 g3] fx3]. simpl in *.
    assert (Hc4 : NGame3.player_completion_times (NGame3.enter_step i s3).1
                  = NGame3.player_completion_times s3).
    { unfold NGame3.enter_step. destruct (_ || _); [|reflexivity].
      destruct (silence_keeps s3) as (_ & _ & Hc & _).
      destruct (NGame3.silence s3). exact Hc. }
    destruct (NGame3.enter_step i s3) as [s4 fx4]. simpl in *.
    rewrite Hc2 in *.
    split; [|split; [|split]].
    + intros k ch Hk Hpn Hfree. apply lookup_lt_Some in Hk.
      split.
      * rewrite Hstore. rewrite bool_decide_eq_true_2; [reflexivity|].
        split; [lia|exact Hfree].
      * exists (fx1 ++ pre), fx4. split; [|split].
        -- rewrite Hfx. now rewrite <- !app_assoc.
        -- intros Hin. apply elem_of_app in Hin as [Hin|Hin]; [|contradiction].
           pose proof (sounds_not_transition _ _ Hs1 Hin). discriminate.
        -- apply elem_of_app. right. apply Hdnf; [lia|exact Hfree].
    + intros n Hn. rewrite Hstore.
      rewrite bool_decide_eq_false_2; [reflexivity|]. intros [_ H]. contradiction.
    + congruence.
    + rewrite Hfx, !elem_of_app. right. left. right. left.
Qed.

Example timeout_run :
  let r := NGame3.scene_update three_foxes quiet (1 # 50) late_scene3 late_game in
  r.2 = [StopSound "tick"; StoreTime 2 (-1.0); StoreTime 3 (-1.0); GoToSceneNext]
  /\ map (fun n => default ∅ (player_times_level3 r.1.2) !! n) [1; 2; 3]%nat
     = [Some 65.2; Some (-1.0); Some (-1.0)].
Proof. vm_compute. split; reflexivity. Qed.

Lemma timeout_assigns_dnf_witness :
  (forall n, n ∈ dom (NGame3.player_completion_times late_scene3) ->
     (0 < n <= length three_foxes)%nat)
  /\ NGame3.time_limit late_scene3 <= NGame3.elapsed_time late_scene3 + (1 # 50)
  /\ default ∅ (player_times_level3
                  (NGame3.scene_update three_foxes quiet (1 # 50)
                                       late_scene3 late_game).1.2) !! 2%nat
     = Some (-1.0).
Proof.
  assert (H1 : forall n, n ∈ dom (NGame3.player_completion_times late_scene3) ->
                 (0 < n <= length three_foxes)%nat).
  { intros n Hn. simpl in Hn. rewrite dom_singleton_L in Hn.
    apply elem_of_singleton in Hn. subst n. simpl. lia. }
  assert (H2 : NGame3.time_limit late_scene3
               <= NGame3.elapsed_time late_scene3 + (1 # 50)) by discriminate.
  split; [exact H1|]. split; [exact H2|].
  destruct (timeout_assigns_dnf three_foxes quiet (1 # 50) late_scene3 late_game H1 H2)
    as (H & _).
  refine (proj1 (H 1%nat (new_character fox_params 2%nat 8%nat) eq_refl eq_refl _)).
  simpl. rewrite dom_singleton_L. intros Hin. apply elem_of_singleton in Hin.
  discriminate.
Defined.

(** ** The leaderboard *)

Section Ranking.

Import Leaderboard.

(** [x] sorts strictly before [y] exactly when [x] has a valid time and [y]
    either has none or has a larger one. *)
Lemma key_ltb_spec x y :
  key_ltb (sort_key x) (sort_key y) = true
  <-> 0 <= total_time x /\ (total_time y < 0 \/ total_time x < total_time y).
Proof.
  unfold key_ltb, sort_key. simpl.
  destruct (Num.ltb (total_time x) 0) eqn:Ex; destruct (Num.ltb (total_time y) 0) eqn:Ey;
    simpl.
  - apply NumFacts.ltb_lt in Ex.
    replace (Num.leb 0 (total_time x)) with false
      by (symmetry; apply NumFacts.leb_gt; exact Ex).
    apply NumFacts.ltb_lt in Ey.
    replace (Num.leb 0 (total_time y)) with false
      by (symmetry; apply NumFacts.leb_gt; exact Ey).
    simpl. split; [discriminate|]. intros [H _]. lra.
  - apply NumFacts.ltb_lt in Ex. split; [discriminate|]. intros [H _]. lra.
  - apply NumFacts.ltb_ge in Ex. apply NumFacts.ltb_lt in Ey.
    split; [intros _|reflexivity]. split; [exact Ex|now left].
  - apply NumFacts.ltb_ge in Ex. apply NumFacts.ltb_ge in Ey.
    replace (Num.leb 0 (total_time x)) with true
      by (symmetry; apply NumFacts.leb_le; exact Ex).
    replace (Num.leb 0 (total_time y)) with true
      by (symmetry; apply NumFacts.leb_le; exact Ey).
    simpl. destruct (Num.eqb _ _) eqn:E; simpl.
    + apply NumFacts.eqb_eq in E. split; [discriminate|]. intros [_ [H|H]]; lra.
    + rewrite NumFacts.ltb_lt. split; [intros H; split; [exact Ex|now right]|].
      intros [_ [H|H]]; [lra|exact H].
Qed.

Lemma key_ltb_false x y :
  total_time x < 0 \/ (0 <= total_time y /\ total_time y <= total_time x) ->
  key_ltb (sort_key x) (sort_key y) = false.
Proof.
  intros H. destruct (key_ltb _ _) eqn:E; [|reflexivity].
  apply key_ltb_spec in E. destruct E as [E1 [E2|E2]]; destruct H as [H|[H1 H2]]; lra.
Qed.

Lemma permutation_of_three {A} (a b c : A) (l : list A) :
  l ≡ₚ [a; b; c] ->
  l = [a; b; c] \/ l = [a; c; b] \/ l = [b; a; c]
  \/ l = [c; a; b] \/ l = [b; c; a] \/ l = [c; b; a].
Proof.
  intros H. apply Permutation_cons_inv_r in H as (k1 & k2 & -> & H).
  apply Permutation_length_2_inv in H.
  destruct k1 as [|x [|y [|z k1]]]; simpl in *;
    destruct H as [H|H]; simplify_eq; tauto.
Qed.

End Ranking.

(** The sample board: 40.0 sorts before 65.2, and both before the DNF entry. *)
Lemma sample_board_order x1 x2 x3 :
  Leaderboard.total_time x1 == 65.2 -> Leaderboard.total_time x2 == -1 ->
  Leaderboard.total_time x3 == 40.0 ->
  forall l, l ≡ₚ [x1; x2; x3] -> Leaderboard.sort l = [x3; x1; x2].
Proof.
  intros H1 H2 H3 l Hl.
  assert (K31 : Leaderboard.key_ltb (Leaderboard.sort_key x3) (Leaderboard.sort_key x1) = true)
    by (apply key_ltb_spec; lra).
  assert (K32 : Leaderboard.key_ltb (Leaderboard.sort_key x3) (Leaderboard.sort_key x2) = true)
    by (apply key_ltb_spec; lra).
  assert (K12 : Leaderboard.key_ltb (Leaderboard.sort_key x1) (Leaderboard.sort_key x2) = true)
    by (apply key_ltb_spec; lra).
  assert (K13 : Leaderboard.key_ltb (Leaderboard.sort_key x1) (Leaderboard.sort_key x3) = false)
    by (apply key_ltb_false; lra).
  assert (K21 : Leaderboard.key_ltb (Leaderboard.sort_key x2) (Leaderboard.sort_key x1) = false)
    by (apply key_ltb_false; lra).
  assert (K23 : Leaderboard.key_ltb (Leaderboard.sort_key x2) (Leaderboard.sort_key x3) = false)
    by (apply key_ltb_false; lra).
  apply permutation_of_three in Hl.
  destruct Hl as [-> | [-> | [-> | [-> | [-> | ->]]]]];
    unfold Leaderboard.sort; simpl;
    rewrite ?K31, ?K32, ?K12, ?K13, ?K21, ?K23; simpl;
    rewrite ?K31, ?K32, ?K12, ?K13, ?K21, ?K23; reflexivity.
Qed.

(** C9: with completion times P1 = 65.2, P2 = -1 (DNF) and P3 = 40.0 the
    leaderboard ranks P3, P1, P2, whatever the order in which the players
    were collected, and shows 65.2 as "1:05.20", -1 as "DNF" and 40.0 as
    "0:40.00".  This holds for the three results taken on their own and for a
    results store that yields these totals. *)
Theorem leaderboard_sample (l : list Leaderboard.Result) (iteration : list nat) :
  l ≡ₚ [board_p1; board_p2; board_p3] ->
  iteration ≡ₚ [1; 2; 3]%nat ->
  Leaderboard.format_time 65.2 = "1:05.20"
  /\ Leaderboard.format_time (-1) = "DNF"
  /\ Leaderboard.format_time 40.0 = "0:40.00"
  /\ Leaderboard.ranking (Leaderboard.sort l)
     = [(3%nat, "0:40.00"); (1%nat, "1:05.20"); (2%nat, "DNF")]
  /\ Leaderboard.ranking (Leaderboard.init_with iteration final_game)
     = [(3%nat, "0:40.00"); (1%nat, "1:05.20"); (2%nat, "DNF")].
Proof.
  intros Hl Hit.
  split; [reflexivity|]. split; [reflexivity|]. split; [reflexivity|]. split.
  - rewrite (sample_board_order board_p1 board_p2 board_p3); try reflexivity.
    exact Hl.
  - unfold Leaderboard.init_with.
    set (f := Leaderboard.result_of _ _ _).
    rewrite (sample_board_order (f 1%nat) (f 2%nat) (f 3%nat)).
    + reflexivity.
    + reflexivity.
    + reflexivity.
    + reflexivity.
    + change [f 1%nat; f 2%nat; f 3%nat] with (map f [1; 2; 3]%nat).
      now apply Permutation_map.
Qed.

Lemma leaderboard_sample_witness :
  [board_p3; board_p2; board_p1] ≡ₚ [board_p1; board_p2; board_p3]
  /\ elements (Leaderboard.all_players final_game) ≡ₚ [1; 2; 3]%nat
  /\ Leaderboard.ranking (Leaderboard.sort [board_p3; board_p2; board_p1])
     = [(3%nat, "0:40.00"); (1%nat, "1:05.20"); (2%nat, "DNF")]
  /\ Leaderboard.ranking (Leaderboard.init final_game)
     = [(3%nat, "0:40.00"); (1%nat, "1:05.20"); (2%nat, "DNF")].
Proof.
  assert (H1 : [board_p3; board_p2; board_p1] ≡ₚ [board_p1; board_p2; board_p3]).
  { symmetry. apply (Permutation_rev [board_p1; board_p2; board_p3]). }
  assert (H2 : elements (Leaderboard.all_players final_game) ≡ₚ [1; 2; 3]%nat).
  { vm_compute. symmetry. apply (Permutation_cons_append [2; 3]%nat 1%nat). }
  split; [exact H1|]. split; [exact H2|].
  destruct (leaderboard_sample _ _ H1 H2) as (_ & _ & _ & H3 & H4).
  split; [exact H3|exact H4].
Defined.

(** * Further properties of the code *)

(** ** The contact listener and the contact rule *)

Lemma PreSolve_cases characters contact :
  NGame.PreSolve characters contact
  = if involves characters contact then NGame.enable contact else contact.
Proof.
  induction characters as [|ch rest IH]; simpl; [reflexivity|].
  destruct (_ || _); simpl; [reflexivity|exact IH].
Qed.

Lemma PreSolve3_cases characters contact :
  NGame3.PreSolve characters contact
  = if involves characters contact then NGame.enable contact else contact.
Proof.
  induction characters as [|ch rest IH]; simpl; [reflexivity|].
  destruct (_ || _); simpl; [reflexivity|exact IH].
Qed.

(** X1: the contact listener of either level never disables a contact and
    changes nothing but the enabled flag: the flag after [PreSolve] is the
    flag before, or-ed with "one of the bodies belongs to a character of the
    scene".  In particular a contact of a character is enabled even where
    [pre_solve] answers that it should be disabled. *)
Theorem PreSolve_only_enables (characters : list NCharacter) (contact : b2Contact) :
  let after := NGame.PreSolve characters contact in
  NGame3.PreSolve characters contact = after
  /\ fixtureA_body after = fixtureA_body contact
  /\ fixtureB_body after = fixtureB_body contact
  /\ normal after = normal contact
  /\ contact_enabled after = contact_enabled contact || involves characters contact
  /\ forall ch,
       ch ∈ characters ->
       fixtureA_body contact = body (cbody ch)
       \/ fixtureB_body contact = body (cbody ch) ->
       contact_enabled after = true.
Proof.
  intros after. unfold after. rewrite PreSolve3_cases, PreSolve_cases.
  split; [reflexivity|].
  destruct (involves characters contact) eqn:E; simpl.
  - repeat split; try reflexivity. now rewrite orb_true_r.
  - repeat split; try reflexivity; [now rewrite orb_false_r|].
    intros ch Hin Hbody. exfalso.
    unfold involves in E. rewrite <- not_true_iff_false in E. apply E.
    apply existsb_exists. exists ch. split; [now apply list_elem_of_In|].
    destruct Hbody as [H|H]; rewrite (bool_decide_eq_true_2 _ H);
      [reflexivity|apply orb_true_r].
Qed.

Lemma PreSolve_only_enables_witness :
  fox ∈ [fox]
  /\ (fixtureA_body (mkContact 7%nat 9%nat (v2 0 (-1)) false) = body (cbody fox)
      \/ fixtureB_body (mkContact 7%nat 9%nat (v2 0 (-1)) false) = body (cbody fox))
  /\ pre_solve fox 7%nat 9%nat (mkContact 7%nat 9%nat (v2 0 (-1)) false) [ledge] = false
  /\ contact_enabled (NGame.PreSolve [fox] (mkContact 7%nat 9%nat (v2 0 (-1)) false))
     = true.
Proof.
  assert (H1 : fox ∈ [fox]) by left.
  assert (H2 : fixtureA_body (mkContact 7%nat 9%nat (v2 0 (-1)) false) = body (cbody fox)
               \/ fixtureB_body (mkContact 7%nat 9%nat (v2 0 (-1)) false)
                  = body (cbody fox)) by (left; reflexivity).
  split; [exact H1|]. split; [exact H2|]. split; [reflexivity|].
  destruct (PreSolve_only_enables [fox] (mkContact 7%nat 9%nat (v2 0 (-1)) false))
    as (_ & _ & _ & _ & _ & H).
  exact (H fox H1 H2).
Defined.

Lemma ltb_compat x x' y y' : x == x' -> y == y' -> Num.ltb x y = Num.ltb x' y'.
Proof.
  intros Hx Hy. destruct (Num.ltb x' y') eqn:E.
  - apply NumFacts.ltb_lt in E. apply NumFacts.ltb_lt. lra.
  - apply NumFacts.ltb_ge in E. apply NumFacts.ltb_ge. lra.
Qed.

(** X2: the contact rule does not depend on which of the two bodies Box2D
    reports first: unless both bodies are the character's own, [pre_solve]
    gives the same answer for a contact and for the same contact with the
    bodies exchanged and the normal reversed. *)
Theorem pre_solve_orientation (self : NCharacter) (contact : b2Contact)
    (platforms : list StaticBox) :
  ~ (fixtureA_body contact = body (cbody self)
     /\ fixtureB_body contact = body (cbody self)) ->
  pre_solve self (fixtureB_body contact) (fixtureA_body contact)
            (reversed contact) platforms
  = pre_solve self (fixtureA_body contact) (fixtureB_body contact) contact platforms.
Proof.
  intros Hnot. unfold pre_solve, reversed. simpl.
  destruct (bool_decide (fixtureA_body contact = body (cbody self))) eqn:Ea;
    destruct (bool_decide (fixtureB_body contact = body (cbody self))) eqn:Eb.
  - apply bool_decide_eq_true_1 in Ea, Eb. destruct Hnot. now split.
  - rewrite (ltb_compat (-1.0 * - vy (normal contact)) (1.0 * vy (normal contact))
                        0.5 0.5) by lra.
    reflexivity.
  - rewrite (ltb_compat (1.0 * - vy (normal contact)) (-1.0 * vy (normal contact))
                        0.5 0.5) by lra.
    reflexivity.
  - rewrite (ltb_compat (0.0 * - vy (normal contact)) (0.0 * vy (normal contact))
                        0.5 0.5) by lra.
    reflexivity.
Qed.

Lemma pre_solve_orientation_witness :
  ~ (fixtureA_body landing = body (cbody falling_fox)
     /\ fixtureB_body landing = body (cbody falling_fox))
  /\ pre_solve falling_fox 9%nat 7%nat (reversed landing) [ledge]
     = pre_solve falling_fox 7%nat 9%nat landing [ledge].
Proof.
  assert (H : ~ (fixtureA_body landing = body (cbody falling_fox)
                 /\ fixtureB_body landing = body (cbody falling_fox))).
  { intros [_ H]. discriminate. }
  split; [exact H|].
  exact (pre_solve_orientation falling_fox landing [ledge] H).
Defined.

(** ** Steering *)

(** X3: the horizontal input handed to the movement component stays within
    [-1, 1] when the stick does; a right key or button gives 1 even when left
    is held too, left alone gives -1, and without keys a stick inside the
    dead zone of 0.1 gives 0 while a stick outside of it is passed on
    unchanged. *)
Theorem read_move_x_range (i : Input) :
  -1 <= axis_left_x i /\ axis_left_x i <= 1 ->
  (-1 <= read_move_x i /\ read_move_x i <= 1)
  /\ (key_d_down i || pad_right_down i = true -> read_move_x i == 1)
  /\ (key_d_down i || pad_right_down i = false ->
      key_a_down i || pad_left_down i = true -> read_move_x i == -1)
  /\ (key_d_down i || pad_right_down i = false ->
      key_a_down i || pad_left_down i = false ->
      (Qabs (axis_left_x i) < 0.1 -> read_move_x i == 0)
      /\ (0.1 <= Qabs (axis_left_x i) -> read_move_x i = axis_left_x i)).
Proof.
  intros [Hlo Hhi]. unfold read_move_x, deadzone.
  destruct (key_d_down i || pad_right_down i) eqn:Er;
    [|destruct (key_a_down i || pad_left_down i) eqn:El].
  - split; [split; discriminate|]. split; [reflexivity|].
    split; discriminate.
  - split; [split; discriminate|]. split; [discriminate|].
    split; [reflexivity|]. intros _. discriminate.
  - destruct (Num.ltb (Qabs (axis_left_x i)) 0.1) eqn:E.
    + apply NumFacts.ltb_lt in E.
      split; [split; discriminate|]. split; [discriminate|].
      split; [intros _; discriminate|]. intros _ _.
      split; [reflexivity|]. intros H. lra.
    + apply NumFacts.ltb_ge in E.
      split; [split; assumption|]. split; [discriminate|].
      split; [intros _; discriminate|]. intros _ _.
      split; [intros H; lra|reflexivity].
Qed.

Lemma read_move_x_range_witness :
  (-1 <= axis_left_x idle /\ axis_left_x idle <= 1)
  /\ -1 <= read_move_x idle /\ read_move_x idle <= 1.
Proof.
  assert (H : -1 <= axis_left_x idle /\ axis_left_x idle <= 1)
    by (split; discriminate).
  split; [exact H|]. exact (proj1 (read_move_x_range idle H)).
Defined.

(** X4: the animation [update] selects.  On the ground it is "run" or
    "idle", in the air "jump" or "fall", and player 3 never falls: it has no
    such animation and gets "jump".  The sprite is turned only while running
    (|move_x| > 0.1), towards the side of the input; standing still keeps the
    facing the character had, which is the side its next attack goes to. *)
Theorem steer_animation (i : Input) (c : NCharacter) :
  let a := animation (steer i c).1 in
  (grounded (movement c) = true -> current a = "run" \/ current a = "idle")
  /\ (grounded (movement c) = false -> current a = "jump" \/ current a = "fall")
  /\ (player_number c = 3%nat -> current a <> "fall")
  /\ (Qabs (read_move_x i) <= 0.1 -> flip_x a = flip_x (animation c))
  /\ (0.1 < Qabs (read_move_x i) -> (flip_x a = true <-> read_move_x i < 0))
  /\ knockback_impulse (steer i c).1
     = v2 (if flip_x a then -10.0 else 10.0) (-10.0).
Proof.
  intros a.
  assert (Hflip : flip_x a = if Num.ltb 0.1 (Qabs (read_move_x i))
                             then Num.ltb (read_move_x i) 0.0
                             else flip_x (animation c)).
  { unfold a, steer. simpl.
    destruct (Num.ltb 0.1 _); destruct (grounded _); simpl; try reflexivity;
      destruct (_ =? _)%nat; simpl; try reflexivity;
      destruct (Num.ltb (vy _) _); reflexivity. }
  assert (Hcur : current a
                 = if grounded (movement c)
                   then if Num.ltb 0.1 (Qabs (read_move_x i)) then "run" else "idle"
                   else if (player_number c =? 3)%nat then "jump"
                        else if Num.ltb (vy (get_velocity_pixels (cbody c))) 0.0
                             then "jump" else "fall").
  { unfold a, steer. simpl.
    destruct (Num.ltb 0.1 _); destruct (grounded _); simpl; try reflexivity;
      destruct (_ =? _)%nat; simpl; try reflexivity;
      destruct (Num.ltb (vy _) _); reflexivity. }
  split; [|split; [|split; [|split; [|split]]]].
  - intros Hg. rewrite Hcur, Hg. destruct (Num.ltb 0.1 _); [now left|now right].
  - intros Hg. rewrite Hcur, Hg.
    destruct (_ =? _)%nat; [now left|]. destruct (Num.ltb (vy _) _); [now left|now right].
  - intros H3. rewrite Hcur, H3. simpl.
    destruct (grounded _); [destruct (Num.ltb 0.1 _)|]; discriminate.
  - intros Hstill. rewrite Hflip.
    replace (Num.ltb 0.1 _) with false; [reflexivity|].
    symmetry. now apply NumFacts.ltb_ge.
  - intros Hrun. rewrite Hflip.
    replace (Num.ltb 0.1 _) with true by (symmetry; now apply NumFacts.ltb_lt).
    rewrite NumFacts.ltb_lt. split; intros H; lra.
  - reflexivity.
Qed.

Lemma steer_animation_witness :
  player_number squirrel = 3%nat
  /\ current (animation (steer idle squirrel).1) <> "fall".
Proof.
  split; [reflexivity|].
  exact (proj1 (proj2 (proj2 (steer_animation idle squirrel))) eq_refl).
Defined.

(** ** Attacks *)

Lemma plays_cons name e fx :
  plays name (e :: fx) = ((if is_play name e then 1 else 0) + plays name fx)%nat.
Proof.
  unfold plays. destruct (is_play name e) eqn:E.
  - rewrite filter_cons_True by exact E. reflexivity.
  - rewrite filter_cons_False by (rewrite E; discriminate). reflexivity.
Qed.

Lemma impulses_cons e fx :
  impulses (e :: fx)
  = match e with
    | ApplyLinearImpulse target impulse => (target, impulse) :: impulses fx
    | _ => impulses fx
    end.
Proof. destruct e; reflexivity. Qed.

Lemma overlap_queries_cons e fx :
  overlap_queries (e :: fx)
  = match e with
    | CircleOverlap center radius => (center, radius) :: overlap_queries fx
    | _ => overlap_queries fx
    end.
Proof. destruct e; reflexivity. Qed.

Section Attacks.

Variables (level_size : Vec2) (draws : nat -> NGame3.Draw).
Variables (i : Input) (delta_time : Q).

Lemma harmless_app fx fx' :
  harmless fx ->
  impulses (fx ++ fx') = impulses fx'
  /\ overlap_queries (fx ++ fx') = overlap_queries fx'
  /\ plays "hit" (fx ++ fx') = plays "hit" fx'.
Proof.
  intros (H1 & H2 & H3). unfold impulses, overlap_queries, plays in *.
  rewrite !omap_app, filter_app, length_app, H1, H2, H3. repeat split.
Qed.

Lemma harmless_app_r fx fx' :
  harmless fx' ->
  impulses (fx ++ fx') = impulses fx
  /\ overlap_queries (fx ++ fx') = overlap_queries fx
  /\ plays "hit" (fx ++ fx') = plays "hit" fx.
Proof.
  intros (H1 & H2 & H3). unfold impulses, overlap_queries, plays in *.
  rewrite !omap_app, filter_app, length_app, H1, H2, H3, !app_nil_r.
  repeat split. lia.
Qed.

Lemma steer_harmless c : harmless (steer i c).2.
Proof. unfold steer. simpl. destruct (_ && _); repeat split. Qed.

Lemma respawn_harmless c : harmless (NGame.respawn_step level_size c).2.
Proof. unfold NGame.respawn_step. destruct (Num.ltb _ _); repeat split. Qed.

Lemma wrap_harmless c : harmless (NGame3.wrap_and_respawn level_size c).2.
Proof.
  unfold NGame3.wrap_and_respawn.
  destruct (Num.leb _ _); [|destruct (Num.leb _ _)];
    destruct (Num.ltb _ _); repeat split.
Qed.

Lemma goal3_harmless c s g : harmless (NGame3.goal_step i c s g).2.
Proof.
  unfold NGame3.goal_step. destruct (negb _); [|repeat split].
  rewrite scan_goal3_spec. destruct (existsb _ _); [|repeat split].
  unfold NGame3.win, NGame3.add_winner. simpl.
  case_bool_decide; repeat split.
Qed.

Lemma bomb_harmless c s : harmless (NGame3.scan_bomb draws (contacts_again i) c s).2.
Proof. rewrite scan_bomb_spec. destruct (existsb _ _); repeat split. Qed.

(** The bodies an attack pushes: every overlapping body but the attacker's. *)
Lemma knockback_impulses self bodies :
  impulses (NGame.knockback self bodies)
  = map (fun h => (h, knockback_impulse self))
        (filter (fun h => h <> body (cbody self)) bodies)
  /\ overlap_queries (NGame.knockback self bodies) = []
  /\ plays "hit" (NGame.knockback self bodies)
     = length (filter (fun h => h <> body (cbody self)) bodies).
Proof.
  induction bodies as [|h rest (IH1 & IH2 & IH3)]; simpl; [repeat split|].
  case_bool_decide as E.
  - rewrite filter_cons_False by (intros H; now apply H). repeat split; assumption.
  - rewrite filter_cons_True by exact E.
    rewrite !plays_cons, !impulses_cons, !overlap_queries_cons, IH1, IH2, IH3.
    repeat split.
Qed.

Lemma knockback3_impulses self bodies :
  impulses (NGame3.knockback self bodies)
  = map (fun h => (h, knockback_impulse self))
        (filter (fun h => h <> body (cbody self)) bodies)
  /\ overlap_queries (NGame3.knockback self bodies) = []
  /\ plays "hit" (NGame3.knockback self bodies) = 0%nat.
Proof.
  induction bodies as [|h rest (IH1 & IH2 & IH3)]; simpl; [repeat split|].
  case_bool_decide as E.
  - rewrite filter_cons_False by (intros H; now apply H). repeat split; assumption.
  - rewrite filter_cons_True by exact E.
    rewrite !plays_cons, !impulses_cons, !overlap_queries_cons, IH1, IH2, IH3.
    repeat split.
Qed.

End Attacks.

Section AttackEffects.

Variables (level_size : Vec2) (draws : nat -> NGame3.Draw).
Variables (i : Input) (delta_time : Q).

(** The character as it is when the attack part of [update] starts. *)
Lemma before_attack_keeps c :
  let c1 := fall_through_step i delta_time (steer i c).1 in
  cbody c1 = cbody c /\ p c1 = p c /\ animation c1 = animation (steer i c).1.
Proof.
  intros c1.
  destruct (fall_through_step_keeps i delta_time (steer i c).1)
    as (_ & _ & Hb & Hp & _).
  destruct (steer_keeps i c) as (_ & _ & _ & Hb' & Hp' & _).
  split; [unfold c1; congruence|]. split; [unfold c1; congruence|].
  unfold c1, fall_through_step, tick_fall_through, start_fall_through.
  destruct (down_event i); simpl; destruct (Num.ltb _ _); simpl;
    try destruct (Num.eqb _ _); reflexivity.
Qed.

Lemma knockback_same c1 c2 bodies :
  cbody c1 = cbody c2 -> animation c1 = animation c2 ->
  NGame.knockback c1 bodies = NGame.knockback c2 bodies
  /\ NGame3.knockback c1 bodies = NGame3.knockback c2 bodies.
Proof.
  intros Hb Ha. induction bodies as [|h rest [IH1 IH2]]; simpl; [now split|].
  unfold knockback_impulse. rewrite Hb, Ha, IH1, IH2. now split.
Qed.

Lemma attack_step_effects c :
  let aimed := (steer i c).1 in
  (NGame.attack_step i delta_time (fall_through_step i delta_time aimed)).2
  = if attack_event i
    then CircleOverlap (attack_center aimed) 8.0
           :: NGame.knockback aimed (overlapping i)
    else [].
Proof.
  intros aimed. destruct (before_attack_keeps c) as (Hb & Hp & Ha).
  fold aimed in Hb, Hp, Ha.
  assert (Hb' : cbody (fall_through_step i delta_time aimed) = cbody aimed).
  { rewrite Hb. symmetry. apply steer_keeps. }
  assert (Hp' : p (fall_through_step i delta_time aimed) = p aimed).
  { rewrite Hp. symmetry. apply steer_keeps. }
  unfold NGame.attack_step. destruct (attack_event i); [|reflexivity]. simpl.
  f_equal.
  - unfold attack_center, facing, width, get_position_pixels. simpl.
    now rewrite Hb', Hp', Ha.
  - apply knockback_same; simpl; assumption.
Qed.

Lemma attack_step3_effects c :
  let aimed := (steer i c).1 in
  (NGame3.attack_step i delta_time (fall_through_step i delta_time aimed)).2
  = if attack_event i
    then PlaySound "hit" :: SetVolume "hit" 2.0
           :: CircleOverlap (attack_center aimed) 8.0
           :: NGame3.knockback aimed (overlapping i)
    else [].
Proof.
  intros aimed. destruct (before_attack_keeps c) as (Hb & Hp & Ha).
  fold aimed in Hb, Hp, Ha.
  assert (Hb' : cbody (fall_through_step i delta_time aimed) = cbody aimed).
  { rewrite Hb. symmetry. apply steer_keeps. }
  assert (Hp' : p (fall_through_step i delta_time aimed) = p aimed).
  { rewrite Hp. symmetry. apply steer_keeps. }
  unfold NGame3.attack_step. destruct (attack_event i); [|reflexivity]. simpl.
  do 3 f_equal.
  - unfold attack_center, facing, width, get_position_pixels. simpl.
    now rewrite Hb', Hp', Ha.
  - apply knockback_same; simpl; assumption.
Qed.

(** The effects of an update are those of its attack part, framed by effects
    that push nobody. *)
Lemma update_effects c s :
  exists before after,
    (NGame.update level_size i delta_time c s).2
    = before
        ++ (NGame.attack_step i delta_time
              (fall_through_step i delta_time (steer i c).1)).2
        ++ after
    /\ harmless before /\ harmless after.
Proof.
  unfold NGame.update.
  pose proof (steer_harmless i c) as H1.
  destruct (steer i c) as [c1 fx1]. simpl in *.
  destruct (NGame.attack_step _ _ _) as [c2 fx2]. simpl.
  destruct (NGame.goal_step _ _ _) as [c3 s3].
  pose proof (respawn_harmless level_size c3) as H3.
  destruct (NGame.respawn_step _ _) as [c4 fx3]. simpl in *.
  exists fx1, fx3. split; [reflexivity|]. split; assumption.
Qed.

Lemma update3_effects c s g :
  exists before after,
    (NGame3.update level_size draws i delta_time c s g).2
    = before
        ++ (NGame3.attack_step i delta_time
              (fall_through_step i delta_time (steer i c).1)).2
        ++ after
    /\ harmless before /\ harmless after.
Proof.
  unfold NGame3.update.
  pose proof (steer_harmless i c) as H1.
  destruct (steer i c) as [c1 fx1]. simpl in *.
  destruct (NGame3.attack_step _ _ _) as [c2 fx2]. simpl.
  pose proof (goal3_harmless i c2 s g) as H3.
  destruct (NGame3.goal_step _ _ _ _) as [[[c3 s3] g3] fx3]. simpl in *.
  pose proof (bomb_harmless draws i c3 s3) as H4.
  destruct (NGame3.scan_bomb _ _ _ _) as [[c4 s4] fx4]. simpl in *.
  pose proof (wrap_harmless level_size c4) as H5.
  destruct (NGame3.wrap_and_respawn _ _) as [c5 fx5]. simpl in *.
  exists (SetVolume "jump" 0.4 :: fx1), (fx3 ++ fx4 ++ fx5).
  split; [reflexivity|]. split.
  - destruct H1 as (A & B & C). unfold harmless.
    rewrite impulses_cons, overlap_queries_cons, plays_cons. simpl.
    now repeat split.
  - destruct (harmless_app fx3 (fx4 ++ fx5) H3) as (A & B & C).
    destruct (harmless_app fx4 fx5 H4) as (A' & B' & C').
    destruct H5 as (A'' & B'' & C''). unfold harmless.
    rewrite A, B, C, A', B', C'. now repeat split.
Qed.

End AttackEffects.

(** X5: what an attack does.  In an update with the attack input, of either
    level, exactly one overlap query is made, of radius 8 and centred half a
    width plus 8 pixels beside the body on the side the sprite faces after
    this frame's steering, and every body the query returns except the
    attacker's own gets one impulse of (10, -10), mirrored to (-10, -10) when
    facing left, in the order of the query result.  An update without the
    attack input makes no query and pushes nobody, however long the attack
    display is still running. *)
Theorem attack_hits (level_size : Vec2) (draws : nat -> NGame3.Draw)
    (i : Input) (delta_time : Q) (c : NCharacter)
    (s : NGame.NScene) (s3 : NGame3.NScene3) (g : Game) :
  let fx := (NGame.update level_size i delta_time c s).2 in
  let fx3 := (NGame3.update level_size draws i delta_time c s3 g).2 in
  let aimed := (steer i c).1 in
  let pushed :=
    map (fun h => (h, knockback_impulse aimed))
        (filter (fun h => h <> body (cbody c)) (overlapping i)) in
  (attack_event i = true ->
     impulses fx = pushed /\ impulses fx3 = pushed
     /\ overlap_queries fx = [(attack_center aimed, 8.0)]
     /\ overlap_queries fx3 = [(attack_center aimed, 8.0)])
  /\ (attack_event i = false ->
      impulses fx = [] /\ impulses fx3 = []
      /\ overlap_queries fx = [] /\ overlap_queries fx3 = [])
  /\ (forall h v, (h, v) ∈ impulses fx \/ (h, v) ∈ impulses fx3 ->
        h <> body (cbody c) /\ h ∈ overlapping i).
Proof.
  intros fx fx3 aimed pushed.
  destruct (update_effects level_size i delta_time c s) as (b & a & Hfx & Hb & Ha).
  destruct (update3_effects level_size draws i delta_time c s3 g)
    as (b3 & a3 & Hfx3 & Hb3 & Ha3).
  fold fx in Hfx. fold fx3 in Hfx3.
  rewrite attack_step_effects in Hfx. rewrite attack_step3_effects in Hfx3.
  fold aimed in Hfx, Hfx3.
  assert (Hbody : body (cbody aimed) = body (cbody c)).
  { unfold aimed. now destruct (steer_keeps i c) as (_ & _ & _ & -> & _). }
  destruct (knockback_impulses aimed (overlapping i)) as (K1 & K2 & _).
  destruct (knockback3_impulses aimed (overlapping i)) as (K1' & K2' & _).
  rewrite Hbody in K1, K1'. fold pushed in K1, K1'.
  assert (Himp : impulses fx = (if attack_event i then pushed else [])
                 /\ overlap_queries fx
                    = (if attack_event i then [(attack_center aimed, 8.0)] else [])).
  { match type of Hfx with _ = b ++ ?m ++ a =>
      destruct (harmless_app b (m ++ a) Hb) as (E1 & E2 & _);
      destruct (harmless_app_r m a Ha) as (E3 & E4 & _) end.
    rewrite Hfx, E1, E2, E3, E4.
    destruct (attack_event i); [|now split].
    rewrite impulses_cons, overlap_queries_cons, K1, K2. now split. }
  assert (Himp3 : impulses fx3 = (if attack_event i then pushed else [])
                  /\ overlap_queries fx3
                     = (if attack_event i then [(attack_center aimed, 8.0)] else [])).
  { match type of Hfx3 with _ = b3 ++ ?m ++ a3 =>
      destruct (harmless_app b3 (m ++ a3) Hb3) as (E1 & E2 & _);
      destruct (harmless_app_r m a3 Ha3) as (E3 & E4 & _) end.
    rewrite Hfx3, E1, E2, E3, E4.
    destruct (attack_event i); [|now split].
    rewrite !impulses_cons, !overlap_queries_cons, K1', K2'. now split. }
  destruct Himp as [I1 Q1]. destruct Himp3 as [I3 Q3].
  split; [|split].
  - intros E. rewrite E in *. now repeat split.
  - intros E. rewrite E in *. now repeat split.
  - intros h v Hin.
    assert (Hp : (h, v) ∈ pushed).
    { rewrite I1, I3 in Hin.
      destruct (attack_event i); [now destruct Hin|].
      destruct Hin as [H|H]; inversion H. }
    unfold pushed in Hp. apply list_elem_of_fmap in Hp as (h' & [= -> ->] & Hh).
    apply list_elem_of_filter in Hh. exact Hh.
Qed.

Lemma attack_hits_witness :
  attack_event strike = true
  /\ impulses (NGame.update level strike (1 # 60) fox NGame.new_scene).2
     = [(8%nat, v2 10.0 (-10.0)); (12%nat, v2 10.0 (-10.0))].
Proof.
  split; [reflexivity|].
  exact (proj1 (proj1 (attack_hits level no_draws strike (1 # 60) fox
                         NGame.new_scene fresh_scene3 empty_game) eq_refl)).
Defined.

(** X6: the hit sound.  In level 1 it is played once for every body pushed,
    so not at all when the attack reaches nobody; in level 3 it is played
    exactly once per attack, whether or not a body is reached. *)
Theorem hit_sounds (level_size : Vec2) (draws : nat -> NGame3.Draw)
    (i : Input) (delta_time : Q) (c : NCharacter)
    (s : NGame.NScene) (s3 : NGame3.NScene3) (g : Game) :
  let fx := (NGame.update level_size i delta_time c s).2 in
  let fx3 := (NGame3.update level_size draws i delta_time c s3 g).2 in
  plays "hit" fx = length (impulses fx)
  /\ plays "hit" fx3 = (if attack_event i then 1 else 0)%nat.
Proof.
  intros fx fx3.
  destruct (update_effects level_size i delta_time c s) as (b & a & Hfx & Hb & Ha).
  destruct (update3_effects level_size draws i delta_time c s3 g)
    as (b3 & a3 & Hfx3 & Hb3 & Ha3).
  fold fx in Hfx. fold fx3 in Hfx3.
  rewrite attack_step_effects in Hfx. rewrite attack_step3_effects in Hfx3.
  destruct (knockback_impulses (steer i c).1 (overlapping i)) as (K1 & _ & K3).
  destruct (knockback3_impulses (steer i c).1 (overlapping i)) as (_ & _ & K3').
  split.
  - match type of Hfx with _ = b ++ ?m ++ a =>
      destruct (harmless_app b (m ++ a) Hb) as (E1 & _ & E2);
      destruct (harmless_app_r m a Ha) as (E3 & _ & E4) end.
    rewrite Hfx, E1, E2, E3, E4.
    destruct (attack_event i); [|reflexivity].
    rewrite plays_cons, impulses_cons, K1, K3, length_map. reflexivity.
  - match type of Hfx3 with _ = b3 ++ ?m ++ a3 =>
      destruct (harmless_app b3 (m ++ a3) Hb3) as (_ & _ & E2);
      destruct (harmless_app_r m a3 Ha3) as (_ & _ & E4) end.
    rewrite Hfx3, E2, E4.
    destruct (attack_event i); [|reflexivity].
    rewrite !plays_cons, K3'. reflexivity.
Qed.

(** ** What an update changes of the character *)

Section Untouched.

Variables (level_size : Vec2) (draws : nat -> NGame3.Draw).
Variables (i : Input) (delta_time : Q).

Lemma before_goal_active c :
  is_active (attack_opened i delta_time (fall_through_step i delta_time (steer i c).1))
  = is_active c
  /\ player_number
       (attack_opened i delta_time (fall_through_step i delta_time (steer i c).1))
     = player_number c.
Proof.
  split.
  - unfold attack_opened, tick_attack, fall_through_step, tick_fall_through,
      start_fall_through, steer.
    destruct (attack_event i), (down_event i); simpl;
      repeat (match goal with |- context [if ?b then _ else _] => destruct b end;
              simpl); reflexivity.
  - destruct (attack_opened_keeps i delta_time
                (fall_through_step i delta_time (steer i c).1))
      as (_ & _ & _ & _ & -> & _).
    destruct (fall_through_step_keeps i delta_time (steer i c).1)
      as (_ & _ & _ & _ & -> & _).
    apply steer_keeps.
Qed.

Lemma relocation_keeps (b : bool) c :
  is_active (NGame.respawn_step level_size c).1 = is_active c
  /\ player_number (NGame.respawn_step level_size c).1 = player_number c
  /\ body (cbody (NGame.respawn_step level_size c).1) = body (cbody c)
  /\ is_active (NGame3.wrap_and_respawn level_size c).1 = is_active c
  /\ player_number (NGame3.wrap_and_respawn level_size c).1 = player_number c
  /\ body (cbody (NGame3.wrap_and_respawn level_size c).1) = body (cbody c)
  /\ is_active ((if b then to_spawn else id) c) = is_active c
  /\ player_number ((if b then to_spawn else id) c) = player_number c
  /\ body (cbody ((if b then to_spawn else id) c)) = body (cbody c)
  /\ p ((if b then to_spawn else id) c) = p c.
Proof.
  unfold NGame.respawn_step, NGame3.wrap_and_respawn.
  destruct b; destruct (Num.ltb _ _); destruct (Num.leb _ _);
    try destruct (Num.leb _ _); repeat split.
Qed.

(** The character after an update, field by field. *)
Lemma update_fields c s :
  let c' := (NGame.update level_size i delta_time c s).1.1 in
  p c' = p c /\ player_number c' = player_number c
  /\ body (cbody c') = body (cbody c)
  /\ is_active c' = (if wins_now i c then false else is_active c).
Proof.
  intros c'. unfold c'. rewrite update_char.
  set (c1 := attack_opened i delta_time _).
  destruct (before_goal_keeps i delta_time c) as (Hb & Hp & Hw & Hwn).
  destruct (before_goal_active c) as (Ha & Hn).
  fold c1 in Hb, Hp, Hw, Hwn, Ha, Hn.
  destruct (relocation_keeps false (NGame.goal_step i c1 s).1)
    as (-> & -> & -> & _).
  destruct (respawn_step_keeps level_size (NGame.goal_step i c1 s).1)
    as (_ & _ & _ & ->).
  rewrite goal_step_char, Hwn.
  destruct (wins_now i c); simpl; rewrite ?Hp, ?Hn, ?Hb, ?Ha; repeat split.
Qed.

Lemma update3_fields c s g :
  let c' := (NGame3.update level_size draws i delta_time c s g).1.1.1 in
  p c' = p c /\ player_number c' = player_number c
  /\ body (cbody c') = body (cbody c)
  /\ is_active c' = (if wins_now i c then false else is_active c).
Proof.
  intros c'. unfold c'. rewrite update3_char.
  set (c1 := attack_opened i delta_time _).
  destruct (before_goal_keeps i delta_time c) as (Hb & Hp & Hw & Hwn).
  destruct (before_goal_active c) as (Ha & Hn).
  fold c1 in Hb, Hp, Hw, Hwn, Ha, Hn.
  set (c2 := (NGame3.goal_step i c1 s g).1.1.1).
  assert (H2 : p c2 = p c /\ player_number c2 = player_number c
               /\ body (cbody c2) = body (cbody c)
               /\ is_active c2 = (if wins_now i c then false else is_active c)).
  { unfold c2. rewrite goal_step3_char, Hwn.
    destruct (wins_now i c); simpl; rewrite ?Hp, ?Hn, ?Hb, ?Ha; repeat split. }
  clearbody c2. destruct H2 as (H2p & H2n & H2b & H2a).
  destruct (relocation_keeps (bombed i) c2) as (_ & _ & _ & _ & _ & _ & Ba & Bn & Bb & Bp).
  set (c3 := (if bombed i then to_spawn else id) c2) in *. clearbody c3.
  destruct (relocation_keeps false c3) as (_ & _ & _ & -> & -> & -> & _).
  destruct (wrap_and_respawn_keeps level_size c3) as (_ & _ & _ & ->).
  repeat split; congruence.
Qed.

End Untouched.

(** X7: what an update never touches, and when it leaves the body alone.  In
    either level an update keeps the character's parameters (so its spawn
    point), its player number and the handle of its physics body.  The body's
    position, velocity and enabled flag are changed by four events only: in
    level 1, unless the character becomes a winner in this update or is more
    than 200 pixels below the level, its body comes out unchanged; in level 3
    the same holds when moreover it touches no bomb and is strictly between
    the left and right edge. *)
Theorem update_leaves_body (level_size : Vec2) (draws : nat -> NGame3.Draw)
    (i : Input) (delta_time : Q) (c : NCharacter)
    (s : NGame.NScene) (s3 : NGame3.NScene3) (g : Game) :
  let c' := (NGame.update level_size i delta_time c s).1.1 in
  let c3 := (NGame3.update level_size draws i delta_time c s3 g).1.1.1 in
  (p c' = p c /\ player_number c' = player_number c
   /\ body (cbody c') = body (cbody c))
  /\ (p c3 = p c /\ player_number c3 = player_number c
      /\ body (cbody c3) = body (cbody c))
  /\ (wins_now i c = false ->
      vy (position_pixels (cbody c)) <= vy level_size + 200 ->
      cbody c' = cbody c
      /\ (bombed i = false ->
          0 < vx (position_pixels (cbody c)) ->
          vx (position_pixels (cbody c)) < vx level_size ->
          cbody c3 = cbody c)).
Proof.
  intros c' c3.
  destruct (update_fields level_size i delta_time c s) as (A1 & A2 & A3 & _).
  destruct (update3_fields level_size draws i delta_time c s3 g) as (B1 & B2 & B3 & _).
  split; [now repeat split|]. split; [now repeat split|].
  intros Hw Hy.
  destruct (before_goal_keeps i delta_time c) as (Hb & Hp & _).
  split.
  - unfold c'. rewrite (update_no_win level_size i delta_time c s Hw).
    set (c1 := attack_opened i delta_time _) in *. clearbody c1.
    unfold NGame.respawn_step, get_position_pixels. rewrite Hb.
    replace (Num.ltb _ _) with false by (symmetry; apply NumFacts.ltb_ge; lra).
    exact Hb.
  - intros Hbomb Hx0 Hx1. unfold c3.
    rewrite (update3_no_win_no_bomb level_size draws i delta_time c s3 g Hw Hbomb).
    set (c1 := attack_opened i delta_time _) in *. clearbody c1.
    unfold NGame3.wrap_and_respawn, get_position_pixels. rewrite Hb.
    replace (Num.ltb _ _) with false by (symmetry; apply NumFacts.ltb_ge; lra).
    replace (Num.leb (vx _) 0.0) with false
      by (symmetry; apply NumFacts.leb_gt; lra).
    replace (Num.leb _ _) with false by (symmetry; apply NumFacts.leb_gt; lra).
    exact Hb.
Qed.

Lemma update_leaves_body_witness :
  wins_now idle fox = false
  /\ vy (position_pixels (cbody fox)) <= vy level + 200
  /\ cbody (NGame.update level idle (1 # 60) fox NGame.new_scene).1.1 = cbody fox.
Proof.
  assert (H1 : wins_now idle fox = false) by reflexivity.
  assert (H2 : vy (position_pixels (cbody fox)) <= vy level + 200) by discriminate.
  split; [exact H1|]. split; [exact H2|].
  exact (proj1 (proj2 (proj2 (update_leaves_body level no_draws idle (1 # 60) fox
                                NGame.new_scene fresh_scene3 empty_game)) H1 H2)).
Defined.

Lemma step_active c c' :
  step c c' -> is_active c = negb (has_won c) -> is_active c' = negb (has_won c').
Proof.
  intros Hs Hinv. destruct Hs.
  - destruct (update_fields level_size i delta_time c s) as (_ & _ & _ & ->).
    rewrite update_has_won. unfold wins_now.
    destruct (has_won c); simpl in *; [exact Hinv|].
    destruct (existsb _ _); [reflexivity|exact Hinv].
  - destruct (update3_fields level_size draws i delta_time c s g) as (_ & _ & _ & ->).
    rewrite update3_has_won. unfold wins_now.
    destruct (has_won c); simpl in *; [exact Hinv|].
    destruct (existsb _ _); [reflexivity|exact Hinv].
  - exact Hinv.
Qed.

(** X8: a character is active exactly as long as it has not won.  Over every
    history from its creation, [is_active] is the negation of [has_won]:
    reaching the goal is the only thing that deactivates a character, and
    neither bombs nor respawns nor world-wraps reactivate it. *)
Theorem active_until_won (params : CharacterParams) (number : nat) (h : BodyHandle)
    (c : NCharacter) :
  evolves (new_character params number h) c ->
  is_active c = negb (has_won c).
Proof.
  induction 1 as [|c1 c2 _ IH Hs]; [reflexivity|].
  now apply (step_active c1 c2).
Qed.

Lemma active_until_won_witness :
  evolves fox fox_at_goal /\ is_active fox_at_goal = negb (has_won fox_at_goal).
Proof.
  assert (H : evolves fox fox_at_goal).
  { eapply evolves_step; [apply evolves_refl|apply step_update]. }
  split; [exact H|].
  exact (active_until_won fox_params 1%nat 7%nat fox_at_goal H).
Defined.

(** ** The frame in which a character reaches the goal *)

Section World.

Variables (level_size : Vec2) (draws : nat -> NGame3.Draw).
Variables (i : Input) (delta_time : Q).

Lemma goal_step3_world c s g :
  (NGame3.goal_step i c s g).1.1.2
  = (if wins_now i c then (NGame3.add_winner (player_number c) s g).1.1 else s)
  /\ (NGame3.goal_step i c s g).1.2
     = (if wins_now i c then (NGame3.add_winner (player_number c) s g).1.2 else g).
Proof.
  unfold NGame3.goal_step, wins_now. destruct (has_won c); simpl; [now split|].
  rewrite scan_goal3_spec. destruct (existsb _ _); [|now split].
  unfold NGame3.win. simpl.
  destruct (NGame3.add_winner (player_number c) s g) as [[s' g'] fx]. now split.
Qed.

(** The scene and the store after an update of level 3. *)
Lemma update3_world c s g :
  let won := wins_now i c in
  let told := NGame3.add_winner (player_number c) s g in
  (NGame3.update level_size draws i delta_time c s g).1.2
  = (if won then told.1.2 else g)
  /\ exists pos,
       (NGame3.update level_size draws i delta_time c s g).1.1.2
       = (if bombed i then NGame3.spawn_blood_particles draws pos else id)
           (if won then told.1.1 else s).
Proof.
  intros won told. unfold NGame3.update.
  destruct (steer i c) as [c1 fx1] eqn:E1. simpl.
  pose proof (attack_step3_char i delta_time (fall_through_step i delta_time c1)) as Hc2.
  destruct (NGame3.attack_step _ _ _) as [c2 fx2]. simpl in Hc2. subst c2.
  destruct (before_goal_keeps i delta_time c) as (_ & _ & _ & Hwn).
  destruct (before_goal_active i delta_time c) as (_ & Hn).
  rewrite E1 in Hwn, Hn. simpl in Hwn, Hn.
  destruct (goal_step3_world
              (attack_opened i delta_time (fall_through_step i delta_time c1)) s g)
    as [Hs Hg].
  rewrite Hwn, Hn in Hs, Hg.
  destruct (NGame3.goal_step _ _ _ _) as [[[c3 s3] g3] fx3]. simpl in Hs, Hg.
  rewrite scan_bomb_spec. fold (bombed i).
  destruct (bombed i); simpl.
  - destruct (NGame3.wrap_and_respawn _ _) as [c5 fx5]. simpl.
    split; [exact Hg|]. exists (get_position_pixels (cbody c3)). now rewrite Hs.
  - destruct (NGame3.wrap_and_respawn _ _) as [c5 fx5]. simpl.
    split; [exact Hg|]. exists (v2 0 0). exact Hs.
Qed.

End World.

(** X9: the frame in which a character reaches the goal (level height not
    negative).  In level 1 the update leaves it won, inactive, its body
    disabled, stopped and parked at (-1000, -1000).  In level 3, if it touches
    no bomb in that frame, the world-wrap that follows sees x = -1000 <= 0 and
    the body ends at (levelWidth, -1000) instead, equally disabled and
    stopped; and a player not yet among the winners gets the scene's elapsed
    time as completion time, in the scene and in the level-3 results store. *)
Theorem winning_frame (level_size : Vec2) (draws : nat -> NGame3.Draw)
    (i : Input) (delta_time : Q) (c : NCharacter)
    (s : NGame.NScene) (s3 : NGame3.NScene3) (g : Game) :
  0 <= vy level_size ->
  has_won c = false ->
  existsb (tagged "goal") (contacts i) = true ->
  let r := NGame.update level_size i delta_time c s in
  let r3 := NGame3.update level_size draws i delta_time c s3 g in
  (has_won r.1.1 = true /\ is_active r.1.1 = false
   /\ cbody r.1.1
      = mkBody (body (cbody c)) (v2 (-1000.0) (-1000.0)) (v2 0.0 0.0) false)
  /\ (has_won r3.1.1.1 = true /\ is_active r3.1.1.1 = false)
  /\ (bombed i = false ->
      cbody r3.1.1.1
      = mkBody (body (cbody c)) (v2 (vx level_size) (-1000.0)) (v2 0.0 0.0) false)
  /\ (player_number c ∉ NGame3.winners s3 ->
      NGame3.player_completion_times r3.1.1.2 !! player_number c
      = Some (NGame3.elapsed_time s3)
      /\ default ∅ (player_times_level3 r3.1.2) !! player_number c
         = Some (NGame3.elapsed_time s3)).
Proof.
  intros Hh Hw Hgoal r r3.
  assert (Hwn : wins_now i c = true) by (unfold wins_now; now rewrite Hw, Hgoal).
  destruct (before_goal_keeps i delta_time c) as (Hb & Hp & _ & Hwn').
  split; [|split; [|split]].
  - unfold r. rewrite update_has_won, Hgoal, orb_true_r.
    destruct (update_fields level_size i delta_time c s) as (_ & _ & _ & ->).
    rewrite Hwn. split; [reflexivity|]. split; [reflexivity|].
    rewrite update_char, goal_step_char, Hwn', Hwn.
    set (c1 := attack_opened i delta_time _) in *. clearbody c1.
    unfold NGame.respawn_step, vanish, get_position_pixels. simpl.
    replace (Num.ltb _ _) with false by (symmetry; apply NumFacts.ltb_ge; lra).
    simpl. now rewrite Hb.
  - unfold r3. rewrite update3_has_won, Hgoal, orb_true_r.
    destruct (update3_fields level_size draws i delta_time c s3 g) as (_ & _ & _ & ->).
    rewrite Hwn. now split.
  - intros Hbomb. unfold r3.
    rewrite update3_char, goal_step3_char, Hwn', Hwn, Hbomb.
    set (c1 := attack_opened i delta_time _) in *. clearbody c1.
    unfold NGame3.wrap_and_respawn, vanish, get_position_pixels,
      get_velocity_pixels. simpl.
    replace (Num.ltb _ _) with false by (symmetry; apply NumFacts.ltb_ge; lra).
    simpl. now rewrite Hb.
  - intros Hfresh. unfold r3.
    destruct (update3_world level_size draws i delta_time c s3 g)
      as (Hg & pos & Hs).
    rewrite Hg, Hs, Hwn. unfold NGame3.add_winner.
    rewrite bool_decide_eq_false_2 by exact Hfresh. simpl.
    split.
    + destruct (bombed i); simpl; apply lookup_insert_eq.
    + apply lookup_insert_eq.
Qed.

Lemma winning_frame_witness :
  0 <= vy level
  /\ has_won fox = false
  /\ existsb (tagged "goal") (contacts touch_goal) = true
  /\ cbody (NGame3.update level no_draws touch_goal (1 # 60) fox
                          late_scene3 late_game).1.1.1
     = mkBody 7%nat (v2 640 (-1000.0)) (v2 0.0 0.0) false.
Proof.
  assert (H1 : 0 <= vy level) by discriminate.
  assert (H2 : has_won fox = false) by reflexivity.
  assert (H3 : existsb (tagged "goal") (contacts touch_goal) = true) by reflexivity.
  split; [exact H1|]. split; [exact H2|]. split; [exact H3|].
  destruct (winning_frame level no_draws touch_goal (1 # 60) fox
              NGame.new_scene late_scene3 late_game H1 H2 H3) as (_ & _ & H & _).
  exact (H eq_refl).
Defined.

(** X10: no goal contact, no registration.  An update in which none of the
    character's contacts carries the goal tag, or whose character has already
    won, leaves [has_won] as it was and changes neither the winners, the
    winner display times and the completion times of the scene nor the
    results store; bombs, respawns and attacks never register anything. *)
Theorem no_goal_no_registration (level_size : Vec2) (draws : nat -> NGame3.Draw)
    (i : Input) (delta_time : Q) (c : NCharacter)
    (s : NGame.NScene) (s3 : NGame3.NScene3) (g : Game) :
  has_won c = true \/ existsb (tagged "goal") (contacts i) = false ->
  let r := NGame.update level_size i delta_time c s in
  let r3 := NGame3.update level_size draws i delta_time c s3 g in
  has_won r.1.1 = has_won c /\ has_won r3.1.1.1 = has_won c
  /\ r.1.2 = s
  /\ r3.1.2 = g
  /\ NGame3.winners r3.1.1.2 = NGame3.winners s3
  /\ NGame3.winner_times r3.1.1.2 = NGame3.winner_times s3
  /\ NGame3.player_completion_times r3.1.1.2 = NGame3.player_completion_times s3
  /\ NGame3.elapsed_time r3.1.1.2 = NGame3.elapsed_time s3.
Proof.
  intros Hno r r3.
  assert (Hwn : wins_now i c = false).
  { unfold wins_now. destruct Hno as [-> | ->]; [reflexivity|apply andb_false_r]. }
  split; [|split; [|split; [|split]]].
  - unfold r. rewrite update_has_won.
    destruct Hno as [-> | ->]; [reflexivity|apply orb_false_r].
  - unfold r3. rewrite update3_has_won.
    destruct Hno as [-> | ->]; [reflexivity|apply orb_false_r].
  - unfold r. rewrite update_scene, goal_step_scene.
    destruct (before_goal_keeps i delta_time c) as (_ & _ & _ & ->).
    now rewrite Hwn.
  - unfold r3.
    destruct (update3_world level_size draws i delta_time c s3 g) as (-> & _).
    now rewrite Hwn.
  - unfold r3.
    destruct (update3_world level_size draws i delta_time c s3 g) as (_ & pos & ->).
    rewrite Hwn. destruct (bombed i); repeat split.
Qed.

Lemma no_goal_no_registration_witness :
  (has_won fox = true \/ existsb (tagged "goal") (contacts strike) = false)
  /\ (NGame3.update level no_draws strike (1 # 60) fox late_scene3 late_game).1.2
     = late_game.
Proof.
  assert (H : has_won fox = true \/ existsb (tagged "goal") (contacts strike) = false)
    by (right; reflexivity).
  split; [exact H|].
  destruct (no_goal_no_registration level no_draws strike (1 # 60) fox
              NGame.new_scene late_scene3 late_game H) as (_ & _ & _ & H4 & _).
  exact H4.
Defined.

(** ** Winner displays *)

Lemma age_winner_lookup delta_time duration (m : gmap nat Q) x k :
  NGame.age_winner delta_time duration m x !! k
  = if decide (k = x) then m !! x ≫= aged delta_time duration else m !! k.
Proof.
  unfold NGame.age_winner, aged.
  destruct (decide (k = x)) as [->|Hne].
  - rewrite lookup_alter_eq. destruct (m !! x) as [t|] eqn:E; simpl.
    + destruct (Num.ltb _ _); [apply lookup_delete_eq|].
      rewrite lookup_alter_eq, E. reflexivity.
    + rewrite lookup_alter_eq, E. reflexivity.
  - destruct (alter _ x m !! x) as [t|]; [destruct (Num.ltb _ _)|];
      rewrite ?lookup_delete_ne by congruence;
      rewrite lookup_alter_ne by congruence; reflexivity.
Qed.

Lemma age_winners_fold delta_time duration (keys : list nat) :
  NoDup keys ->
  forall (m : gmap nat Q) k,
    foldl (NGame.age_winner delta_time duration) m keys !! k
    = if decide (k ∈ keys) then m !! k ≫= aged delta_time duration else m !! k.
Proof.
  induction 1 as [|x keys Hx Hnd IH]; intros m k.
  - destruct (decide (k ∈ [])) as [Hin|_]; [inversion Hin|reflexivity].
  - cbn [foldl]. rewrite IH, !age_winner_lookup.
    destruct (decide (k = x)) as [->|Hne].
    + destruct (decide (x ∈ keys)) as [?|_]; [contradiction|].
      destruct (decide (x ∈ x :: keys)) as [_|Hout]; [reflexivity|].
      destruct Hout. left.
    + destruct (decide (k ∈ keys)) as [Hin|Hout];
        destruct (decide (k ∈ x :: keys)) as [Hin'|Hout']; try reflexivity.
      * destruct Hout'. now right.
      * apply elem_of_cons in Hin' as [?|?]; contradiction.
Qed.

Lemma age_all_lookup delta_time duration (m : gmap nat Q) k :
  foldl (NGame.age_winner delta_time duration) m (map fst (map_to_list m)) !! k
  = m !! k ≫= aged delta_time duration.
Proof.
  rewrite age_winners_fold by apply NoDup_fst_map_to_list.
  destruct (decide _) as [Hin|Hout]; [reflexivity|].
  destruct (m !! k) as [t|] eqn:E; [|reflexivity].
  destruct Hout. apply list_elem_of_fmap. exists (k, t).
  split; [reflexivity|]. now apply elem_of_map_to_list.
Qed.

(** X11: the loop that ages the winner displays, which deletes from the
    dictionary it walks.  After [NScene.update] (and after the same loop of
    [NScene3.update]) every display time has grown by [delta_time], the
    entries whose time then exceeds the display duration are gone, no entry
    appears, and the winners list and the other fields are untouched; Enter
    requests the next scene once. *)
Theorem winner_displays_age (delta_time : Q) (key_enter pad_start : bool)
    (s : NGame.NScene) (s3 : NGame3.NScene3) (k : nat) :
  let r := NGame.scene_update delta_time key_enter pad_start s in
  NGame.winner_times r.1 !! k
  = NGame.winner_times s !! k ≫= aged delta_time (NGame.winner_display_duration s)
  /\ NGame3.winner_times (NGame3.age_winners delta_time s3) !! k
     = NGame3.winner_times s3 !! k
         ≫= aged delta_time (NGame3.winner_display_duration s3)
  /\ NGame.winners r.1 = NGame.winners s
  /\ NGame.platforms r.1 = NGame.platforms s
  /\ NGame.winner_display_duration r.1 = NGame.winner_display_duration s
  /\ r.2 = (if key_enter || pad_start then [GoToSceneNext] else []).
Proof.
  intros r. unfold r, NGame.scene_update, NGame3.age_winners. simpl.
  split; [apply age_all_lookup|]. split; [apply age_all_lookup|].
  repeat split.
Qed.






(** ** Blood particles *)






(** ** The exits of [NScene3.update] *)

Section Exits.

Import NGame3.

Variables (characters : list NCharacter) (i : SceneInput) (delta_time : Q).

Lemma silence_spec s :
  same_but_sounds s (silence s).1
  /\ clock_playing (silence s).1 = false
  /\ music_playing (silence s).1 = false
  /\ forallb is_sound (silence s).2 = true.
Proof.
  unfold silence, same_but_sounds.
  destruct (clock_playing s) eqn:E1, (music_playing s) eqn:E2; simpl;
    repeat split; assumption.
Qed.

Lemma same_but_sounds_trans s1 s2 s3 :
  same_but_sounds s1 s2 -> same_but_sounds s2 s3 -> same_but_sounds s1 s3.
Proof.
  unfold same_but_sounds.
  intros (A1 & A2 & A3 & A4 & A5 & A6 & A7 & A8 & A9)
         (B1 & B2 & B3 & B4 & B5 & B6 & B7 & B8 & B9).
  repeat split; congruence.
Qed.

Lemma same_but_sounds_refl s : same_but_sounds s s.
Proof. unfold same_but_sounds. repeat split. Qed.

(** The three exits, one after the other. *)
Lemma scene_update_shape s g :
  let s2 := at_exits i delta_time s in
  let fx1 := (sound_step i
                (with_particles (update_particles delta_time (blood_particles s))
                   (with_clock (elapsed_time s + delta_time)
                               (clock_playing s) (music_playing s) s))).2 in
  scene_update characters i delta_time s g
  = if (size (player_completion_times s2) =? length characters)%nat
       && (0 <? length characters)%nat && displays_over s2
    then ((silence s2).1, g, fx1 ++ (silence s2).2 ++ [GoToSceneNext])
    else
      let r := if Num.leb (time_limit s2) (elapsed_time s2)
               then time_out characters s2 g else (s2, g, []) in
      ((enter_step i r.1.1).1, r.1.2, fx1 ++ r.2 ++ (enter_step i r.1.1).2).
Proof.
  intros s2 fx1. unfold scene_update, s2, fx1, at_exits.
  destruct (sound_step i _) as [s1 f1]. simpl.
  destruct (_ && _).
  - destruct (silence _) as [s3 f2]. reflexivity.
  - destruct (Num.leb _ _).
    + destruct (time_out _ _ _) as [[s3 g3] f3]. simpl.
      destruct (enter_step i s3) as [s4 f4]. reflexivity.
    + simpl. destruct (enter_step i _) as [s4 f4]. reflexivity.
Qed.

Lemma at_exits_fields s :
  let s2 := at_exits i delta_time s in
  elapsed_time s2 = elapsed_time s + delta_time
  /\ time_limit s2 = time_limit s
  /\ player_completion_times s2 = player_completion_times s
  /\ winners s2 = winners s
  /\ platforms s2 = platforms s /\ bombs s2 = bombs s
  /\ winner_display_duration s2 = winner_display_duration s
  /\ (clock_playing s2 = true ->
      music_playing s2 = false
      /\ 0 < time_limit s - (elapsed_time s + delta_time)
      /\ time_limit s - (elapsed_time s + delta_time) <= 20).
Proof.
  intros s2. unfold s2, at_exits, sound_step. simpl.
  destruct (Num.leb _ 20.0) eqn:E1; destruct (Num.ltb 0.0 _) eqn:E2; simpl;
    destruct (music_playing s), (clock_playing s), (clock_sound_playing i);
    simpl; repeat split; try discriminate;
    try (apply NumFacts.ltb_lt in E2; lra);
    try (apply NumFacts.leb_le in E1; lra).
Qed.

Lemma time_out_scene s g :
  (time_out characters s g).1.1 = (silence s).1
  /\ exists writes,
       (time_out characters s g).2 = (silence s).2 ++ writes ++ [GoToSceneNext]
       /\ forallb is_store writes = true.
Proof.
  unfold time_out. destruct (silence s) as [s' fx1]. simpl.
  destruct (assign_dnf_spec characters 0 (player_completion_times s') (ensure_level3 g))
    as (_ & H & _).
  destruct (assign_dnf _ _ _ _) as [g' fx2]. simpl in *.
  split; [reflexivity|]. exists fx2. split; [reflexivity|].
  apply forallb_forall. intros e He. apply list_elem_of_In in He.
  destruct (H e He) as [n ->]. reflexivity.
Qed.

Lemma enter_step_spec s :
  enter_step i s
  = if key_enter_pressed i || pad_start_pressed i
    then ((silence s).1, (silence s).2 ++ [GoToSceneNext])
    else (s, []).
Proof.
  unfold enter_step. destruct (_ || _); [|reflexivity].
  destruct (silence s). reflexivity.
Qed.

End Exits.

Lemma at_exits_displays i delta_time s k :
  NGame3.winner_times (at_exits i delta_time s) !! k
  = NGame3.winner_times s !! k
      ≫= aged delta_time (NGame3.winner_display_duration s).
Proof.
  unfold at_exits.
  set (s0 := NGame3.with_particles _ _).
  assert (H0 : NGame3.winner_times s0 = NGame3.winner_times s
               /\ NGame3.winner_display_duration s0
                  = NGame3.winner_display_duration s) by (split; reflexivity).
  clearbody s0. destruct H0 as [<- <-].
  assert (H1 : NGame3.winner_times (NGame3.sound_step i s0).1 = NGame3.winner_times s0
               /\ NGame3.winner_display_duration (NGame3.sound_step i s0).1
                  = NGame3.winner_display_duration s0).
  { unfold NGame3.sound_step.
    destruct (_ && _); destruct (NGame3.music_playing s0);
      destruct (NGame3.clock_playing s0); destruct (NGame3.clock_sound_playing i);
      split; reflexivity. }
  destruct H1 as [H1 H2]. unfold NGame3.age_winners. simpl.
  rewrite H1, H2. apply age_all_lookup.
Qed.

Section ExitTheorems.

Import NGame3.

Variables (characters : list NCharacter) (i : SceneInput) (delta_time : Q).

(** The scene an update returns is the scene at the exits, possibly
    silenced. *)
Lemma scene_update_scene s g :
  let s2 := at_exits i delta_time s in
  let s' := (scene_update characters i delta_time s g).1.1 in
  same_but_sounds s2 s'
  /\ ((clock_playing s' = clock_playing s2 /\ music_playing s' = music_playing s2)
      \/ (clock_playing s' = false /\ music_playing s' = false)).
Proof.
  intros s2 s'. unfold s'. rewrite scene_update_shape. fold s2.
  destruct (_ && _); simpl.
  - destruct (silence_spec s2) as (H1 & H2 & H3 & _). split; [exact H1|now right].
  - rewrite !enter_step_spec.
    destruct (Num.leb _ _); simpl.
    + destruct (time_out_scene characters s2 g) as [-> _].
      destruct (silence_spec s2) as (H1 & H2 & H3 & _).
      destruct (_ || _); simpl.
      * destruct (silence_spec (silence s2).1) as (H1' & H2' & H3' & _).
        split; [eapply same_but_sounds_trans; eassumption|now right].
      * split; [exact H1|now right].
    + destruct (_ || _); simpl.
      * destruct (silence_spec s2) as (H1 & H2 & H3 & _).
        split; [exact H1|now right].
      * split; [apply same_but_sounds_refl|now left].
Qed.

End ExitTheorems.

(** X14: what a frame of [NScene3.update] does to the scene, on every path
    through it.  The elapsed time grows by exactly [delta_time]; the time
    limit, the winners, the completion times, the platforms and the bombs are
    left alone; the winner displays are aged as in level 1.  The ticking clock
    and the music are never both flagged as playing afterwards, and the clock
    is flagged only while between 0 (exclusive) and 20 seconds (inclusive)
    remain. *)
Theorem scene3_update_frame (characters : list NCharacter) (i : NGame3.SceneInput)
    (delta_time : Q) (s : NGame3.NScene3) (g : Game) (k : nat) :
  let s' := (NGame3.scene_update characters i delta_time s g).1.1 in
  NGame3.elapsed_time s' = NGame3.elapsed_time s + delta_time
  /\ NGame3.time_limit s' = NGame3.time_limit s
  /\ NGame3.winners s' = NGame3.winners s
  /\ NGame3.player_completion_times s' = NGame3.player_completion_times s
  /\ NGame3.platforms s' = NGame3.platforms s
  /\ NGame3.bombs s' = NGame3.bombs s
  /\ NGame3.winner_times s' !! k
     = NGame3.winner_times s !! k
         ≫= aged delta_time (NGame3.winner_display_duration s)
  /\ (NGame3.clock_playing s' = true ->
      NGame3.music_playing s' = false
      /\ 0 < NGame3.time_limit s - (NGame3.elapsed_time s + delta_time)
      /\ NGame3.time_limit s - (NGame3.elapsed_time s + delta_time) <= 20).
Proof.
  intros s'.
  destruct (scene_update_scene characters i delta_time s g)
    as ((A1 & A2 & A3 & A4 & A5 & A6 & A7 & A8 & A9) & Hflags).
  fold s' in A1, A2, A3, A4, A5, A6, A7, A8, A9, Hflags.
  pose proof (at_exits_fields i delta_time s) as HB. cbv zeta in HB.
  destruct HB as (B1 & B2 & B3 & B4 & B5 & B6 & B7 & B8).
  split; [congruence|]. split; [congruence|]. split; [congruence|].
  split; [congruence|]. split; [congruence|]. split; [congruence|].
  split; [|intros H; repeat split].
  - rewrite A4. apply at_exits_displays.
  - destruct Hflags as [[H1 H2]|[H1 H2]]; [|congruence].
    rewrite H1 in H. rewrite H2. now apply B8.
  - destruct Hflags as [[H1 H2]|[H1 H2]]; [|congruence].
    rewrite H1 in H. now apply B8.
  - destruct Hflags as [[H1 H2]|[H1 H2]]; [|congruence].
    rewrite H1 in H. now apply B8.
Qed.

Lemma scene3_update_frame_witness :
  NGame3.clock_playing
    (NGame3.scene_update three_foxes quiet (1 # 50)
       (NGame3.mkScene [ledge] [] [] ∅ 3.0 120.0 110 ∅ false true []) empty_game).1.1
  = true
  /\ NGame3.music_playing
       (NGame3.scene_update three_foxes quiet (1 # 50)
          (NGame3.mkScene [ledge] [] [] ∅ 3.0 120.0 110 ∅ false true [])
          empty_game).1.1
     = false.
Proof.
  assert (H : NGame3.clock_playing
                (NGame3.scene_update three_foxes quiet (1 # 50)
                   (NGame3.mkScene [ledge] [] [] ∅ 3.0 120.0 110 ∅ false true [])
                   empty_game).1.1 = true) by reflexivity.
  split; [exact H|].
  destruct (scene3_update_frame three_foxes quiet (1 # 50)
              (NGame3.mkScene [ledge] [] [] ∅ 3.0 120.0 110 ∅ false true [])
              empty_game 0%nat) as (_ & _ & _ & _ & _ & _ & _ & H8).
  exact (proj1 (H8 H)).
Defined.

(** X15: leaving level 3.  Whenever a frame of [NScene3.update] requests the
    next scene, by whichever of its three exits, the scene comes out with
    neither the ticking clock nor the music flagged as playing; and without
    such a request the update has written nothing to the results store. *)
Theorem transition_silences (characters : list NCharacter) (i : NGame3.SceneInput)
    (delta_time : Q) (s : NGame3.NScene3) (g : Game) :
  let r := NGame3.scene_update characters i delta_time s g in
  (GoToSceneNext ∈ r.2 ->
     NGame3.clock_playing r.1.1 = false /\ NGame3.music_playing r.1.1 = false)
  /\ (GoToSceneNext ∉ r.2 ->
      r.1.2 = g /\ forallb is_sound r.2 = true).
Proof.
  intros r. unfold r. rewrite scene_update_shape.
  set (s2 := at_exits i delta_time s).
  set (fx1 := (NGame3.sound_step i _).2).
  assert (Hfx1 : forallb is_sound fx1 = true).
  { unfold fx1. apply sound_step_keeps. }
  destruct (silence_spec s2) as (_ & S2 & S3 & S4).
  destruct (_ && _); simpl.
  - split; [intros _; now split|].
    intros Hno. destruct Hno. rewrite !elem_of_app. right. right. left.
  - rewrite !enter_step_spec.
    destruct (Num.leb _ _); simpl.
    + destruct (time_out_scene characters s2 g) as [Hs (writes & Hfx & Hw)].
      rewrite Hs, Hfx.
      destruct (silence_spec (NGame3.silence s2).1) as (_ & S2' & S3' & _).
      split.
      * intros _. destruct (_ || _); simpl; now split.
      * intros Hno. destruct Hno. rewrite !elem_of_app.
        right. left. right. right. left.
    + destruct (_ || _); simpl.
      * split; [intros _; now split|].
        intros Hno. destruct Hno. rewrite !elem_of_app. right. right. left.
      * split.
        -- intros Hin. rewrite app_nil_r in Hin.
           pose proof (sounds_not_transition _ _ Hfx1 Hin). discriminate.
        -- intros _. split; [reflexivity|]. now rewrite app_nil_r.
Qed.

Lemma transition_silences_witness :
  GoToSceneNext
    ∈ (NGame3.scene_update three_foxes quiet (1 # 50) late_scene3 late_game).2
  /\ NGame3.clock_playing
       (NGame3.scene_update three_foxes quiet (1 # 50) late_scene3 late_game).1.1
     = false.
Proof.
  assert (H : GoToSceneNext
                ∈ (NGame3.scene_update three_foxes quiet (1 # 50)
                     late_scene3 late_game).2).
  { vm_compute. do 3 right. left. }
  split; [exact H|].
  exact (proj1 (proj1 (transition_silences three_foxes quiet (1 # 50)
                         late_scene3 late_game) H)).
Defined.

(** X16: no transition out of the blue.  While the time limit is not reached
    at the end of the frame, a frame of [NScene3.update] leaves the results
    store alone; if moreover Enter / Start is not pressed and somebody is
    still running (fewer completion times than characters, or no characters
    at all), it requests no scene transition and its only effects are
    sounds. *)
Theorem no_early_transition (characters : list NCharacter) (i : NGame3.SceneInput)
    (delta_time : Q) (s : NGame3.NScene3) (g : Game) :
  NGame3.elapsed_time s + delta_time < NGame3.time_limit s ->
  let r := NGame3.scene_update characters i delta_time s g in
  r.1.2 = g
  /\ (forall e, e ∈ r.2 -> is_store e = false)
  /\ (NGame3.key_enter_pressed i || NGame3.pad_start_pressed i = false ->
      size (NGame3.player_completion_times s) <> length characters
      \/ length characters = 0%nat ->
      (GoToSceneNext ∉ r.2) /\ forallb is_sound r.2 = true).
Proof.
  intros Hearly r. unfold r. rewrite scene_update_shape.
  set (s2 := at_exits i delta_time s).
  set (fx1 := (NGame3.sound_step i _).2).
  assert (Hfx1 : forallb is_sound fx1 = true).
  { unfold fx1. apply sound_step_keeps. }
  pose proof (at_exits_fields i delta_time s) as HB. cbv zeta in HB.
  destruct HB as (B1 & B2 & B3 & _). fold s2 in B1, B2, B3.
  destruct (silence_spec s2) as (_ & _ & _ & S4).
  assert (Hsnd : forall fx e, forallb is_sound fx = true -> e ∈ fx -> is_store e = false).
  { intros fx e Hfx He. pose proof (sounds_not_transition _ _ Hfx He).
    destruct e; try discriminate; reflexivity. }
  replace (Num.leb _ _) with false
    by (symmetry; apply NumFacts.leb_gt; rewrite B1, B2; exact Hearly).
  destruct (_ && _) eqn:Early; simpl.
  - split; [reflexivity|]. split.
    + intros e He. rewrite !elem_of_app in He.
      destruct He as [He|[He|He]]; [now apply (Hsnd fx1)| |].
      * now apply (Hsnd (NGame3.silence s2).2).
      * apply list_elem_of_singleton in He. now subst e.
    + intros _ Hrun. exfalso.
      apply andb_true_iff in Early as [Early _].
      apply andb_true_iff in Early as [E1 E2].
      apply Nat.eqb_eq in E1. apply Nat.ltb_lt in E2. rewrite B3 in E1.
      destruct Hrun as [Hrun|Hrun]; [contradiction|lia].
  - rewrite enter_step_spec. split; [reflexivity|]. split.
    + intros e He. destruct (_ || _); simpl in He.
      * rewrite !elem_of_app in He. destruct He as [He|[He|He]];
          [now apply (Hsnd fx1)|now apply (Hsnd (NGame3.silence s2).2)|].
        apply list_elem_of_singleton in He. now subst e.
      * rewrite app_nil_r in He. now apply (Hsnd fx1).
    + intros Hno _. rewrite Hno. simpl. rewrite app_nil_r. split; [|exact Hfx1].
      intros Hin. pose proof (sounds_not_transition _ _ Hfx1 Hin). discriminate.
Qed.

Lemma no_early_transition_witness :
  NGame3.elapsed_time fresh_scene3 + (1 # 60) < NGame3.time_limit fresh_scene3
  /\ (NGame3.scene_update three_foxes quiet (1 # 60) fresh_scene3 late_game).1.2
     = late_game.
Proof.
  assert (H : NGame3.elapsed_time fresh_scene3 + (1 # 60)
              < NGame3.time_limit fresh_scene3) by reflexivity.
  split; [exact H|].
  exact (proj1 (no_early_transition three_foxes quiet (1 # 60) fresh_scene3
                  late_game H)).
Defined.

(** ** Completion times over a whole level *)

Lemma scene_update_store characters i delta_time s g n :
  n ∈ dom (NGame3.player_completion_times s) ->
  default ∅ (player_times_level3
               (NGame3.scene_update characters i delta_time s g).1.2) !! n
  = default ∅ (player_times_level3 g) !! n.
Proof.
  intros Hn. rewrite scene_update_shape.
  pose proof (at_exits_fields i delta_time s) as HB. cbv zeta in HB.
  destruct HB as (_ & _ & B3 & _).
  destruct (_ && _); simpl; [reflexivity|].
  destruct (Num.leb _ _); simpl; [|reflexivity].
  destruct (time_out_spec characters (at_exits i delta_time s) g) as (_ & Hstore & _).
  rewrite Hstore, B3. rewrite bool_decide_eq_false_2; [reflexivity|].
  intros [_ H]. contradiction.
Qed.

Lemma scene3_step_keeps characters x y p t :
  scene3_step characters x y ->
  completions_listed x.1 ->
  NGame3.player_completion_times x.1 !! p = Some t ->
  completions_listed y.1
  /\ NGame3.player_completion_times y.1 !! p = Some t
  /\ default ∅ (player_times_level3 y.2) !! p
     = default ∅ (player_times_level3 x.2) !! p.
Proof.
  intros Hstep Hinv Hp. destruct Hstep as [i delta_time s g|player s g|draws pos s g];
    simpl in *.
  - destruct (scene_update_scene characters i delta_time s g)
      as ((_ & _ & A3 & _ & _ & _ & _ & A8 & _) & _).
    pose proof (at_exits_fields i delta_time s) as HB. cbv zeta in HB.
    destruct HB as (_ & _ & B3 & B4 & _).
    split; [|split].
    + intros q. rewrite A8, B3, A3, B4. apply Hinv.
    + now rewrite A8, B3.
    + apply scene_update_store. apply elem_of_dom. now exists t.
  - unfold NGame3.add_winner. case_bool_decide as Hin; simpl.
    + now repeat split.
    + assert (Hne : player <> p).
      { intros ->. apply Hin, Hinv. apply elem_of_dom. now exists t. }
      split; [|split].
      * intros q Hq.
        change (q ∈ dom (<[player := NGame3.elapsed_time s]>
                           (NGame3.player_completion_times s))) in Hq.
        change (q ∈ NGame3.winners s ++ [player]).
        rewrite dom_insert_L, elem_of_union, elem_of_singleton in Hq.
        rewrite elem_of_app.
        destruct Hq as [->|Hq]; [right; left|left; now apply Hinv].
      * now rewrite lookup_insert_ne.
      * now rewrite lookup_insert_ne.
  - now repeat split.
Qed.

(** X17: the first completion time stands.  Throughout level 3 (scene
    updates, winners reported by characters, particles spawned), as long as
    every recorded completion time belongs to a listed winner, which
    [add_winner] guarantees, a completion time once recorded for a player is
    never changed, the player stays on the winners list, and the player's
    entry in the level-3 results store is never overwritten, by a later
    [add_winner] or by the DNF assignment at the time-out. *)
Theorem first_completion_time_stands (characters : list NCharacter)
    (x y : NGame3.NScene3 * Game) (player : nat) (t : Q) :
  scene3_history characters x y ->
  completions_listed x.1 ->
  NGame3.player_completion_times x.1 !! player = Some t ->
  NGame3.player_completion_times y.1 !! player = Some t
  /\ player ∈ NGame3.winners y.1
  /\ default ∅ (player_times_level3 y.2) !! player
     = default ∅ (player_times_level3 x.2) !! player
  /\ completions_listed y.1.
Proof.
  intros Hhist Hinv Hp.
  assert (H : completions_listed y.1
              /\ NGame3.player_completion_times y.1 !! player = Some t
              /\ default ∅ (player_times_level3 y.2) !! player
                 = default ∅ (player_times_level3 x.2) !! player).
  { induction Hhist as [|y z _ IH Hstep]; [now repeat split|].
    destruct IH as (I1 & I2 & I3).
    destruct (scene3_step_keeps characters y z player t Hstep I1 I2) as (J1 & J2 & J3).
    repeat split; [exact J1|exact J2|congruence]. }
  destruct H as (H1 & H2 & H3).
  repeat split; try assumption.
  apply H1. apply elem_of_dom. now exists t.
Qed.

Lemma first_completion_time_stands_witness :
  scene3_history three_foxes (late_scene3, late_game)
    (NGame3.scene_update three_foxes quiet (1 # 50) late_scene3 late_game).1
  /\ completions_listed late_scene3
  /\ NGame3.player_completion_times late_scene3 !! 1%nat = Some 65.2
  /\ default ∅ (player_times_level3
                  (NGame3.scene_update three_foxes quiet (1 # 50)
                                       late_scene3 late_game).1.2) !! 1%nat
     = default ∅ (player_times_level3 late_game) !! 1%nat.
Proof.
  assert (H1 : scene3_history three_foxes (late_scene3, late_game)
                 (NGame3.scene_update three_foxes quiet (1 # 50)
                                      late_scene3 late_game).1).
  { eapply scene3_then; [apply scene3_start|apply scene3_update]. }
  assert (H2 : completions_listed late_scene3).
  { intros q Hq. simpl in Hq. rewrite dom_singleton_L in Hq.
    apply elem_of_singleton in Hq. subst q. left. }
  assert (H3 : NGame3.player_completion_times late_scene3 !! 1%nat = Some 65.2)
    by reflexivity.
  split; [exact H1|]. split; [exact H2|]. split; [exact H3|].
  destruct (first_completion_time_stands three_foxes _ _ 1%nat 65.2 H1 H2 H3)
    as (_ & _ & H & _).
  exact H.
Defined.

(** ** The countdown of level 3 *)

Lemma int_of_Z (z : Z) : NGame3Draw.int (inject_Z z) = z.
Proof.
  unfold NGame3Draw.int. destruct (Num.ltb _ _); [apply Qceiling_Z|apply Qfloor_Z].
Qed.

Lemma int_nonneg x : 0 <= x -> NGame3Draw.int x = Qfloor x.
Proof.
  intros H. unfold NGame3Draw.int.
  replace (Num.ltb x 0) with false; [reflexivity|].
  symmetry. now apply NumFacts.ltb_ge.
Qed.

(** X18: the countdown shown by [NScene3.draw_scene].  The remaining time is
    never negative; the display is its whole seconds, rounded down, split
    into minutes and seconds with the seconds between 0 and 59; once the time
    limit is reached it reads "Time: 0:00"; and it is drawn in red exactly
    when fewer than 20 seconds remain. *)
Theorem countdown_display (s : NGame3.NScene3) :
  let r := NGame3Draw.remaining_time s in
  let m := NGame3Draw.minutes s in
  let sec := NGame3Draw.seconds s in
  0 <= r
  /\ (0 <= m)%Z /\ (0 <= sec <= 59)%Z
  /\ (60 * m + sec)%Z = Qfloor r
  /\ (NGame3.time_limit s <= NGame3.elapsed_time s ->
      NGame3Draw.timer_text s = "Time: 0:00")
  /\ (NGame3Draw.timer_red s = true
      <-> NGame3.time_limit s - NGame3.elapsed_time s < 20).
Proof.
  intros r m sec.
  assert (Hr : 0 <= r).
  { unfold r, NGame3Draw.remaining_time. apply NumFacts.max_nonneg. lra. }
  assert (Hm : m = Qfloor (r / 60)) by apply int_of_Z.
  assert (Hbounds : 60 * inject_Z m <= r /\ r < 60 * inject_Z m + 60).
  { pose proof (Qfloor_le (r / 60)) as Hlo. pose proof (Qlt_floor (r / 60)) as Hhi.
    rewrite <- Hm in Hlo, Hhi. rewrite inject_Z_plus in Hhi.
    change (inject_Z 1) with 1 in Hhi.
    assert (Hq : r == 60 * (r / 60)) by field.
    clear Hm. set (q := r / 60) in *. clearbody q. split; lra. }
  destruct Hbounds as [Hlo' Hhi'].
  assert (Hsec : sec = Qfloor (r - 60 * inject_Z m)).
  { unfold sec, NGame3Draw.seconds. fold r. rewrite <- Hm.
    apply int_nonneg. lra. }
  assert (Hm0 : (0 <= m)%Z).
  { assert (H : inject_Z (-1) < inject_Z m) by (change (inject_Z (-1)) with (-1); lra).
    rewrite <- Zlt_Qlt in H. lia. }
  assert (Hs0 : (0 <= sec)%Z).
  { rewrite Hsec. apply (Qfloor_resp_le 0). lra. }
  assert (Hs59 : (sec <= 59)%Z).
  { pose proof (Qfloor_le (r - 60 * inject_Z m)) as H. rewrite <- Hsec in H.
    assert (H' : inject_Z sec < inject_Z 60) by (change (inject_Z 60) with 60; lra).
    rewrite <- Zlt_Qlt in H'. lia. }
  split; [exact Hr|]. split; [exact Hm0|]. split; [split; assumption|].
  split; [|split].
  - pose proof (Qfloor_le (r - 60 * inject_Z m)) as H1.
    pose proof (Qlt_floor (r - 60 * inject_Z m)) as H2.
    rewrite <- Hsec in H1, H2. rewrite inject_Z_plus in H2.
    assert (A : inject_Z (60 * m + sec) <= r).
    { rewrite inject_Z_plus, inject_Z_mult. change (inject_Z 60) with 60. lra. }
    assert (B : r < inject_Z (60 * m + sec + 1)).
    { rewrite !inject_Z_plus, inject_Z_mult. change (inject_Z 60) with 60.
      change (inject_Z 1) with 1 in *. lra. }
    apply Qfloor_resp_le in A. rewrite Qfloor_Z in A.
    pose proof (Qfloor_le r) as C.
    assert (D : inject_Z (Qfloor r) < inject_Z (60 * m + sec + 1)) by lra.
    rewrite <- Zlt_Qlt in D. lia.
  - intros Hover. unfold NGame3Draw.timer_text, NGame3Draw.minutes,
      NGame3Draw.seconds, NGame3Draw.remaining_time, Num.max.
    replace (Num.ltb 0.0 _) with false; [reflexivity|].
    symmetry. apply NumFacts.ltb_ge. lra.
  - unfold NGame3Draw.timer_red, NGame3Draw.remaining_time, Num.max.
    rewrite NumFacts.ltb_lt.
    destruct (Num.ltb 0.0 _) eqn:E.
    + split; intros; lra.
    + apply NumFacts.ltb_ge in E. split; intros; lra.
Qed.

Lemma countdown_display_witness :
  NGame3.time_limit
    (NGame3.scene_update three_foxes quiet (1 # 50) late_scene3 late_game).1.1
  <= NGame3.elapsed_time
       (NGame3.scene_update three_foxes quiet (1 # 50) late_scene3 late_game).1.1
  /\ NGame3Draw.timer_text
       (NGame3.scene_update three_foxes quiet (1 # 50) late_scene3 late_game).1.1
     = "Time: 0:00"
  /\ NGame3Draw.timer_text late_scene3 = "Time: 0:00"
  /\ NGame3Draw.timer_text fresh_scene3 = "Time: 2:00".
Proof.
  assert (H : NGame3.time_limit
                (NGame3.scene_update three_foxes quiet (1 # 50)
                                     late_scene3 late_game).1.1
              <= NGame3.elapsed_time
                   (NGame3.scene_update three_foxes quiet (1 # 50)
                                        late_scene3 late_game).1.1)
    by (vm_compute; discriminate).
  split; [exact H|]. split; [|split; reflexivity].
  destruct (countdown_display
              (NGame3.scene_update three_foxes quiet (1 # 50)
                                   late_scene3 late_game).1.1)
    as (_ & _ & _ & _ & H5 & _).
  exact (H5 H).
Defined.

(** ** Ranking in general *)

Section RankingFacts.

Import Leaderboard.

Lemma insert_sorted_perm x l : insert_sorted x l ≡ₚ x :: l.
Proof.
  induction l as [|y rest IH]; simpl; [reflexivity|].
  destruct (key_ltb _ _); [reflexivity|].
  rewrite IH. apply Permutation_swap.
Qed.

Lemma sort_from_perm l : forall acc,
  foldl (fun sorted x => insert_sorted x sorted) acc l ≡ₚ acc ++ l.
Proof.
  induction l as [|x rest IH]; intros acc; simpl.
  - now rewrite app_nil_r.
  - rewrite IH, insert_sorted_perm. simpl. apply Permutation_middle.
Qed.

Lemma ranks_before_iff a b :
  key_ltb (sort_key b) (sort_key a) = false <-> ranks_before a b.
Proof.
  unfold ranks_before. rewrite <- not_true_iff_false, key_ltb_spec. split.
  - intros H.
    destruct (Qlt_le_dec (total_time b) 0) as [Hb|Hb]; [now left|right].
    destruct (Qlt_le_dec (total_time a) 0) as [Ha|Ha].
    + destruct H. split; [exact Hb|now left].
    + split; [exact Ha|].
      destruct (Qlt_le_dec (total_time b) (total_time a)) as [Hlt|Hle]; [|exact Hle].
      destruct H. split; [exact Hb|now right].
  - intros [H|[H1 H2]] [H3 [H4|H4]]; lra.
Qed.

Lemma ranks_before_trans a b c :
  ranks_before a b -> ranks_before b c -> ranks_before a c.
Proof. unfold ranks_before. intros [?|[? ?]] [?|[? ?]]; try (left; lra); right; lra. Qed.

Lemma key_ltb_ranks x y :
  key_ltb (sort_key x) (sort_key y) = true -> ranks_before x y.
Proof.
  rewrite key_ltb_spec. unfold ranks_before.
  intros [H1 [H2|H2]]; [now left|right; lra].
Qed.

Lemma insert_sorted_sorted x l :
  StronglySorted ranks_before l -> StronglySorted ranks_before (insert_sorted x l).
Proof.
  induction 1 as [|y rest Hsorted IH Hall]; simpl.
  - repeat constructor.
  - destruct (key_ltb (sort_key x) (sort_key y)) eqn:E.
    + constructor; [now constructor|].
      apply key_ltb_ranks in E. constructor; [exact E|].
      eapply Forall_impl; [exact Hall|]. intros z Hz.
      now apply (ranks_before_trans x y z).
    + constructor; [exact IH|].
      apply ranks_before_iff in E.
      rewrite Forall_forall. intros z Hz.
      rewrite insert_sorted_perm in Hz. apply elem_of_cons in Hz as [->|Hz]; [exact E|].
      rewrite Forall_forall in Hall. now apply Hall.
Qed.

Lemma sort_from_sorted l : forall acc,
  StronglySorted ranks_before acc ->
  StronglySorted ranks_before (foldl (fun sorted x => insert_sorted x sorted) acc l).
Proof.
  induction l as [|x rest IH]; intros acc Hacc; simpl; [exact Hacc|].
  apply IH. now apply insert_sorted_sorted.
Qed.

End RankingFacts.

(** X19: the sort of the leaderboard is a ranking of the results it is given.
    The sorted list holds exactly the given results, none lost and none
    doubled, and for any two of them the earlier one ranks before the later
    one: the later one did not finish, or both finished and the earlier one
    has at most the later one's total time.  So all finishers come first, by
    ascending total time, and every DNF entry after them. *)
Theorem sort_is_ranking (results : list Leaderboard.Result) :
  Leaderboard.sort results ≡ₚ results
  /\ StronglySorted ranks_before (Leaderboard.sort results)
  /\ forall i j a b,
       (i < j)%nat ->
       Leaderboard.sort results !! i = Some a ->
       Leaderboard.sort results !! j = Some b ->
       Leaderboard.total_time a < 0 -> Leaderboard.total_time b < 0.
Proof.
  assert (Hperm : Leaderboard.sort results ≡ₚ results)
    by apply (sort_from_perm results []).
  assert (Hsorted : StronglySorted ranks_before (Leaderboard.sort results)).
  { apply sort_from_sorted. constructor. }
  split; [exact Hperm|]. split; [exact Hsorted|].
  intros i j a b Hij Ha Hb Hdnf.
  assert (Hab : ranks_before a b).
  { clear Hperm Hdnf. revert i j Hij Ha Hb.
    generalize dependent (Leaderboard.sort results). intros l Hsorted.
    induction Hsorted as [|x rest _ IH Hall]; intros i j Hij Ha Hb.
    - discriminate.
    - destruct i as [|i]; destruct j as [|j]; try lia; simpl in *.
      + injection Ha as ->. rewrite Forall_forall in Hall. apply Hall.
        apply list_elem_of_lookup. now exists j.
      + apply (IH i j); [lia|assumption..]. }
  destruct Hab as [H|[H _]]; [exact H|lra].
Qed.

Lemma sort_is_ranking_witness :
  (0 < 1)%nat
  /\ Leaderboard.sort [board_p2; board_p1; board_p3] !! 0%nat = Some board_p3
  /\ Leaderboard.sort [board_p2; board_p1; board_p3] !! 2%nat = Some board_p2
  /\ (Leaderboard.total_time board_p3 < 0 -> Leaderboard.total_time board_p2 < 0).
Proof.
  assert (H0 : (0 < 2)%nat) by lia.
  assert (H1 : Leaderboard.sort [board_p2; board_p1; board_p3] !! 0%nat
               = Some board_p3) by reflexivity.
  assert (H2 : Leaderboard.sort [board_p2; board_p1; board_p3] !! 2%nat
               = Some board_p2) by reflexivity.
  split; [lia|]. split; [exact H1|]. split; [exact H2|].
  destruct (sort_is_ranking [board_p2; board_p1; board_p3]) as (_ & _ & H).
  exact (H 0%nat 2%nat board_p3 board_p2 H0 H1 H2).
Defined.

(** ** The entries of the leaderboard *)

Lemma string_length_app (a b : string) :
  String.length (a ++ b) = (String.length a + String.length b)%nat.
Proof. induction a as [|c a IH]; simpl; [reflexivity|now rewrite IH]. Qed.

Lemma zero_pad_length n x : (n <= String.length (Leaderboard.zero_pad n x))%nat.
Proof.
  unfold Leaderboard.zero_pad. rewrite string_length_app.
  assert (H : forall k, String.length (string_of_list_ascii (repeat "0"%char k)) = k).
  { induction k as [|k IH]; simpl; [reflexivity|now rewrite IH]. }
  rewrite H. lia.
Qed.

(** A formatted time is never mistaken for the DNF mark. *)
Lemma format_time_not_dnf t : 0 <= t -> Leaderboard.format_time t <> "DNF".
Proof.
  intros Ht. unfold Leaderboard.format_time.
  replace (Num.ltb t 0) with false by (symmetry; now apply NumFacts.ltb_ge).
  intros H. apply (f_equal String.length) in H.
  cbv zeta in H. rewrite !string_length_app in H.
  unfold Leaderboard.format_05_2f in H. cbv zeta in H.
  match type of H with context [String.length (Leaderboard.zero_pad 5 ?x)] =>
    pose proof (zero_pad_length 5 x) as Hpad;
    set (n := String.length (Leaderboard.zero_pad 5 x)) in * end.
  clearbody n. change (String.length "DNF") with 3%nat in H.
  change (String.length ":") with 1%nat in H. lia.
Qed.

Lemma result_of_spec l1 l2 l3 p :
  let r := Leaderboard.result_of l1 l2 l3 p in
  let t1 := Leaderboard.get_time l1 p in
  let t2 := Leaderboard.get_time l2 p in
  let t3 := Leaderboard.get_time l3 p in
  Leaderboard.player r = p
  /\ (t1 < 0 \/ t2 < 0 \/ t3 < 0 ->
      Leaderboard.status r = "DNF" /\ Leaderboard.total_time r = -1.0)
  /\ (0 <= t1 /\ 0 <= t2 /\ 0 <= t3 ->
      Leaderboard.status r = Leaderboard.format_time (t1 + t2 + t3)
      /\ Leaderboard.total_time r = t1 + t2 + t3
      /\ Leaderboard.status r <> "DNF").
Proof.
  intros r t1 t2 t3. unfold r, Leaderboard.result_of. fold t1 t2 t3.
  destruct (Num.ltb t1 0) eqn:E1; [|destruct (Num.ltb t2 0) eqn:E2;
                                     [|destruct (Num.ltb t3 0) eqn:E3]]; simpl;
    try apply NumFacts.ltb_lt in E1; try apply NumFacts.ltb_ge in E1;
    try apply NumFacts.ltb_lt in E2; try apply NumFacts.ltb_ge in E2;
    try apply NumFacts.ltb_lt in E3; try apply NumFacts.ltb_ge in E3.
  - split; [reflexivity|]. split; [now split|]. intros (? & ? & ?). lra.
  - split; [reflexivity|]. split; [now split|]. intros (? & ? & ?). lra.
  - split; [reflexivity|]. split; [now split|]. intros (? & ? & ?). lra.
  - split; [reflexivity|]. split; [intros [?|[?|?]]; lra|].
    intros _. split; [reflexivity|]. split; [reflexivity|].
    apply format_time_not_dnf. lra.
Qed.

Lemma get_time_missing (m : gmap nat Q) p :
  m !! p = None -> Leaderboard.get_time m p < 0.
Proof. intros H. unfold Leaderboard.get_time. rewrite H. reflexivity. Qed.



(** X21: a level without recorded times.  If the game object lacks the
    results attribute of one of the three levels (no scene of that level ever
    recorded a time, as is the case for level 1, whose scene in n_game.py
    never writes one), every player on the leaderboard is DNF. *)
Theorem absent_level_all_dnf (iteration : list nat) (g : Game) (r : Leaderboard.Result) :
  player_times_level1 g = None \/ player_times_level2 g = None
  \/ player_times_level3 g = None ->
  r ∈ Leaderboard.init_with iteration g ->
  Leaderboard.status r = "DNF" /\ Leaderboard.total_time r = -1.0.
Proof.
  intros Habsent Hin.
  assert (Hperm : Leaderboard.init_with iteration g
                  ≡ₚ map (Leaderboard.result_of (default ∅ (player_times_level1 g))
                            (default ∅ (player_times_level2 g))
                            (default ∅ (player_times_level3 g))) iteration).
  { unfold Leaderboard.init_with. apply (sort_from_perm _ []). }
  rewrite Hperm in Hin. apply list_elem_of_fmap in Hin as (p & -> & _).
  apply result_of_spec.
  destruct Habsent as [H|[H|H]]; rewrite H; simpl;
    [left|right; left|right; right]; apply get_time_missing, lookup_empty.
Qed.

Lemma absent_level_all_dnf_witness :
  (player_times_level1 late_game = None \/ player_times_level2 late_game = None
   \/ player_times_level3 late_game = None)
  /\ Leaderboard.result_of ∅ ∅ {[1%nat := 65.2]} 1%nat
     ∈ Leaderboard.init_with [1%nat] late_game
  /\ Leaderboard.status (Leaderboard.result_of ∅ ∅ {[1%nat := 65.2]} 1%nat) = "DNF".
Proof.
  assert (H : player_times_level1 late_game = None
              \/ player_times_level2 late_game = None
              \/ player_times_level3 late_game = None) by now left.
  assert (Hin : Leaderboard.result_of ∅ ∅ {[1%nat := 65.2]} 1%nat
                ∈ Leaderboard.init_with [1%nat] late_game) by (vm_compute; left).
  split; [exact H|]. split; [exact Hin|].
  exact (proj1 (absent_level_all_dnf [1%nat] late_game _ H Hin)).
Defined.

(** ** Leaving the leaderboard *)

(** X22: leaving the leaderboard.  With Enter or Start, [update] of the
    leaderboard screen removes all three results attributes from the game
    object, stops the music if it was flagged as playing and, last of all,
    asks for scene 0; a leaderboard built from the game object afterwards is
    empty, and the first winner of a following level-3 run finds a store
    holding nothing but its own time.  Without Enter or Start the game object
    is untouched and no scene is requested. *)
Theorem leaving_leaderboard (sound_playing key_enter pad_start music : bool)
    (g : Game) (player : nat) (s : NGame3.NScene3) :
  let r := LeaderboardScreen.update sound_playing key_enter pad_start music g in
  (key_enter || pad_start = true ->
     r.1.2 = mkGame None None None
     /\ r.1.1 = false
     /\ Leaderboard.init r.1.2 = []
     /\ (exists sounds, r.2 = sounds ++ [LeaderboardScreen.GoToScene 0]
                        /\ forall e, e ∈ sounds -> exists x, e = LeaderboardScreen.Raylib x)
     /\ (player ∉ NGame3.winners s ->
         player_times_level3 (NGame3.add_winner player s r.1.2).1.2
         = Some {[player := NGame3.elapsed_time s]}))
  /\ (key_enter || pad_start = false ->
      r.1.2 = g /\ r.1.1 = music
      /\ forall e, e ∈ r.2 -> exists x, e = LeaderboardScreen.Raylib x).
Proof.
  intros r. unfold r, LeaderboardScreen.update.
  destruct (key_enter || pad_start); split; try discriminate; intros _.
  - assert (Hclear : LeaderboardScreen.clear_times g = mkGame None None None).
    { unfold LeaderboardScreen.clear_times.
      destruct (player_times_level1 g), (player_times_level2 g),
        (player_times_level3 g); reflexivity. }
    destruct music; simpl; rewrite Hclear.
    + split; [reflexivity|]. split; [reflexivity|]. split; [reflexivity|]. split.
      * exists ((if negb sound_playing
                 then [LeaderboardScreen.Raylib (PlaySound "end")] else [])
                ++ [LeaderboardScreen.Raylib (StopSound "end")]).
        split; [now rewrite <- app_assoc|].
        intros e He. apply elem_of_app in He as [He|He].
        -- destruct sound_playing; simpl in He; [inversion He|].
           apply list_elem_of_singleton in He as ->. eexists; reflexivity.
        -- apply list_elem_of_singleton in He as ->. eexists; reflexivity.
      * intros Hfresh. unfold NGame3.add_winner.
        rewrite bool_decide_eq_false_2 by exact Hfresh. simpl.
        now rewrite insert_empty.
    + split; [reflexivity|]. split; [reflexivity|]. split; [reflexivity|]. split.
      * exists []. split; [reflexivity|]. intros e He. inversion He.
      * intros Hfresh. unfold NGame3.add_winner.
        rewrite bool_decide_eq_false_2 by exact Hfresh. simpl.
        now rewrite insert_empty.
  - simpl. split; [reflexivity|]. split; [reflexivity|].
    intros e He. destruct (music && negb sound_playing); [|inversion He].
    apply list_elem_of_singleton in He as ->. eexists; reflexivity.
Qed.

Lemma leaving_leaderboard_witness :
  false || true = true
  /\ Leaderboard.init
       (LeaderboardScreen.update true false true true final_game).1.2 = [].
Proof.
  split; [reflexivity|].
  destruct (proj1 (leaving_leaderboard true false true true final_game 1%nat
                     fresh_scene3) eq_refl) as (_ & _ & H & _).
  exact H.
Defined.

(** ** The title screen *)

Lemma title_update_spec sound_playing key_enter pad_start s :
  let r := TitleScreen.update sound_playing key_enter pad_start s in
  TitleScreen.music_playing r.1
  = TitleScreen.music_playing s && negb (key_enter || pad_start)
  /\ plays "title" r.2
     = (if TitleScreen.music_playing s && negb sound_playing then 1 else 0)%nat
  /\ length (filter (fun e => is_transition e = true) r.2)
     = (if key_enter || pad_start then 1 else 0)%nat.
Proof.
  unfold TitleScreen.update.
  destruct s as [[]]; destruct sound_playing, key_enter, pad_start;
    simpl; repeat split.
Qed.

(** X23: the title screen.  Over any run of frames, the title music is
    restarted only in frames in which it is flagged as playing and raylib
    reports that it has ended; once Enter or Start has stopped it, it stays
    off and is never started again; and the next scene is requested once for
    every frame with Enter or Start, never otherwise. *)
Theorem title_screen_run (frames : list (bool * bool * bool)) (s : TitleScreen.State) :
  let r := TitleScreen.run frames s in
  (TitleScreen.music_playing s = false ->
     TitleScreen.music_playing r.1 = false /\ plays "title" r.2 = 0%nat)
  /\ (plays "title" r.2
      <= length (filter (fun f : bool * bool * bool => f.1.1 = false) frames))%nat
  /\ length (filter (fun e => is_transition e = true) r.2)
     = length (filter (fun f : bool * bool * bool => f.1.2 || f.2 = true) frames)
  /\ (Exists (fun f : bool * bool * bool => f.1.2 || f.2 = true) frames ->
      TitleScreen.music_playing r.1 = false).
Proof.
  revert s. induction frames as [|[[sp ke] ps] rest IH]; intros s.
  - simpl. repeat split; auto. intros H. inversion H.
  - cbn [TitleScreen.run].
    destruct (title_update_spec sp ke ps s) as (U1 & U2 & U3).
    destruct (TitleScreen.update sp ke ps s) as [s1 fx1]. simpl in U1, U2, U3.
    destruct (IH s1) as (I1 & I2 & I3 & I4).
    destruct (TitleScreen.run rest s1) as [s2 fx2].
    cbn [fst snd] in I1, I2, I3, I4. cbn [fst snd].
    unfold plays in *. rewrite !filter_app, !length_app, U2, U3, I3.
    split; [|split; [|split]].
    + intros Hoff. rewrite Hoff in U1. cbn [andb] in U1.
      destruct (I1 U1) as [-> ->]. rewrite Hoff. now split.
    + destruct sp.
      * rewrite filter_cons_False by (cbn [fst]; discriminate).
        rewrite andb_false_r. exact I2.
      * rewrite filter_cons_True by reflexivity. cbn [length].
        destruct (TitleScreen.music_playing s && negb false); lia.
    + destruct (ke || ps) eqn:E.
      * rewrite filter_cons_True by (cbn [fst snd]; exact E). reflexivity.
      * rewrite filter_cons_False by (cbn [fst snd]; rewrite E; discriminate).
        reflexivity.
    + intros Hex. inversion Hex as [? ? Hnow|? ? Hlater]; subst.
      * cbn [fst snd] in Hnow. rewrite Hnow, andb_false_r in U1. now apply I1.
      * now apply I4.
Qed.

Lemma title_screen_run_witness :
  TitleScreen.music_playing (TitleScreen.mkState false) = false
  /\ plays "title"
       (TitleScreen.run [(false, false, false); (false, true, false)]
                        (TitleScreen.mkState false)).2 = 0%nat.
Proof.
  split; [reflexivity|].
  exact (proj2 (proj1 (title_screen_run [(false, false, false); (false, true, false)]
                         (TitleScreen.mkState false)) eq_refl)).
Defined.

(** ** How long a fall-through lasts *)






